(** * AutoMCM orchestration core: a shallow embedding and its properties

    The development follows the JavaScript sources module by module:

    - [Js]            values, truthiness, errors and completions;
    - [Events]        the notifications sent through the EventEmitter;
    - [ArtifactStore] core/artifact-store.js;
    - [Providers]     core/llm-providers.js (the factory);
    - [BaseAgent]     agents/base-agent.js;
    - [MasterAgent]   agents/master-agent.js;
    - [AgentService]  core/agent-service.js (the retrying facade);
    - [PaperSpec]     the completeness policy said over plain strings;
    - [ArtifactIndex] core/artifact-store.js (queries and deletion);
    - [Clients]       core/llm-providers.js (the request and its bodies);
    - [ConfigLoad]    core/config.js (environment placeholders);
    - [Conversation]  agents/base-agent.js (runs of sendMessage);
    - [Workflow]      core/agent-service.js (initialisation, the workflow);
    - [MasterPhases]  agents/master-agent.js (planning, implementation,
                      code extraction);
    - [ProblemAnalyzer] core/problem-analyzer.js.

    Everything that comes from outside the process (the clock, the random
    identifier, the reply of a provider, the order in which promises settle)
    is an explicit argument of the function that consumes it. *)

From Stdlib Require Import ZArith Lia Bool List Ascii String Sorted.
From Stdlib Require QArith.QArith_base QArith.Qround.
From stdpp Require Import base option list gmap strings pretty.

Local Open Scope string_scope.
Local Open Scope list_scope.
Local Open Scope Z_scope.

(* ===================================================================== *)
(** ** JavaScript values, errors, completions *)
(* ===================================================================== *)

Module Js.

(** The numbers that reach this code are configuration literals and small
    counters; they are only tested for truthiness and passed along, so a
    rational is enough to stand for a finite double. *)
#[warnings="-register-all"]
Inductive value : Type :=
| VUndefined
| VNull
| VBool (b : bool)
| VNum (q : QArith_base.Q)
| VNaN
| VStr (s : string)
| VObj (fields : list (string * value)).

(** [ToBoolean]. *)
Definition truthy (v : value) : bool :=
  match v with
  | VUndefined | VNull | VNaN => false
  | VBool b => b
  | VNum q => negb (QArith_base.Qeq_bool q (QArith_base.Qmake 0 1))
  | VStr s => negb (String.eqb s "")
  | VObj _ => true
  end.

(** [a || b]. *)
Definition or (a b : value) : value := if truthy a then a else b.

(** Property access [o.k] on a value that is known not to be null or
    undefined; a missing property reads as [undefined]. *)
Fixpoint assoc (k : string) (fields : list (string * value)) : value :=
  match fields with
  | [] => VUndefined
  | (k', v) :: rest => if String.eqb k k' then v else assoc k rest
  end.

Definition get (o : value) (k : string) : value :=
  match o with
  | VObj fields => assoc k fields
  | _ => VUndefined
  end.

Inductive error : Type :=
| Error (message : string)
| TypeError (message : string).

Definition message (e : error) : string :=
  match e with Error m | TypeError m => m end.

(** How a call ends: it returns, or it throws. *)
Inductive completion (A : Type) : Type :=
| Return (a : A)
| Throw (e : error).
Global Arguments Return {A} a.
Global Arguments Throw {A} e.

Definition returned {A} (c : completion A) : bool :=
  match c with Return _ => true | Throw _ => false end.

(** [Array.prototype.findIndex]: the first index whose element satisfies
    the predicate, [-1] when there is none. *)
Fixpoint findIndex_from {A} (p : A -> bool) (l : list A) (i : Z) : Z :=
  match l with
  | [] => -1
  | x :: rest => if p x then i else findIndex_from p rest (i + 1)
  end.

Definition findIndex {A} (p : A -> bool) (l : list A) : Z :=
  findIndex_from p l 0.

End Js.

(* ===================================================================== *)
(** ** Notifications *)
(* ===================================================================== *)

Module Events.

Inductive logType := info | success | warning | error.

(** One constructor per event name used with [emit]. *)
Inductive event : Type :=
| Log (type : logType) (message : string)        (* 'log' *)
| PhaseChange (phase : string)                   (* 'phase-change' *)
| ErrorEvent (e : Js.error)                      (* 'error' *)
| ArtifactCreated (type name : string) (metadata : Js.value)
                                                 (* 'artifact-created' *)
| PlanningComplete (result : Js.value)           (* 'planning-complete' *)
| ModelingComplete (result : Js.value)           (* 'modeling-complete' *)
| WritingComplete (result : Js.value)            (* 'writing-complete' *)
| Other (name : string) (payload : Js.value).

Definition is_error_event (e : event) : bool :=
  match e with ErrorEvent _ => true | _ => false end.

Definition is_phase_change (p : string) (e : event) : bool :=
  match e with PhaseChange q => String.eqb p q | _ => false end.

End Events.

(* ===================================================================== *)
(** ** core/artifact-store.js *)
(* ===================================================================== *)

Module ArtifactStore.

Record Artifact := mkArtifact {
  id : string;
  name : string;
  type : string;
  path : string;
  description : string;
  generatedBy : string;
  metadata : Js.value;
  timestamp : string;
  version : Z
}.

(** What lies on disk under a path: a text file, or the JSON index (kept
    as the list it serialises). *)
Inductive file :=
| Text (content : string)
| IndexJson (records : list Artifact).

Record Store := mkStore {
  artifactsPath : string;
  indexPath : string;
  artifacts : list Artifact;
  disk : gmap string file;
  eventEmitter : bool;            (* is an emitter attached? *)
  emitted : list Events.event     (* what has been emitted, oldest first *)
}.

(** The argument object of [register]; the three optional properties
    take their defaults when absent. *)
Record RegisterArg := mkRegisterArg {
  r_name : string;
  r_type : string;
  r_path : string;
  r_description : option string;
  r_generatedBy : option string;
  r_metadata : option Js.value
}.

(** The argument object of [saveArtifact]. *)
Record SaveArg := mkSaveArg {
  s_name : string;
  s_type : string;
  s_content : string;
  s_description : option string;
  s_generatedBy : option string;
  s_metadata : option Js.value
}.

(** The two readings a call takes from the environment: the result of
    [_generateId()] and of [new Date().toISOString()]. *)
Record Env := mkEnv {
  generatedId : string;
  isoNow : string
}.

Definition set_artifacts (l : list Artifact) (st : Store) : Store :=
  mkStore (artifactsPath st) (indexPath st) l (disk st)
          (eventEmitter st) (emitted st).

(** [fs.writeFile], where the write succeeds. *)
Definition writeFile (p : string) (f : file) (st : Store) : Store :=
  mkStore (artifactsPath st) (indexPath st) (artifacts st)
          (<[p := f]> (disk st)) (eventEmitter st) (emitted st).

Definition emit (e : Events.event) (st : Store) : Store :=
  mkStore (artifactsPath st) (indexPath st) (artifacts st) (disk st)
          (eventEmitter st) (emitted st ++ [e]).

Definition _saveIndex (st : Store) : Store :=
  writeFile (indexPath st) (IndexJson (artifacts st)) st.

Definition set_version (v : Z) (a : Artifact) : Artifact :=
  mkArtifact (id a) (name a) (type a) (path a) (description a)
             (generatedBy a) (metadata a) (timestamp a) v.

Definition set_id (i : string) (a : Artifact) : Artifact :=
  mkArtifact i (name a) (type a) (path a) (description a)
             (generatedBy a) (metadata a) (timestamp a) (version a).

(** [register(artifact)]: returns the entry and the new store. *)
Definition register (env : Env) (arg : RegisterArg) (st : Store)
  : Artifact * Store :=
  let entry :=
    mkArtifact (generatedId env) (r_name arg) (r_type arg) (r_path arg)
               (default "" (r_description arg))
               (default "unknown" (r_generatedBy arg))
               (default (Js.VObj []) (r_metadata arg))
               (isoNow env) 1 in
  let existingIndex :=
    Js.findIndex (fun a => String.eqb (path a) (r_path arg)) (artifacts st) in
  if (0 <=? existingIndex)%Z then
    match artifacts st !! Z.to_nat existingIndex with
    | Some existing =>
        let entry := set_version (version existing + 1) entry in
        let entry := set_id (id existing) entry in
        (entry,
         _saveIndex
           (set_artifacts (<[Z.to_nat existingIndex := entry]> (artifacts st)) st))
    | None => (entry, st) (* not reached: the index comes from findIndex *)
    end
  else
    (entry, _saveIndex (set_artifacts (artifacts st ++ [entry]) st)).

Section WithPath.
(** [path.join]; only its being a function of its arguments matters. *)
Variable path_join : string -> string -> string.

(** [saveArtifact(artifact)]. *)
Definition saveArtifact (env : Env) (arg : SaveArg) (st : Store)
  : Artifact * Store :=
  let artifactPath := path_join (artifactsPath st) (s_name arg) in
  let st := writeFile artifactPath (Text (s_content arg)) st in
  let '(result, st) :=
    register env
      (mkRegisterArg (s_name arg) (s_type arg) artifactPath
                     (Some (default "" (s_description arg)))
                     (Some (default "unknown" (s_generatedBy arg)))
                     (Some (default (Js.VObj []) (s_metadata arg))))
      st in
  let st :=
    if eventEmitter st
    then emit (Events.ArtifactCreated (s_type arg) (s_name arg)
                                      (metadata result)) st
    else st in
  (result, st).

(** A run of [saveArtifact] calls, one after the other; the entries
    returned are collected in call order. *)
Fixpoint saveAll (calls : list (Env * SaveArg)) (st : Store)
  : list Artifact * Store :=
  match calls with
  | [] => ([], st)
  | (env, arg) :: rest =>
      let '(a, st) := saveArtifact env arg st in
      let '(l, st) := saveAll rest st in
      (a :: l, st)
  end.

(** [readArtifact(name)]. [indexText] is the text that [_saveIndex]
    writes for a list of records, [JSON.stringify(artifacts, null, 2)];
    [readError] is the message of the error with which [fs.readFile]
    rejects when there is no file under the path. *)
Definition readArtifact (indexText : list Artifact -> string)
           (readError : string) (nm : string) (st : Store)
  : Js.completion string :=
  match disk st !! path_join (artifactsPath st) nm with
  | Some (Text c) => Js.Return c
  | Some (IndexJson records) => Js.Return (indexText records)
  | None =>
      Js.Throw (Js.Error ("Failed to read artifact " +:+ nm +:+ ": "
                            +:+ readError))
  end.
End WithPath.

Definition getAll (st : Store) : list Artifact := artifacts st.

(** The first record stored under a path, with its position: the record
    that [findIndex(a => a.path === p)] designates. *)
Definition stored (p : string) (l : list Artifact) : option (nat * Artifact) :=
  list_find (fun a => String.eqb (path a) p = true) l.

End ArtifactStore.

(* ===================================================================== *)
(** ** String methods and the regular expressions the sources use *)
(* ===================================================================== *)

(** A string is a sequence of code units below 256. *)
Module Text.

Definition code (c : ascii) : N := N_of_ascii c.

(** The class [\s] (white space and line terminators) below 256. *)
Definition is_space (c : ascii) : bool :=
  let n := code c in
  ((9 <=? n) && (n <=? 13) || (n =? 32) || (n =? 160))%N.

(** The characters that [.] does not match. *)
Definition is_line_terminator (c : ascii) : bool :=
  let n := code c in ((n =? 10) || (n =? 13))%N.

Fixpoint drop (n : nat) (s : string) : string :=
  match n, s with
  | O, _ => s
  | S k, String _ rest => drop k rest
  | S _, EmptyString => EmptyString
  end.

Fixpoint take (n : nat) (s : string) : string :=
  match n, s with
  | S k, String c rest => String c (take k rest)
  | _, _ => EmptyString
  end.

(** [s.substring(a, b)]; the arguments are swapped when [a > b]. *)
Definition substring (a b : nat) (s : string) : string :=
  if (a <=? b)%nat then take (b - a) (drop a s) else take (a - b) (drop b s).

(** Does the character occur in the string? *)
Fixpoint has_char (c : ascii) (s : string) : bool :=
  match s with
  | EmptyString => false
  | String x rest => Ascii.eqb x c || has_char c rest
  end.

(** [s.indexOf(lit)], [None] for -1. *)
Fixpoint indexOf (lit s : string) : option nat :=
  if String.prefix lit s then Some O
  else match s with
       | EmptyString => None
       | String _ rest => S <$> indexOf lit rest
       end.

(** [s.lastIndexOf(lit)], [None] for -1. *)
Fixpoint lastIndexOf (lit s : string) : option nat :=
  match s with
  | EmptyString => if String.prefix lit s then Some O else None
  | String _ rest =>
      match lastIndexOf lit rest with
      | Some i => Some (S i)
      | None => if String.prefix lit s then Some O else None
      end
  end.

Definition includes (lit s : string) : bool :=
  match indexOf lit s with Some _ => true | None => false end.

Fixpoint trimStart (s : string) : string :=
  match s with
  | String c rest => if is_space c then trimStart rest else s
  | EmptyString => EmptyString
  end.

Fixpoint trimEnd (s : string) : string :=
  match s with
  | EmptyString => EmptyString
  | String c rest =>
      match trimEnd rest with
      | EmptyString => if is_space c then EmptyString else String c EmptyString
      | r => String c r
      end
  end.

Definition trim (s : string) : string := trimEnd (trimStart s).

(** [s.split(/\s+/)]: the pieces between the maximal runs of white
    space. [in_run] tells that the previous character was white space. *)
Fixpoint split_spaces_go (s : string) (in_run : bool) : list string :=
  match s with
  | EmptyString => [EmptyString]
  | String c rest =>
      if is_space c then
        if in_run then split_spaces_go rest true
        else EmptyString :: split_spaces_go rest true
      else
        match split_spaces_go rest false with
        | p :: ps => String c p :: ps
        | [] => [String c EmptyString]
        end
  end.

Definition split_spaces (s : string) : list string := split_spaces_go s false.

(** [(s.match(/lit/g) || []).length] for a literal without special
    characters: the occurrences found from left to right, each search
    resuming after the previous match. [skip] counts the characters
    still covered by the last match. *)
Fixpoint count_matches_go (lit s : string) (skip : nat) : nat :=
  match s with
  | EmptyString => O
  | String _ rest =>
      match skip with
      | S k => count_matches_go lit rest k
      | O =>
          if String.prefix lit s
          then S (count_matches_go lit rest (String.length lit - 1))
          else count_matches_go lit rest O
      end
  end.

Definition count_matches (lit s : string) : nat := count_matches_go lit s O.

(** The fragment of regular expressions needed for [RegExp.test]. *)
Inductive regex :=
| Lit (s : string)                 (* a literal run *)
| OneOf (a b : ascii)              (* [ab] *)
| DotStar                          (* .* *)
| Seq (r1 r2 : regex)
| Alt (r1 r2 : regex).

(** Does [.*] followed by the continuation [k] match a prefix of [s]? *)
Fixpoint dot_star (k : string -> bool) (s : string) : bool :=
  k s ||
  match s with
  | String c rest => if is_line_terminator c then false else dot_star k rest
  | EmptyString => false
  end.

(** Backtracking matcher in continuation-passing style: does [r],
    followed by whatever [k] accepts, match at the start of [s]? *)
Fixpoint matches (r : regex) (s : string) (k : string -> bool) : bool :=
  match r with
  | Lit l => if String.prefix l s then k (drop (String.length l) s) else false
  | OneOf a b =>
      match s with
      | String c rest => (Ascii.eqb c a || Ascii.eqb c b) && k rest
      | EmptyString => false
      end
  | DotStar => dot_star k s
  | Seq r1 r2 => matches r1 s (fun s' => matches r2 s' k)
  | Alt r1 r2 => matches r1 s k || matches r2 s k
  end.

(** [r.test(s)]: a match starting at some position. *)
Fixpoint test (r : regex) (s : string) : bool :=
  matches r s (fun _ => true) ||
  match s with
  | String _ rest => test r rest
  | EmptyString => false
  end.

End Text.

(* ===================================================================== *)
(** ** core/llm-providers.js: the factory *)
(* ===================================================================== *)

Module Providers.

(** [String.prototype.toLowerCase] on code units below 256: the letters
    A-Z and the accented capitals U+00C0-U+00DE (the sign U+00D7 apart)
    move up by 32. *)
Definition lower_ascii (c : ascii) : ascii :=
  let n := N_of_ascii c in
  if ((65 <=? n) && (n <=? 90) ||
      (192 <=? n) && (n <=? 222) && negb (n =? 215))%N
  then ascii_of_N (n + 32) else c.

Fixpoint toLowerCase (s : string) : string :=
  match s with
  | EmptyString => EmptyString
  | String c rest => String (lower_ascii c) (toLowerCase rest)
  end.

(** The three client classes. *)
Inductive providerClass := ClaudeProvider | OpenAIProvider | GeminiProvider.

(** The descriptor handed to the factory. *)
Record ProviderConfig := mkProviderConfig {
  provider : Js.value;
  apiKey : Js.value;
  baseUrl : Js.value;
  model : Js.value;
  maxTokens : Js.value;
  temperature : Js.value
}.

(** [this.config] of a client. *)
Record Config := mkConfig {
  c_apiKey : Js.value;
  c_baseUrl : Js.value;
  c_model : Js.value;
  c_maxTokens : Js.value;
  c_temperature : Js.value
}.

Record Provider := mkProvider {
  class : providerClass;
  config : Config
}.

Definition defaultBaseUrl (cls : providerClass) : string :=
  match cls with
  | ClaudeProvider => "https://api.anthropic.com"
  | OpenAIProvider => "https://api.openai.com"
  | GeminiProvider => "https://generativelanguage.googleapis.com"
  end.

(** [new XProvider(config)]: the constructor fills in the base URL. *)
Definition construct (cls : providerClass) (c : Config) : Provider :=
  mkProvider cls
    (mkConfig (c_apiKey c)
              (Js.or (c_baseUrl c) (Js.VStr (defaultBaseUrl cls)))
              (c_model c) (c_maxTokens c) (c_temperature c)).

(** [ProviderFactory.createProvider(providerConfig)]. *)
Definition createProvider (providerConfig : ProviderConfig)
  : Js.completion Provider :=
  let config :=
    mkConfig (apiKey providerConfig) (baseUrl providerConfig)
             (model providerConfig)
             (Js.or (maxTokens providerConfig)
                    (Js.VNum (QArith_base.Qmake 8192 1)))
             (Js.or (temperature providerConfig)
                    (Js.VNum (QArith_base.Qmake 7 10))) in
  match provider providerConfig with
  | Js.VStr p =>
      let l := toLowerCase p in
      if String.eqb l "anthropic" || String.eqb l "claude" then
        Js.Return (construct ClaudeProvider config)
      else if String.eqb l "openai" || String.eqb l "gpt" then
        Js.Return (construct OpenAIProvider config)
      else if String.eqb l "google" || String.eqb l "gemini" then
        Js.Return (construct GeminiProvider config)
      else
        Js.Throw (Js.Error ("Unsupported LLM provider: " +:+ p))
  | Js.VUndefined =>
      Js.Throw (Js.TypeError
        "Cannot read properties of undefined (reading 'toLowerCase')")
  | Js.VNull =>
      Js.Throw (Js.TypeError
        "Cannot read properties of null (reading 'toLowerCase')")
  | _ => Js.Throw (Js.TypeError "provider.toLowerCase is not a function")
  end.

Definition getSupportedProviders : list string :=
  ["anthropic"; "claude"; "openai"; "gpt"; "google"; "gemini"].

End Providers.

(* ===================================================================== *)
(** ** core/config.js: reading the loaded configuration *)
(* ===================================================================== *)

Module Config.

(** [s.split('.')]. *)
Fixpoint split_on (sep : ascii) (s : string) : list string :=
  match s with
  | EmptyString => [EmptyString]
  | String c rest =>
      let parts := split_on sep rest in
      if Ascii.eqb c sep then EmptyString :: parts
      else match parts with
           | p :: ps => String c p :: ps
           | [] => [String c EmptyString]
           end
  end.

Definition has_key (k : string) (fields : list (string * Js.value)) : bool :=
  existsb (fun kv => String.eqb k kv.1) fields.

(** The loop of [get]: descend while the current value is an object that
    has the key. Properties inherited from [Object.prototype] are left
    out; none of them is an object with a [provider] property. *)
Fixpoint walk (keys : list string) (value : Js.value) : Js.value :=
  match keys with
  | [] => value
  | key :: rest =>
      match value with
      | Js.VObj fields =>
          if has_key key fields then walk rest (Js.assoc key fields)
          else Js.VUndefined
      | _ => Js.VUndefined
      end
  end.

(** [config.get(keyPath)] over the loaded configuration [cfg]. *)
Definition get (cfg : Js.value) (keyPath : string) : Js.value :=
  walk (split_on "." keyPath) cfg.

End Config.

(* ===================================================================== *)
(** ** agents/base-agent.js *)
(* ===================================================================== *)

Module BaseAgent.

Record Message := mkMessage {
  role : string;
  content : string
}.

Record Usage := mkUsage {
  inputTokens : Js.value;
  outputTokens : Js.value
}.

(** The uniform reply of a provider client. *)
Record Response := mkResponse {
  message : string;
  usage : Usage;
  stopReason : Js.value
}.

Record Agent := mkAgent {
  mode : string;
  provider : Providers.Provider;
  conversationHistory : list Message
}.

Section WithConfig.
(** The configuration singleton, as loaded. *)
Variable cfg : Js.value.

Definition primaryConfig : Providers.ProviderConfig :=
  Providers.mkProviderConfig
    (Config.get cfg "llm.provider")
    (Config.get cfg "llm.api_key")
    (Config.get cfg "llm.base_url")
    (Config.get cfg "llm.model")
    (Config.get cfg "llm.max_tokens")
    (Config.get cfg "llm.temperature").

Definition taskOverride (mode : string) : Js.value :=
  Config.get cfg ("llm.task_overrides." +:+ mode).

(** The descriptor that [_initializeProvider] hands to the factory. *)
Definition effectiveConfig (mode : string) : Providers.ProviderConfig :=
  let taskOverride := taskOverride mode in
  if Js.truthy taskOverride && Js.truthy (Js.get taskOverride "provider") then
    Providers.mkProviderConfig
      (Js.or (Js.get taskOverride "provider") (Providers.provider primaryConfig))
      (Js.or (Js.get taskOverride "api_key") (Providers.apiKey primaryConfig))
      (Js.or (Js.get taskOverride "base_url") (Providers.baseUrl primaryConfig))
      (Js.or (Js.get taskOverride "model") (Providers.model primaryConfig))
      (Providers.maxTokens primaryConfig)
      (Providers.temperature primaryConfig)
  else primaryConfig.

Definition _initializeProvider (mode : string)
  : Js.completion Providers.Provider :=
  Providers.createProvider (effectiveConfig mode).

(** [new BaseAgent(mode)]. *)
Definition new (mode : string) : Js.completion Agent :=
  match _initializeProvider mode with
  | Js.Return p => Js.Return (mkAgent mode p [])
  | Js.Throw e => Js.Throw e
  end.
End WithConfig.

Definition push (msg : Message) (a : Agent) : Agent :=
  mkAgent (mode a) (provider a) (conversationHistory a ++ [msg]).

(** [sendMessage(userMessage)] is an async function. It runs up to the
    [await] of [this.provider.sendMessage(history, systemPrompt, options)]
    when it is called ... *)
Definition sendMessage_call (userMessage : string) (a : Agent) : Agent :=
  push (mkMessage "user" userMessage) a.

(** ... and resumes when the provider call settles with [reply]. *)
Definition sendMessage_resume (reply : Js.completion Response) (a : Agent)
  : Js.completion Response * Agent :=
  match reply with
  | Js.Return response =>
      let a := push (mkMessage "assistant" (message response)) a in
      (Js.Return (mkResponse (message response) (usage response)
                             (stopReason response)), a)
  | Js.Throw error => (Js.Throw error, a)
  end.

(** The whole call, awaited. *)
Definition sendMessage (userMessage : string)
           (reply : Js.completion Response) (a : Agent)
  : Js.completion Response * Agent :=
  sendMessage_resume reply (sendMessage_call userMessage a).

Definition clearHistory (a : Agent) : Agent :=
  mkAgent (mode a) (provider a) [].

Definition getHistory (a : Agent) : list Message := conversationHistory a.

End BaseAgent.

(* ===================================================================== *)
(** ** agents/master-agent.js *)
(* ===================================================================== *)

Module MasterAgent.

(** *** Paper validation and LaTeX extraction (pure methods) *)

Record Validation := mkValidation {
  estimatedPages : Z;
  figureCount : Z;
  tableCount : Z;
  equationCount : Z;
  sectionCount : Z;
  hasExperimentalSection : bool;
  isComplete : bool
}.

(** [\\section\{.*[Xx]word.*\}]. *)
Definition section_heading (upper lower : ascii) (word : string) : Text.regex :=
  Text.Seq (Text.Lit "\section{")
    (Text.Seq Text.DotStar
       (Text.Seq (Text.OneOf upper lower)
          (Text.Seq (Text.Lit word)
             (Text.Seq Text.DotStar (Text.Lit "}"))))).

Definition experimental_heading : Text.regex :=
  Text.Alt (section_heading "E" "e" "xperiment")
    (Text.Alt (section_heading "R" "r" "esult")
              (section_heading "V" "v" "alidation")).

Definition wordCount (latexContent : string) : Z :=
  Z.of_nat (length (Text.split_spaces latexContent)).

(** [_validatePaperCompleteness(latexContent)]. The quotient
    [wordCount / 450] is exact enough in double precision for its ceiling
    to be the ceiling of the rational, the word count being bounded by
    the length of a string. *)
Definition _validatePaperCompleteness (latexContent : string) : Validation :=
  let wordCount := wordCount latexContent in
  let estimatedPages :=
    Qround.Qceiling (QArith_base.Qdiv (QArith_base.inject_Z wordCount)
                                      (QArith_base.inject_Z 450)) in
  let figureCount := Z.of_nat (Text.count_matches "\begin{figure}" latexContent) in
  let tableCount := Z.of_nat (Text.count_matches "\begin{table}" latexContent) in
  let equationCount := Z.of_nat (Text.count_matches "\begin{equation}" latexContent) in
  let sectionCount := Z.of_nat (Text.count_matches "\section{" latexContent) in
  let hasExperimentalSection := Text.test experimental_heading latexContent in
  mkValidation estimatedPages figureCount tableCount equationCount sectionCount
    hasExperimentalSection
    ((12 <=? estimatedPages) && (4 <=? figureCount) && hasExperimentalSection).

Definition fence : string := "```".

(** [message.match(/```(?:latex)?\n?([\s\S]*?)```/)], the captured group.
    The match starts at the first fence; the optional parts hold no
    backquote, so a closing fence exists for the greedy choice exactly
    when one exists for any other choice or any later start. *)
Definition codeBlock (message : string) : option string :=
  match Text.indexOf fence message with
  | None => None
  | Some i =>
      let after := Text.drop (i + 3) message in
      let after := if String.prefix "latex" after then Text.drop 5 after else after in
      let after :=
        match after with
        | String c rest => if (Text.code c =? 10)%N then rest else after
        | EmptyString => after
        end in
      match Text.indexOf fence after with
      | Some j => Some (Text.take j after)
      | None => None
      end
  end.

Definition newline : string := String (ascii_of_N 10) EmptyString.

(** [_extractLatexFromResponse(message)]. *)
Definition _extractLatexFromResponse (message : string) : string :=
  match codeBlock message with
  | Some body => Text.trim body
  | None =>
      if Text.includes "\documentclass" message &&
         Text.includes "\begin{document}" message
      then Text.trim message
      else
        match Text.indexOf "\documentclass" message,
              Text.lastIndexOf "\end{document}" message with
        | Some latexStart, Some latexEnd =>
            Text.trim (Text.substring latexStart
                         (latexEnd + String.length "\end{document}") message)
        | _, _ =>
            "\documentclass[12pt]{article}" +:+ newline +:+
            "\usepackage{amsmath, amsfonts, graphicx}" +:+ newline +:+
            "\title{Mathematical Modeling Paper}" +:+ newline +:+
            "\author{Team}" +:+ newline +:+
            "\date{\today}" +:+ newline +:+
            "\begin{document}" +:+ newline +:+
            "\maketitle" +:+ newline +:+
            "\section{Introduction}" +:+ newline +:+
            message +:+ newline +:+
            "\end{document}"
        end
  end.

(** *** The orchestrator's state *)

(** An entry of the clone registry. [agent] is the address of the
    BaseAgent object the entry refers to. *)
Record Clone := mkClone {
  id : string;
  agent : nat;
  mode : string;
  task : string;
  status : string
}.

Record Master := mkMaster {
  phase : string;
  clones : list Clone;
  heap : gmap nat BaseAgent.Agent;  (* the agents made by [spawnClone] *)
  nextAddr : nat;                   (* the next free address *)
  self : BaseAgent.Agent;           (* the inherited BaseAgent part *)
  workspacePath : option string;    (* [this.workspace], once initialised *)
  files : gmap string string;       (* workspace files outside the store *)
  artifactStore : option ArtifactStore.Store
}.

Definition set_phase (p : string) (m : Master) : Master :=
  mkMaster p (clones m) (heap m) (nextAddr m) (self m) (workspacePath m)
           (files m) (artifactStore m).

Definition set_clones (l : list Clone) (m : Master) : Master :=
  mkMaster (phase m) l (heap m) (nextAddr m) (self m) (workspacePath m)
           (files m) (artifactStore m).

Definition set_heap (h : gmap nat BaseAgent.Agent) (m : Master) : Master :=
  mkMaster (phase m) (clones m) h (nextAddr m) (self m) (workspacePath m)
           (files m) (artifactStore m).

Definition set_files (f : gmap string string) (m : Master) : Master :=
  mkMaster (phase m) (clones m) (heap m) (nextAddr m) (self m) (workspacePath m)
           f (artifactStore m).

Definition set_artifactStore (st : option ArtifactStore.Store) (m : Master)
  : Master :=
  mkMaster (phase m) (clones m) (heap m) (nextAddr m) (self m) (workspacePath m)
           (files m) st.

Definition set_status (s : string) (c : Clone) : Clone :=
  mkClone (id c) (agent c) (mode c) (task c) s.

(** What the methods take from their surroundings: the configuration
    singleton, [path.join], and the fixed text of the three requests as a
    function of what is spliced into it. *)
Class Runtime := mkRuntime {
  cfg : Js.value;
  path_join : string -> string -> string;
  modelingPrompt : string -> string;        (* of the approved plan *)
  paperPrompt : string -> string;           (* of the modeling context *)
  expansionPrompt : Validation -> string    (* of the validation *)
}.

Section Methods.
Context `{Runtime}.

(** The template literal [`${mode}-${Date.now()}`]. *)
Definition clone_id (mode : string) (now : Z) : string :=
  mode +:+ "-" +:+ pretty now.

(** [spawnClone(mode, task)] with the clock reading [now]; returns the
    address of the new agent. Nothing is registered when the
    constructor of the agent throws. *)
Definition spawnClone (now : Z) (mode task : string) (m : Master)
  : Js.completion nat * Master :=
  match BaseAgent.new cfg mode with
  | Js.Throw e => (Js.Throw e, m)
  | Js.Return clone =>
      let a := nextAddr m in
      (Js.Return a,
       mkMaster (phase m)
         (clones m ++ [mkClone (clone_id mode now) a mode task "running"])
         (<[a := clone]> (heap m)) (S a) (self m) (workspacePath m)
         (files m) (artifactStore m))
  end.

(** A run of [spawnClone] calls; each request gives the clock reading,
    the role and the task. A call whose constructor throws registers
    nothing. *)
Fixpoint spawnAll (requests : list (Z * string * string)) (m : Master) : Master :=
  match requests with
  | [] => m
  | (now, mode, task) :: rest => spawnAll rest (spawnClone now mode task m).2
  end.

(** [getClones()]. *)
Definition getClones (m : Master) : list Clone :=
  filter (fun c => String.eqb (status c) "running" = true) (clones m).

(** [clone.sendMessage(...)] on the agent at address [a]: the part run
    at the call, the part run when the provider settles, and both. *)
Definition clone_call (a : nat) (userMessage : string) (m : Master) : Master :=
  set_heap (alter (BaseAgent.sendMessage_call userMessage) a (heap m)) m.

Definition clone_resume (a : nat) (reply : Js.completion BaseAgent.Response)
           (m : Master) : Js.completion BaseAgent.Response * Master :=
  match heap m !! a with
  | Some ag =>
      let '(r, ag) := BaseAgent.sendMessage_resume reply ag in
      (r, set_heap (<[a := ag]> (heap m)) m)
  | None => (Js.Throw (Js.TypeError "no such agent"), m)
  end.

Definition clone_sendMessage (a : nat) (userMessage : string)
           (reply : Js.completion BaseAgent.Response) (m : Master)
  : Js.completion BaseAgent.Response * Master :=
  clone_resume a reply (clone_call a userMessage m).

(** *** executeParallel *)

Record Task := mkTask {
  t_mode : string;
  t_task : string;
  t_message : string
}.

Record TaskResult := mkTaskResult {
  tr_mode : string;
  tr_task : string;
  tr_result : BaseAgent.Response
}.

(** The promise returned by the async callback for one task. *)
Inductive promise :=
| Pending (clone : nat)
| Fulfilled (value : TaskResult)
| Rejected (e : Js.error).

(** [tasks.map(async ...)]: each callback runs, in input order, up to
    its first [await]. [clock i] is the reading of [Date.now()] in the
    callback of index [i]. *)
Fixpoint dispatch (clock : nat -> Z) (i : nat) (tasks : list Task) (m : Master)
  : list promise * Master :=
  match tasks with
  | [] => ([], m)
  | t :: rest =>
      match spawnClone (clock i) (t_mode t) (t_task t) m with
      | (Js.Throw e, m) =>
          let '(ps, m) := dispatch clock (S i) rest m in
          (Rejected e :: ps, m)
      | (Js.Return clone, m) =>
          let m := clone_call clone (t_message t) m in
          let '(ps, m) := dispatch clock (S i) rest m in
          (Pending clone :: ps, m)
      end
  end.

(** [const cloneEntry = this.clones.find(c => c.agent === clone);
    if (cloneEntry) cloneEntry.status = 'completed']. *)
Definition markCompleted (clone : nat) (m : Master) : Master :=
  match list_find (fun c => agent c = clone) (clones m) with
  | Some (k, cloneEntry) =>
      set_clones (<[k := set_status "completed" cloneEntry]> (clones m)) m
  | None => m
  end.

(** The state of the fan-out: the promises by input position, the
    reason with which [Promise.all] rejected (if it has), and the
    orchestrator. *)
Record Fanout := mkFanout {
  promises : list promise;
  rejection : option Js.error;
  master : Master
}.

(** The first promise, in input order, that is rejected already. *)
Fixpoint first_rejection (ps : list promise) : option Js.error :=
  match ps with
  | [] => None
  | Rejected e :: _ => Some e
  | _ :: rest => first_rejection rest
  end.

(** The provider call of task [i] settles with [reply i]: the callback
    resumes after its [await]. *)
Definition settle (tasks : list Task)
           (reply : nat -> Js.completion BaseAgent.Response)
           (f : Fanout) (i : nat) : Fanout :=
  match promises f !! i, tasks !! i with
  | Some (Pending clone), Some t =>
      match clone_resume clone (reply i) (master f) with
      | (Js.Return result, m) =>
          let m := markCompleted clone m in
          mkFanout (<[i := Fulfilled (mkTaskResult (t_mode t) (t_task t) result)]>
                      (promises f))
                   (rejection f) m
      | (Js.Throw e, m) =>
          mkFanout (<[i := Rejected e]> (promises f))
                   (match rejection f with Some e0 => Some e0 | None => Some e end)
                   m
      end
  | _, _ => f
  end.

Fixpoint values (ps : list promise) : option (list TaskResult) :=
  match ps with
  | [] => Some []
  | Fulfilled v :: rest => cons v <$> values rest
  | _ :: _ => None
  end.

(** [await Promise.all(promises)]: rejects with the first rejection,
    fulfils with the values in input order once every promise is
    fulfilled, and otherwise does not settle ([None]). *)
Definition promise_all (f : Fanout) : option (Js.completion (list TaskResult)) :=
  match rejection f with
  | Some e => Some (Js.Throw e)
  | None => Js.Return <$> values (promises f)
  end.

(** [executeParallel(tasks)]. [order] lists the tasks in the order in
    which their provider calls settle. The orchestrator returned is the
    one reached when all of [order] has settled, which on a rejection
    is later than the moment the caller sees the error. *)
Definition executeParallel (clock : nat -> Z)
           (reply : nat -> Js.completion BaseAgent.Response)
           (order : list nat) (tasks : list Task) (m : Master)
  : option (Js.completion (list TaskResult)) * Master :=
  let '(ps, m) := dispatch clock 0 tasks m in
  let f := fold_left (settle tasks reply) order
                     (mkFanout ps (first_rejection ps) m) in
  (promise_all f, master f).

(** Vocabulary for stating what a fan-out leaves behind. *)

(** The agent of every registered clone has been allocated. *)
Definition registry_wf (m : Master) : Prop :=
  forall c, c ∈ clones m -> (agent c < nextAddr m)%nat.

(** The status of the clone of task [i] once the tasks of [settled]
    have settled. *)
Definition status_after (reply : nat -> Js.completion BaseAgent.Response)
           (settled : list nat) (i : nat) : string :=
  if bool_decide (i ∈ settled) && Js.returned (reply i)
  then "completed" else "running".

(** The registry entry made for task [i] by a fan-out that starts at
    address [a0]. *)
Definition entry_of (clock : nat -> Z) (a0 : nat) (status : nat -> string)
           (i : nat) (t : Task) : Clone :=
  mkClone (clone_id (t_mode t) (clock i)) (a0 + i) (t_mode t) (t_task t)
          (status i).

(** The promise of task [i] after its provider call has settled. *)
Definition settled_promise (reply : nat -> Js.completion BaseAgent.Response)
           (i : nat) (t : Task) : promise :=
  match reply i with
  | Js.Return r =>
      Fulfilled (mkTaskResult (t_mode t) (t_task t)
                   (BaseAgent.mkResponse (BaseAgent.message r)
                      (BaseAgent.usage r) (BaseAgent.stopReason r)))
  | Js.Throw e => Rejected e
  end.

(** The first failure among the tasks of [settled], in that order. *)
Fixpoint first_failure (reply : nat -> Js.completion BaseAgent.Response)
         (settled : list nat) : option Js.error :=
  match settled with
  | [] => None
  | i :: rest =>
      match reply i with
      | Js.Throw e => Some e
      | Js.Return _ => first_failure reply rest
      end
  end.

(** The state of a fan-out over [tasks], started on a registry [old]
    at address [a0], once the tasks of [settled] have settled in that
    order. *)
Record fanout_inv (clock : nat -> Z)
       (reply : nat -> Js.completion BaseAgent.Response)
       (tasks : list Task) (old : list Clone) (a0 : nat)
       (settled : list nat) (f : Fanout) : Prop := mkFanoutInv {
  inv_promises :
    promises f =
      imap (fun i t => if bool_decide (i ∈ settled)
                       then settled_promise reply i t
                       else Pending (a0 + i)) tasks;
  inv_clones :
    clones (master f) =
      old ++ imap (entry_of clock a0 (status_after reply settled)) tasks;
  inv_heap :
    forall i, (i < length tasks)%nat -> is_Some (heap (master f) !! (a0 + i)%nat);
  inv_rejection : rejection f = first_failure reply settled
}.

(** *** executeModelingPhase *)

(** What one run of the modeling phase takes from outside: the clock at
    the spawn, the reply to the implementation request, and everything
    after that request (experiments, visualisations, sensitivity
    analysis, saving the phase document), which belongs to modules
    outside this development. *)
Record ModelingEnv := mkModelingEnv {
  md_now : Z;
  md_reply : Js.completion BaseAgent.Response;
  md_pipeline : BaseAgent.Response -> Master -> Js.completion Js.value * Master
}.

(** [executeModelingPhase(approvedPlan)]. The lines logged before the
    guard evaluate [approvedPlan ? approvedPlan.substring(0, 150) :
    'null'], which throws on a truthy value that is not a string; the
    guard is [!approvedPlan || approvedPlan === 'null']. The [catch] of
    the body only logs and throws the error again. *)
Definition executeModelingPhase (env : ModelingEnv) (approvedPlan : Js.value)
           (m : Master) : Js.completion Js.value * Master :=
  match approvedPlan with
  | Js.VStr plan =>
      if String.eqb plan "" || String.eqb plan "null" then
        (Js.Throw (Js.Error "Invalid plan received. Plan is null or empty."), m)
      else
        let m := set_phase "modeling" m in
        match spawnClone (md_now env) "modeler" "Implement mathematical model" m with
        | (Js.Throw e, m) => (Js.Throw e, m)
        | (Js.Return modelerClone, m) =>
            match workspacePath m with
            | None =>
                (Js.Throw (Js.TypeError
                   "Cannot read properties of undefined (reading 'getSummary')"), m)
            | Some _ =>
                match clone_sendMessage modelerClone (modelingPrompt plan)
                                        (md_reply env) m with
                | (Js.Throw e, m) => (Js.Throw e, m)
                | (Js.Return modelResult, m) => md_pipeline env modelResult m
                end
            end
        end
  | _ =>
      if Js.truthy approvedPlan
      then (Js.Throw (Js.TypeError "approvedPlan.substring is not a function"), m)
      else (Js.Throw (Js.Error "Invalid plan received. Plan is null or empty."), m)
  end.

(** *** executeWritingPhase *)

Record WritingEnv := mkWritingEnv {
  w_now : Z;                                      (* clock at the spawn *)
  w_modelingContext : string;                     (* _gatherModelingContext() *)
  w_paperReply : Js.completion BaseAgent.Response;
  w_writingDocument : string;                     (* _formatWritingDocument(...) *)
  w_metadata : Js.value;                          (* metadata of the saved artifact *)
  w_saveEnv : ArtifactStore.Env;
  w_pdfCompiled : bool;                           (* how step 2 ends *)
  w_expansionReply : Js.completion BaseAgent.Response
}.

Definition writeFile (p content : string) (m : Master) : Master :=
  set_files (<[p := content]> (files m)) m.

(** The result object [{ paper, pdfCompiled }]. *)
Definition writingResult (paper : string) (pdfCompiled : bool) : Js.value :=
  Js.VObj [("paper", Js.VStr paper); ("pdfCompiled", Js.VBool pdfCompiled)].

(** Step 3 onwards: validate [paper.tex] and expand it when it falls
    short. *)
Definition validateAndExpand (env : WritingEnv) (writerClone : nat)
           (paperPath : string) (paperResult : BaseAgent.Response)
           (pdfCompiled : bool) (m : Master)
  : Js.completion Js.value * Master :=
  match files m !! paperPath with
  | None => (Js.Throw (Js.Error ("ENOENT: no such file or directory, open '"
                                   +:+ paperPath +:+ "'")), m)
  | Some latexContentForValidation =>
      let validation := _validatePaperCompleteness latexContentForValidation in
      if (estimatedPages validation <? 12) || (figureCount validation <? 4)
         || negb (hasExperimentalSection validation)
      then
        match clone_sendMessage writerClone (expansionPrompt validation)
                                (w_expansionReply env) m with
        | (Js.Throw e, m) => (Js.Throw e, m)
        | (Js.Return expansionResult, m) =>
            let expandedLatex :=
              _extractLatexFromResponse (BaseAgent.message expansionResult) in
            let m := writeFile paperPath expandedLatex m in
            (* re-validation is only logged; re-compilation, when the
               first compilation succeeded, leaves the sources alone *)
            (Js.Return (writingResult (BaseAgent.message paperResult) pdfCompiled), m)
        end
      else
        (Js.Return (writingResult (BaseAgent.message paperResult) pdfCompiled), m)
  end.

(** [if (this.artifactStore) await this.artifactStore.saveArtifact({type:
    'document', name: 'writing-phase-result.md', ...})]. *)
Definition saveWritingDocument (env : WritingEnv) (m : Master) : Master :=
  match artifactStore m with
  | Some st =>
      let '(_, st) :=
        ArtifactStore.saveArtifact path_join (w_saveEnv env)
          (ArtifactStore.mkSaveArg "writing-phase-result.md"
             "document" (w_writingDocument env) None None
             (Some (w_metadata env))) st in
      set_artifactStore (Some st) m
  | None => m
  end.

(** [executeWritingPhase()]. The [catch] of the body only logs and
    throws the error again. *)
Definition executeWritingPhase (env : WritingEnv) (m : Master)
  : Js.completion Js.value * Master :=
  let m := set_phase "writing" m in
  match spawnClone (w_now env) "writer" "Write paper sections" m with
  | (Js.Throw e, m) => (Js.Throw e, m)
  | (Js.Return writerClone, m) =>
      match clone_sendMessage writerClone (paperPrompt (w_modelingContext env))
                              (w_paperReply env) m with
      | (Js.Throw e, m) => (Js.Throw e, m)
      | (Js.Return paperResult, m) =>
          let latexContent :=
            _extractLatexFromResponse (BaseAgent.message paperResult) in
          match workspacePath m with
          | None =>
              (Js.Throw (Js.TypeError
                 "Cannot read properties of null (reading 'workspacePath')"), m)
          | Some workspace =>
              let paperPath := path_join workspace "paper.tex" in
              let m := writeFile paperPath latexContent m in
              let m := saveWritingDocument env m in
              let pdfCompiled := w_pdfCompiled env in
              validateAndExpand env writerClone paperPath paperResult pdfCompiled m
          end
      end
  end.

End Methods.

End MasterAgent.

(* ===================================================================== *)
(** ** core/agent-service.js: the facade *)
(* ===================================================================== *)

Module AgentService.

(** What the facade uses of its orchestrator. [planning] tells how the
    call settles within the time box of [_executeWithTimeout], [None]
    when it does not; [modelingResults] is what [_emitModelingResults]
    emits, which depends on the artifacts only.

    [emitted] records what the facade's own [this.emit] calls send.
    What reaches the emitter from elsewhere is not recorded: a console
    line, once intercepted, is a 'log' notification, and the artifact
    store sends 'artifact-created'; neither is ever an 'error' or a
    'phase-change'. The pictographs that open the messages are left
    out. *)
Class Orchestrator (M : Type) := mkOrchestrator {
  planning : string -> M -> option (Js.completion Js.value) * M;
  modeling : Js.value -> M -> Js.completion Js.value * M;
  writing : M -> Js.completion Js.value * M;
  modelingResults : M -> list Events.event
}.

Section Facade.
Context {M : Type} `{Orchestrator M}.

Record Service := mkService {
  masterAgent : option M;
  isRunning : bool;
  currentPhase : string;
  emitted : list Events.event;    (* sent by the facade, oldest first *)
  invoked : list string           (* the orchestrator methods called *)
}.

(** [new AgentService()]. *)
Definition new : Service := mkService None false "idle" [] [].

Definition emit (e : Events.event) (s : Service) : Service :=
  mkService (masterAgent s) (isRunning s) (currentPhase s)
            (emitted s ++ [e]) (invoked s).

Definition set_isRunning (b : bool) (s : Service) : Service :=
  mkService (masterAgent s) b (currentPhase s) (emitted s) (invoked s).

Definition set_currentPhase (p : string) (s : Service) : Service :=
  mkService (masterAgent s) (isRunning s) p (emitted s) (invoked s).

(** A call of an orchestrator method: the orchestrator moves on and the
    call is recorded. *)
Definition call {A} (name : string) (op : M -> A * M) (m : M) (s : Service)
  : A * M * Service :=
  let '(r, m) := op m in
  (r, m, mkService (Some m) (isRunning s) (currentPhase s) (emitted s)
                   (invoked s ++ [name])).

(** [_executeWithTimeout(fn, timeout)]: the race against the timer. *)
Definition _executeWithTimeout (settled : option (Js.completion Js.value))
  : Js.completion Js.value :=
  match settled with
  | Some c => c
  | None => Js.Throw (Js.Error "Operation timed out")
  end.

(** The [while (attempt <= retries)] loop of [executePlanningPhase].
    [fuel] bounds the iterations of the model; [None] is returned when
    it runs out. *)
Fixpoint planning_loop (fuel : nat) (problemStatement : string)
         (retries attempt : Z) (m : M) (s : Service)
  : option (Js.completion Js.value) * Service :=
  if attempt <=? retries then
    match fuel with
    | O => (None, s)
    | S fuel =>
        (* try *)
        let s := set_isRunning true s in
        let s := set_currentPhase "planning" s in
        let s := emit (Events.PhaseChange "planning") s in
        let s :=
          if 0 <? attempt
          then emit (Events.Log Events.warning
                       ("Retry attempt " +:+ pretty attempt +:+ "/"
                          +:+ pretty retries +:+ "...")) s
          else emit (Events.Log Events.info "Starting planning phase...") s in
        let '(settled, m, s) :=
          call "executePlanningPhase" (planning problemStatement) m s in
        match _executeWithTimeout settled with
        | Js.Return result =>
            let s := emit (Events.Log Events.success "Planning phase complete") s in
            let s := emit (Events.PlanningComplete result) s in
            (* finally *)
            let s := if attempt >? retries then set_isRunning false s else s in
            (Some (Js.Return result), s)
        | Js.Throw error =>
            (* catch *)
            let attempt := attempt + 1 in
            if attempt >? retries then
              let s := emit (Events.Log Events.error
                               ("Planning failed after " +:+ pretty retries
                                  +:+ " retries: " +:+ Js.message error)) s in
              let s := emit (Events.ErrorEvent error) s in
              (* finally *)
              let s := if attempt >? retries then set_isRunning false s else s in
              (Some (Js.Throw error), s)
            else
              let s := emit (Events.Log Events.warning
                               ("Planning attempt failed: " +:+ Js.message error)) s in
              (* await this._delay(2000); finally *)
              let s := if attempt >? retries then set_isRunning false s else s in
              planning_loop fuel problemStatement retries attempt m s
        end
    end
  else (Some (Js.Return Js.VUndefined), s).

(** [executePlanningPhase(problemStatement, retries = 2)]. *)
Definition executePlanningPhase (problemStatement : string)
           (retries : option Z) (s : Service)
  : option (Js.completion Js.value) * Service :=
  let retries := default 2 retries in
  match masterAgent s with
  | None => (Some (Js.Throw (Js.Error "Workspace not initialized")), s)
  | Some m =>
      planning_loop (Z.to_nat (retries + 1)) problemStatement retries 0 m s
  end.

(** [executeModelingPhase(plan)]. As in the orchestrator, the preview
    line logged before the guard throws on a truthy plan that is not a
    string; the guard is [!plan || plan === 'null' || plan.length === 0]. *)
Definition executeModelingPhase (plan : Js.value) (s : Service)
  : Js.completion Js.value * Service :=
  match masterAgent s with
  | None => (Js.Throw (Js.Error "Workspace not initialized"), s)
  | Some m =>
      match plan with
      | Js.VStr p =>
          if String.eqb p "" || String.eqb p "null"
             || Nat.eqb (String.length p) 0
          then (Js.Throw (Js.Error
                  "No plan provided. Please complete planning phase first."), s)
          else
            (* try *)
            let s := set_isRunning true s in
            let s := set_currentPhase "modeling" s in
            let s := emit (Events.PhaseChange "modeling") s in
            let s := emit (Events.Log Events.info "Starting modeling phase...") s in
            let '(r, m, s) := call "executeModelingPhase" (modeling plan) m s in
            match r with
            | Js.Return result =>
                let s := emit (Events.Log Events.success "Modeling phase complete") s in
                let s := emit (Events.ModelingComplete result) s in
                let s := fold_left (fun s e => emit e s) (modelingResults m) s in
                (* finally *)
                let s := set_isRunning false s in
                (Js.Return result, s)
            | Js.Throw error =>
                (* catch *)
                let s := emit (Events.Log Events.error
                                 ("Modeling failed: " +:+ Js.message error)) s in
                let s := emit (Events.ErrorEvent error) s in
                (* finally *)
                let s := set_isRunning false s in
                (Js.Throw error, s)
            end
      | _ =>
          if Js.truthy plan
          then (Js.Throw (Js.TypeError "plan.substring is not a function"), s)
          else (Js.Throw (Js.Error
                  "No plan provided. Please complete planning phase first."), s)
      end
  end.

(** [executeWritingPhase()]. *)
Definition executeWritingPhase (s : Service)
  : Js.completion Js.value * Service :=
  match masterAgent s with
  | None => (Js.Throw (Js.Error "Workspace not initialized"), s)
  | Some m =>
      (* try *)
      let s := set_isRunning true s in
      let s := set_currentPhase "writing" s in
      let s := emit (Events.PhaseChange "writing") s in
      let s := emit (Events.Log Events.info "Starting writing phase...") s in
      let '(r, _, s) := call "executeWritingPhase" writing m s in
      let '(r, s) :=
        match r with
        | Js.Return result =>
            let s := emit (Events.Log Events.success "Writing phase complete") s in
            let s := emit (Events.WritingComplete result) s in
            (Js.Return result, s)
        | Js.Throw error =>
            (* catch *)
            let s := emit (Events.Log Events.error
                             ("Writing failed: " +:+ Js.message error)) s in
            let s := emit (Events.ErrorEvent error) s in
            (Js.Throw error, s)
        end in
      (* finally *)
      let s := set_isRunning false s in
      let s := set_currentPhase "idle" s in
      let s := emit (Events.PhaseChange "idle") s in
      (r, s)
  end.

(** [getStatus()]. *)
Definition getStatus (s : Service) : bool * string * bool :=
  (isRunning s, currentPhase s,
   match masterAgent s with Some _ => true | None => false end).

(** How a planning call made on the orchestrator [m] ends, seen through
    the time box. *)
Definition attempt_outcome (problemStatement : string) (m : M)
  : Js.completion Js.value :=
  _executeWithTimeout (planning problemStatement m).1.

(** The orchestrator after [k] planning calls. *)
Fixpoint after_attempts (problemStatement : string) (k : nat) (m : M) : M :=
  match k with
  | O => m
  | S k => after_attempts problemStatement k (planning problemStatement m).2
  end.

(** The 'error' notifications among a list of notifications. *)
Definition error_events (l : list Events.event) : list Events.event :=
  List.filter Events.is_error_event l.

End Facade.

Global Arguments Service M : clear implicits.

End AgentService.

(* ===================================================================== *)
(** ** Statements taken from the specification, and sample inputs *)
(* ===================================================================== *)

Module Claims.

(** Override precedence as the specification words it: whenever an
    override object is present for the role, each of the six fields of the
    effective descriptor is the override's value when set, and the
    primary's otherwise. *)
Definition override_precedence (cfg : Js.value) (mode : string) : Prop :=
  let o := BaseAgent.taskOverride cfg mode in
  let p := BaseAgent.primaryConfig cfg in
  let e := BaseAgent.effectiveConfig cfg mode in
  Js.truthy o = true ->
  Providers.provider e = Js.or (Js.get o "provider") (Providers.provider p) /\
  Providers.apiKey e = Js.or (Js.get o "api_key") (Providers.apiKey p) /\
  Providers.baseUrl e = Js.or (Js.get o "base_url") (Providers.baseUrl p) /\
  Providers.model e = Js.or (Js.get o "model") (Providers.model p) /\
  Providers.maxTokens e = Js.or (Js.get o "max_tokens") (Providers.maxTokens p) /\
  Providers.temperature e =
    Js.or (Js.get o "temperature") (Providers.temperature p).

(** A configuration whose writer override names a model but no provider. *)
Definition cfg_model_only : Js.value :=
  Js.VObj [("llm", Js.VObj [
    ("provider", Js.VStr "anthropic");
    ("api_key", Js.VStr "primary-key");
    ("model", Js.VStr "primary-model");
    ("max_tokens", Js.VNum (QArith_base.Qmake 8192 1));
    ("temperature", Js.VNum (QArith_base.Qmake 7 10));
    ("task_overrides", Js.VObj [
       ("writer", Js.VObj [("model", Js.VStr "writer-model")])])])].

(** A configuration whose writer override names a provider and a model. *)
Definition cfg_provider_and_model : Js.value :=
  Js.VObj [("llm", Js.VObj [
    ("provider", Js.VStr "anthropic");
    ("api_key", Js.VStr "primary-key");
    ("model", Js.VStr "primary-model");
    ("max_tokens", Js.VNum (QArith_base.Qmake 8192 1));
    ("temperature", Js.VNum (QArith_base.Qmake 7 10));
    ("task_overrides", Js.VObj [
       ("writer", Js.VObj [("provider", Js.VStr "openai");
                           ("model", Js.VStr "writer-model");
                           ("max_tokens", Js.VNum (QArith_base.Qmake 100 1))])])])].

(** The plans that the modeling phase refuses. *)
Definition refused_plans : list Js.value :=
  [Js.VNull; Js.VUndefined; Js.VStr ""; Js.VStr "null"].

(** Identifier uniqueness as the specification words it: two distinct
    entries of the registry never share their identifier. *)
Definition ids_unique (m : MasterAgent.Master) : Prop :=
  forall i j a b,
    i <> j ->
    MasterAgent.clones m !! i = Some a ->
    MasterAgent.clones m !! j = Some b ->
    MasterAgent.id a <> MasterAgent.id b.

(** The store of a new workspace, and the artifact "model.py" saved
    twice with different contents. *)
Definition sample_join (dir name : string) : string := dir +:+ "/" +:+ name.

Definition empty_store : ArtifactStore.Store :=
  ArtifactStore.mkStore "/ws/artifacts" "/ws/artifacts/index.json" [] ∅ false [].

Definition model_py_saves : list (ArtifactStore.Env * ArtifactStore.SaveArg) :=
  [(ArtifactStore.mkEnv "artifact_1700000000000_k3x9q" "2023-11-14T22:13:20.000Z",
    ArtifactStore.mkSaveArg "model.py" "code" "print(1)" None None None);
   (ArtifactStore.mkEnv "artifact_1700000000500_p7w2m" "2023-11-14T22:13:20.500Z",
    ArtifactStore.mkSaveArg "model.py" "code" "print(2)" None (Some "modeler") None)].

(** A small configuration, a runtime around it, and a fresh orchestrator
    (the state the constructor leaves, with a workspace path). *)
Definition sample_cfg : Js.value :=
  Js.VObj [("llm", Js.VObj [
    ("provider", Js.VStr "anthropic");
    ("api_key", Js.VStr "key");
    ("model", Js.VStr "model")])].

Definition sample_runtime : MasterAgent.Runtime :=
  MasterAgent.mkRuntime sample_cfg
    sample_join
    (fun plan => "Implement this approved plan: " +:+ plan)
    (fun context => "Write a COMPLETE paper. " +:+ context)
    (fun validation => "The current paper needs expansion.").

Definition sample_self : BaseAgent.Agent :=
  BaseAgent.mkAgent "general"
    (Providers.construct Providers.ClaudeProvider
       (Providers.mkConfig (Js.VStr "key") Js.VUndefined (Js.VStr "model")
          (Js.VNum (QArith_base.Qmake 8192 1))
          (Js.VNum (QArith_base.Qmake 7 10))))
    [].

Definition fresh_master : MasterAgent.Master :=
  MasterAgent.mkMaster "idle" [] ∅ 0 sample_self (Some "/ws") ∅ None.

Definition sample_response (text : string) : BaseAgent.Response :=
  BaseAgent.mkResponse text
    (BaseAgent.mkUsage (Js.VNum (QArith_base.Qmake 10 1))
                       (Js.VNum (QArith_base.Qmake 20 1)))
    (Js.VStr "end_turn").

(** Status tracking as the specification words it: after a fan-out,
    the clone of every task is marked completed, whatever its outcome. *)
Definition completed_whatever_the_outcome `{MasterAgent.Runtime}
           (clock : nat -> Z)
           (reply : nat -> Js.completion BaseAgent.Response)
           (order : list nat) (tasks : list MasterAgent.Task)
           (m : MasterAgent.Master) : Prop :=
  forall i t,
    tasks !! i = Some t ->
    exists c,
      MasterAgent.clones (MasterAgent.executeParallel clock reply order tasks m).2
        !! (length (MasterAgent.clones m) + i)%nat = Some c /\
      MasterAgent.status c = "completed".

(** Three tasks whose provider calls settle in the order 2, 0, 1. *)
Definition three_tasks : list MasterAgent.Task :=
  [MasterAgent.mkTask "researcher" "survey" "find papers";
   MasterAgent.mkTask "modeler" "model" "write the model";
   MasterAgent.mkTask "writer" "draft" "write the draft"].

Definition clock_ms (i : nat) : Z := 1700000000000 + Z.of_nat i.

Definition all_reply (i : nat) : Js.completion BaseAgent.Response :=
  Js.Return (sample_response ("task " +:+ pretty i)).

Definition second_fails (i : nat) : Js.completion BaseAgent.Response :=
  if Nat.eqb i 1 then Js.Throw (Js.Error "API request failed: 500")
  else all_reply i.

(** Documents for the completeness threshold: a heading "Experimental
    Validation", [k] figure environments, and filler words up to 6000
    words as [split(/\s+/)] counts them. *)
Fixpoint repeat_word (w : string) (n : nat) : string :=
  match n with
  | O => ""
  | S n => " " +:+ w +:+ repeat_word w n
  end.

Definition paper_with_figures (k : nat) : string :=
  "\section{Experimental Validation}"
    +:+ repeat_word "\begin{figure}\end{figure}" k
    +:+ repeat_word "word" (Z.to_nat 6000 - 2 - k).

(** A writing run: the writer first answers with the two-figure paper in
    a fenced block, then answers the expansion request with a paper that
    is shorter still. *)
Definition fenced (latex : string) : string :=
  "Here is the paper." +:+ MasterAgent.newline +:+
  "```latex" +:+ MasterAgent.newline +:+ latex +:+ MasterAgent.newline +:+ "```".

Definition short_paper : string :=
  "\documentclass{article}\begin{document}\section{Results}\end{document}".

Definition writing_env : MasterAgent.WritingEnv :=
  MasterAgent.mkWritingEnv 1700000000000 "context"
    (Js.Return (sample_response (fenced (paper_with_figures 2))))
    "writing document" (Js.VObj [("phase", Js.VStr "writing")])
    (ArtifactStore.mkEnv "artifact_1700000000000_abc" "2023-11-14T22:13:20.000Z")
    false
    (Js.Return (sample_response (fenced short_paper))).

(** An orchestrator whose planning call never succeeds: the calls with
    an even number time out, the others are rejected. Its state counts
    the calls made. *)
Definition failing_planning (problemStatement : string) (m : nat)
  : option (Js.completion Js.value) * nat :=
  (if Nat.even m then None
   else Some (Js.Throw (Js.Error ("rejected call " +:+ pretty m))),
   S m).

Definition failing_orchestrator : AgentService.Orchestrator nat :=
  AgentService.mkOrchestrator nat
    failing_planning
    (fun plan m => (Js.Throw (Js.Error "modeling failed"), S m))
    (fun m => (Js.Throw (Js.Error "writing failed"), S m))
    (fun m => []).

(** A facade in the state that a successful planning phase leaves. *)
Definition planned_service : AgentService.Service nat :=
  AgentService.mkService (Some 0%nat) true "planning" [] [].

(** The reset of the writing phase as the specification words it: after
    any call, the current phase is idle and a phase-change to idle has
    been emitted by the call. *)
Definition writing_resets `{AgentService.Orchestrator M}
           (s : AgentService.Service M) : Prop :=
  let out := AgentService.executeWritingPhase s in
  AgentService.currentPhase out.2 = "idle" /\
  exists new, AgentService.emitted out.2 = AgentService.emitted s ++ new /\
              In (Events.PhaseChange "idle") new.

(** ... and its counterpart: a modeling call that fails leaves the
    current phase at modeling. *)
Definition failed_modeling_stays `{AgentService.Orchestrator M}
           (plan : Js.value) (s : AgentService.Service M) : Prop :=
  let out := AgentService.executeModelingPhase plan s in
  Js.returned out.1 = false ->
  AgentService.currentPhase out.2 = "modeling".

End Claims.

(* ===================================================================== *)
(** ** The completeness policy, said over plain strings *)
(* ===================================================================== *)

Module PaperSpec.

(** The completeness policy in the specification's words, over plain
    strings: what a word, a figure environment and a section heading
    are, said with concatenation only. *)

(** The characters of the class [\s] below 256: tab, line feed, vertical
    tab, form feed, carriage return, space, no-break space. *)
Definition white_space (c : ascii) : Prop :=
  In c ["009"; "010"; "011"; "012"; "013"; " "; "160"]%char.

(** The characters that [.] does not match: line feed, carriage return. *)
Definition line_terminator (c : ascii) : Prop :=
  c = "010"%char \/ c = "013"%char.

Definition chars (s : string) : list ascii := list_ascii_of_string s.

(** [word_pieces s ps]: [ps] are the pieces of [s] between its maximal
    runs of white space, from left to right. Only the first and the
    last piece can be empty. *)
Inductive word_pieces : string -> list string -> Prop :=
| pieces_last p :
    Forall (fun c => ~ white_space c) (chars p) ->
    word_pieces p [p]
| pieces_more p run rest ps :
    Forall (fun c => ~ white_space c) (chars p) ->
    run <> "" ->
    Forall white_space (chars run) ->
    (forall c r, rest = String c r -> ~ white_space c) ->
    word_pieces rest ps ->
    word_pieces (p +:+ run +:+ rest) (p :: ps).

(** [occurrences lit s n]: reading [s] from left to right and resuming
    after each occurrence found, [lit] is found [n] times. *)
Inductive occurrences (lit : string) : string -> nat -> Prop :=
| occurrences_none s :
    (forall pre post, s <> pre +:+ lit +:+ post) ->
    occurrences lit s 0
| occurrences_next pre post n :
    (forall pre' post',
        pre +:+ lit +:+ post = pre' +:+ lit +:+ post' ->
        (String.length pre <= String.length pre')%nat) ->
    occurrences lit post n ->
    occurrences lit (pre +:+ lit +:+ post) (S n).

(** A section heading that mentions an experiment, a result or a
    validation: [\section{], then on the same line one of the six words
    and later a closing brace. *)
Definition heading_present (latexContent : string) : Prop :=
  exists pre before word after post,
    In word ["Experiment"; "experiment"; "Result"; "result";
             "Validation"; "validation"] /\
    Forall (fun c => ~ line_terminator c) (chars before) /\
    Forall (fun c => ~ line_terminator c) (chars after) /\
    latexContent =
      pre +:+ "\section{" +:+ before +:+ word +:+ after +:+ "}" +:+ post.

(** The strings a regular expression matches as a whole. *)
Fixpoint denotes (r : Text.regex) (w : string) : Prop :=
  match r with
  | Text.Lit l => w = l
  | Text.OneOf a b => w = String a "" \/ w = String b ""
  | Text.DotStar => Forall (fun c => ~ line_terminator c) (chars w)
  | Text.Seq r1 r2 =>
      exists w1 w2, w = w1 +:+ w2 /\ denotes r1 w1 /\ denotes r2 w2
  | Text.Alt r1 r2 => denotes r1 w \/ denotes r2 w
  end.

End PaperSpec.

(* ===================================================================== *)
(** ** core/artifact-store.js: the constructor, queries and deletion *)
(* ===================================================================== *)

Module ArtifactIndex.
Import ArtifactStore.

(** [new ArtifactStore(workspacePath, eventEmitter)] over the files
    [disk]; nothing is read or written yet. *)
Definition new (path_join : string -> string -> string)
           (workspacePath : string) (eventEmitter : bool)
           (disk : gmap string file) : Store :=
  let artifactsPath := path_join workspacePath "artifacts" in
  mkStore artifactsPath (path_join artifactsPath "index.json") [] disk
          eventEmitter [].

(** [getById(id)]: [find] gives [undefined] when no record has the id. *)
Definition getById (i : string) (st : Store) : option Artifact :=
  List.find (fun a => String.eqb (id a) i) (artifacts st).

(** [getByType(type)], [getFigures()], [getCode()]. *)
Definition getByType (t : string) (st : Store) : list Artifact :=
  List.filter (fun a => String.eqb (type a) t) (artifacts st).

Definition getFigures (st : Store) : list Artifact := getByType "figure" st.

Definition getCode (st : Store) : list Artifact := getByType "code" st.

(** [listArtifacts()]. *)
Definition listArtifacts (st : Store) : list Artifact := getAll st.

(** [search(query)]. *)
Definition search (query : string) (st : Store) : list Artifact :=
  let lowerQuery := Providers.toLowerCase query in
  List.filter
    (fun a =>
       Text.includes lowerQuery (Providers.toLowerCase (name a)) ||
       Text.includes lowerQuery (Providers.toLowerCase (description a)) ||
       Text.includes lowerQuery (Providers.toLowerCase (type a)))
    (artifacts st).

(** [delete(id)]: [splice(index, 1)] takes the record at [index] out. *)
Definition delete (i : string) (st : Store) : bool * Store :=
  let index := Js.findIndex (fun a => String.eqb (id a) i) (artifacts st) in
  if (0 <=? index)%Z then
    (true,
     _saveIndex (set_artifacts (base.delete (Z.to_nat index) (artifacts st)) st))
  else (false, st).

(** The calls that change a store, and a run of them. *)
Inductive call :=
| Register (env : Env) (arg : RegisterArg)
| SaveArtifact (env : Env) (arg : SaveArg)
| Delete (i : string).

Definition step (path_join : string -> string -> string)
           (st : Store) (c : call) : Store :=
  match c with
  | Register env arg => (register env arg st).2
  | SaveArtifact env arg => (saveArtifact path_join env arg st).2
  | Delete i => (delete i st).2
  end.

Definition run (path_join : string -> string -> string)
           (calls : list call) (st : Store) : Store :=
  fold_left (step path_join) calls st.

(** The index file holds the list kept in memory. *)
Definition index_saved (st : Store) : Prop :=
  disk st !! indexPath st = Some (IndexJson (artifacts st)).

End ArtifactIndex.

(* ===================================================================== *)
(** ** core/llm-providers.js: the clients *)
(* ===================================================================== *)

Module Clients.

(** *** [LLMProvider.request] *)

Section Request.
(** A parsed JSON body, and [JSON.stringify] on it. *)
Variable Json : Type.
Variable stringify : Json -> string.

(** What [request] reads of the [Response] that [fetch] resolves to:
    [headers.get('content-type')] is [null] without the header; [json()]
    and [text()] may reject. *)
Record HttpResponse := mkHttpResponse {
  ok : bool;
  status : Z;
  statusText : string;
  contentType : option string;
  json : Js.completion Json;
  text : Js.completion string
}.

(** [contentType && contentType.includes('application/json')]. *)
Definition isJson (contentType : option string) : bool :=
  match contentType with
  | Some c => negb (String.eqb c "") && Text.includes "application/json" c
  | None => false
  end.

(** The template literal [`${contentType}`]. *)
Definition showContentType (contentType : option string) : string :=
  match contentType with Some c => c | None => "null" end.

(** [request(endpoint, body, headers)], given how [fetch] settles. *)
Definition request (fetched : Js.completion HttpResponse) : Js.completion Json :=
  match fetched with
  | Js.Throw e => Js.Throw e
  | Js.Return response =>
      if negb (ok response) then
        let errorMessage := pretty (status response) +:+ " " +:+ statusText response in
        let errorMessage :=
          if isJson (contentType response) then
            match json response with
            | Js.Return errorData => stringify errorData
            | Js.Throw _ => errorMessage
            end
          else
            match text response with
            | Js.Return errorText => Text.substring 0 500 errorText
            | Js.Throw _ => errorMessage
            end in
        Js.Throw (Js.Error ("API request failed: " +:+ errorMessage))
      else if negb (isJson (contentType response)) then
        match text response with
        | Js.Throw e => Js.Throw e
        | Js.Return _ =>
            Js.Throw (Js.Error ("Expected JSON response but got "
                                  +:+ showContentType (contentType response)
                                  +:+ ". Check console for details."))
        end
      else json response
  end.

End Request.

Global Arguments ok {Json} h.
Global Arguments status {Json} h.
Global Arguments statusText {Json} h.
Global Arguments contentType {Json} h.
Global Arguments json {Json} h.
Global Arguments text {Json} h.

(** *** The request bodies *)

(** A message as it is put on the wire: [{ role, content }], or Gemini's
    [{ role, parts: [{ text }] }]. *)
Inductive wireMessage :=
| Plain (role content : string)
| Parts (role : string) (texts : list string).

(** [formatMessages(messages)] of the three clients. *)
Definition formatMessages (cls : Providers.providerClass)
           (messages : list BaseAgent.Message) : list wireMessage :=
  match cls with
  | Providers.ClaudeProvider | Providers.OpenAIProvider =>
      map (fun msg => Plain (BaseAgent.role msg) (BaseAgent.content msg)) messages
  | Providers.GeminiProvider =>
      map (fun msg =>
             Parts (if String.eqb (BaseAgent.role msg) "assistant"
                    then "model" else "user")
                   [BaseAgent.content msg])
          messages
  end.

(** The body handed to [request]: the fields it has, in order. *)
Record body := mkBody {
  b_model : option Js.value;          (* [model], where the body has one *)
  b_system : option string;           (* [system], where the body has one *)
  b_messages : list wireMessage       (* [messages] or [contents] *)
}.

Definition blankLine : string :=
  String (ascii_of_N 10) (String (ascii_of_N 10) EmptyString).

(** The body that [sendMessage(messages, systemPrompt, options)] builds. *)
Definition requestBody (p : Providers.Provider)
           (messages : list BaseAgent.Message) (systemPrompt : string) : body :=
  match Providers.class p with
  | Providers.ClaudeProvider =>
      mkBody (Some (Providers.c_model (Providers.config p))) (Some systemPrompt)
             (formatMessages Providers.ClaudeProvider messages)
  | Providers.OpenAIProvider =>
      let formattedMessages :=
        Plain "system" systemPrompt
          :: formatMessages Providers.OpenAIProvider messages in
      mkBody (Some (Providers.c_model (Providers.config p))) None formattedMessages
  | Providers.GeminiProvider =>
      let messagesWithSystem :=
        match messages with
        | first :: rest =>
            if negb (String.eqb systemPrompt "") then
              BaseAgent.mkMessage (BaseAgent.role first)
                (systemPrompt +:+ blankLine +:+ BaseAgent.content first) :: rest
            else messages
        | [] => messages
        end in
      mkBody None None (formatMessages Providers.GeminiProvider messagesWithSystem)
  end.

(** The texts that a body carries. *)
Definition wireText (w : wireMessage) : list string :=
  match w with
  | Plain _ content => [content]
  | Parts _ texts => texts
  end.

Definition wireRole (w : wireMessage) : string :=
  match w with Plain role _ | Parts role _ => role end.

Definition bodyTexts (b : body) : list string :=
  match b_system b with Some s => [s] | None => [] end
    ++ concat (map wireText (b_messages b)).

End Clients.

(* ===================================================================== *)
(** ** agents/base-agent.js: a run of messages *)
(* ===================================================================== *)

Module Conversation.
Import BaseAgent.

(** [sendMessage] called again and again on one agent, each call awaited
    before the next; a call is the user message and how the provider
    settles. *)
Fixpoint sendAll (calls : list (string * Js.completion Response)) (a : Agent)
  : list (Js.completion Response) * Agent :=
  match calls with
  | [] => ([], a)
  | (userMessage, reply) :: rest =>
      let '(r, a) := sendMessage userMessage reply a in
      let '(rs, a) := sendAll rest a in
      (r :: rs, a)
  end.

(** The assistant message that a call leaves, if it does. *)
Definition answer (c : string * Js.completion Response) : list Message :=
  match c.2 with
  | Js.Return response => [mkMessage "assistant" (message response)]
  | Js.Throw _ => []
  end.

End Conversation.

(* ===================================================================== *)
(** ** core/agent-service.js: initialisation and the complete workflow *)
(* ===================================================================== *)

Module Workflow.
Import AgentService.

(** The object that the orchestrator's [initializeWorkspace] returns. *)
Record Initialized := mkInitialized {
  status : string;
  workspace : Js.value;
  phase : string
}.

(** What the facade uses of its orchestrator to start: the constructor
    [new MasterAgent(this)], which throws when the agent cannot be
    constructed, and [initializeWorkspace(workspacePath, problemData)]. *)
Class Starter (M : Type) := mkStarter {
  newMaster : Js.completion M;
  initializing : string -> Js.value -> M -> Js.completion Initialized * M
}.

(** [value.key] on a value that may be [undefined] or [null]. *)
Definition member (value : Js.value) (key : string) : Js.completion Js.value :=
  match value with
  | Js.VUndefined =>
      Js.Throw (Js.TypeError ("Cannot read properties of undefined (reading '"
                                +:+ key +:+ "')"))
  | Js.VNull =>
      Js.Throw (Js.TypeError ("Cannot read properties of null (reading '"
                                +:+ key +:+ "')"))
  | _ => Js.Return (Js.get value key)
  end.

Section Facade.
Context {M : Type} `{Orchestrator M} `{Starter M}.

(** The [catch] of [initializeWorkspace]. *)
Definition initializationFailed (error : Js.error) (s : Service M)
  : Js.completion Initialized * Service M :=
  let s := emit (Events.Log Events.error
                   ("Initialization failed: " +:+ Js.message error)) s in
  let s := emit (Events.ErrorEvent error) s in
  (Js.Throw error, s).

(** [initializeWorkspace(workspacePath, problemData)]. *)
Definition initializeWorkspace (workspacePath : string) (problemData : Js.value)
           (s : Service M) : Js.completion Initialized * Service M :=
  (* try *)
  let s := emit (Events.Log Events.info "Initializing workspace...") s in
  match newMaster with
  | Js.Throw error => initializationFailed error s
  | Js.Return m =>
      let '(r, _, s) :=
        call "initializeWorkspace" (initializing workspacePath problemData) m s in
      match r with
      | Js.Return result =>
          let s := set_currentPhase (phase result) s in
          let s := emit (Events.PhaseChange (phase result)) s in
          let s := emit (Events.Log Events.success "Workspace initialized") s in
          (Js.Return result, s)
      | Js.Throw error => initializationFailed error s
      end
  end.

(** The [catch] of [runCompleteWorkflow]. *)
Definition workflowFailed (error : Js.error) (s : Service M)
  : option (Js.completion Js.value) * Service M :=
  let s := emit (Events.Log Events.error
                   ("Workflow failed: " +:+ Js.message error)) s in
  let s := emit (Events.ErrorEvent error) s in
  (Some (Js.Throw error), s).

(** [runCompleteWorkflow(workspacePath, problemData, problemStatement)];
    [None] when the model of the planning loop runs out of fuel. *)
Definition runCompleteWorkflow (workspacePath : string) (problemData : Js.value)
           (problemStatement : string) (s : Service M)
  : option (Js.completion Js.value) * Service M :=
  (* try *)
  let s := emit (Events.Log Events.info "Starting complete MCM workflow...") s in
  match initializeWorkspace workspacePath problemData s with
  | (Js.Throw error, s) => workflowFailed error s
  | (Js.Return _, s) =>
      match executePlanningPhase problemStatement None s with
      | (None, s) => (None, s)
      | (Some (Js.Throw error), s) => workflowFailed error s
      | (Some (Js.Return planResult), s) =>
          match member planResult "plan" with
          | Js.Throw error => workflowFailed error s
          | Js.Return plan =>
              match executeModelingPhase plan s with
              | (Js.Throw error, s) => workflowFailed error s
              | (Js.Return modelResult, s) =>
                  match executeWritingPhase s with
                  | (Js.Throw error, s) => workflowFailed error s
                  | (Js.Return writeResult, s) =>
                      let s := emit (Events.Log Events.success
                                       "Complete workflow finished!") s in
                      let result :=
                        Js.VObj [("plan", planResult); ("model", modelResult);
                                 ("paper", writeResult)] in
                      let s := emit (Events.Other "workflow-complete" result) s in
                      (Some (Js.Return result), s)
                  end
              end
          end
      end
  end.

(** [stop()]. *)
Definition stop (s : Service M) : Service M :=
  let s := set_isRunning false s in
  emit (Events.Log Events.warning "Stopping execution...") s.

End Facade.

End Workflow.

(** Orchestrators for the examples; their state counts the calls made. *)
Module WorkflowSamples.

(** The first planning call times out, the later ones return a plan. *)
Definition flaky_planning (problemStatement : string) (m : nat)
  : option (Js.completion Js.value) * nat :=
  (if Nat.eqb m 1 then None
   else Some (Js.Return (Js.VObj [("plan", Js.VStr ("plan for " +:+ problemStatement))])),
   S m).

Definition flaky_orchestrator : AgentService.Orchestrator nat :=
  AgentService.mkOrchestrator nat
    flaky_planning
    (fun plan m => (Js.Return (Js.VObj [("model", plan)]), S m))
    (fun m => (Js.Return (Js.VObj [("paper", Js.VStr "paper.tex")]), S m))
    (fun m => [Events.Other "validation-update" (Js.VObj [])]).

Definition good_start : Workflow.Starter nat :=
  Workflow.mkStarter nat (Js.Return 0%nat)
    (fun workspacePath problemData m =>
       (Js.Return (Workflow.mkInitialized "initialized"
                     (Js.VObj [("path", Js.VStr workspacePath)]) "planning"),
        S m)).

Definition bad_start : Workflow.Starter nat :=
  Workflow.mkStarter nat (Js.Return 0%nat)
    (fun workspacePath problemData m =>
       (Js.Throw (Js.Error ("EACCES: permission denied, mkdir '"
                              +:+ workspacePath +:+ "'")),
        S m)).

End WorkflowSamples.

(* ===================================================================== *)
(** ** Arrays of strings *)
(* ===================================================================== *)

Module JsArray.

(** [array.join(sep)]. *)
Fixpoint join (sep : string) (l : list string) : string :=
  match l with
  | [] => ""
  | x :: rest =>
      match rest with
      | [] => x
      | _ :: _ => x +:+ sep +:+ join sep rest
      end
  end.

End JsArray.

(* ===================================================================== *)
(** ** agents/master-agent.js: the other phases and the code extractor *)
(* ===================================================================== *)

Module MasterPhases.
Import MasterAgent.

(** *** _extractCodeFromMessage *)

(** [message.match(/OPEN([\s\S]*?)```/)] for a literal [OPEN], the group.
    The match starts at the first [OPEN]: when no fence follows it, none
    follows a later one. The group is lazy and ends at the first fence
    after [OPEN]. *)
Definition fencedBlock (opening message : string) : option string :=
  match Text.indexOf opening message with
  | None => None
  | Some i =>
      let after := Text.drop (i + String.length opening) message in
      match Text.indexOf fence after with
      | Some j => Some (Text.take j after)
      | None => None
      end
  end.

(** The three patterns, in order of preference. *)
Definition patterns : list string :=
  [fence +:+ "python" +:+ newline; fence +:+ "py" +:+ newline; fence +:+ newline].

(** The loop over the patterns: the first group that is not blank. *)
Fixpoint firstCode (patterns : list string) (message : string) : option string :=
  match patterns with
  | [] => None
  | opening :: rest =>
      match fencedBlock opening message with
      | Some code =>
          if negb (String.eqb code "")
             && (0 <? String.length (Text.trim code))%nat
          then Some code
          else firstCode rest message
      | None => firstCode rest message
      end
  end.

(** [_extractCodeFromMessage(message)]; [None] is [null]. *)
Definition _extractCodeFromMessage (message : string) : option string :=
  if String.eqb message "" then None else firstCode patterns message.

(** *** The requests of the planning and implementation phases *)

Record PlanData := mkPlanData {
  pd_ragAnalysis : string;
  pd_parse : string;
  pd_research : string;
  pd_plan : string;
  pd_timestamp : string
}.

Definition parsePrompt (problemStatement ragSummary : string) : string :=
  JsArray.join MasterAgent.newline
    ["IMPORTANT: The following is the ACTUAL MCM problem statement. Parse this problem and extract:";
     "1. Problem type";
     "2. Key requirements";
     "3. Deliverables";
     "4. Key concepts and challenges";
     "";
     "THE ACTUAL PROBLEM STATEMENT:";
     "=============================";
     problemStatement;
     "=============================";
     "";
     "Context from similar solutions:";
     ragSummary;
     "";
     "Provide a detailed analysis of THIS SPECIFIC PROBLEM above."].

Definition researchPrompt (problemStatement parseMessage : string) (techniques : list string) : string :=
  JsArray.join MasterAgent.newline
    ["ACTUAL PROBLEM CONTEXT:";
     problemStatement;
     "";
     "PARSED ANALYSIS:";
     parseMessage;
     "";
     "Based on THIS SPECIFIC PROBLEM above, find:";
     "1. Relevant academic papers";
     "2. Similar MCM solutions";
     "3. Applicable mathematical techniques";
     "";
     "Suggested techniques from analysis:";
     JsArray.join ", " techniques].

Definition planPrompt (problemStatement ragSummary researchMessage : string) : string :=
  JsArray.join MasterAgent.newline
    ["Based on the research findings, propose a detailed approach for THIS SPECIFIC PROBLEM:";
     "";
     "PROBLEM STATEMENT:";
     problemStatement;
     "";
     "RAG Analysis:";
     ragSummary;
     "";
     "Research:";
     researchMessage;
     "";
     "Propose a detailed plan that includes:";
     "1. Mathematical model type (specific to this problem)";
     "2. Implementation strategy";
     "3. Validation approach";
     "4. Potential challenges";
     "5. Data requirements"].

Definition _formatPlanDocument (planData : PlanData) : string :=
  JsArray.join MasterAgent.newline
    ["# AutoMCM Planning Phase Results";
     "";
     "**Generated**: " +:+ pd_timestamp planData;
     "**Version**: 1.0";
     "**Status**: Awaiting Approval";
     "";
     "---";
     "";
     "## 1. RAG Analysis";
     "";
     pd_ragAnalysis planData;
     "";
     "---";
     "";
     "## 2. Problem Parsing";
     "";
     pd_parse planData;
     "";
     "---";
     "";
     "## 3. Research Findings";
     "";
     pd_research planData;
     "";
     "---";
     "";
     "## 4. Proposed Approach";
     "";
     pd_plan planData;
     "";
     "---";
     "";
     "## Approval Checklist";
     "";
     "- [ ] Problem understanding is accurate";
     "- [ ] Research findings are relevant";
     "- [ ] Proposed approach is feasible";
     "- [ ] All deliverables are addressed";
     "- [ ] Timeline and resources are reasonable";
     "";
     "**Next Step**: Approve to proceed to execution phase";
     ""].

Definition implementPrompt (approvedPlan : string) : string :=
  JsArray.join MasterAgent.newline
    ["Implement this approved plan:";
     approvedPlan;
     "";
     "Create:";
     "1. Python code for the model";
     "2. Tests and validation";
     "3. Visualizations"].

Definition draftPrompt (modelMessage : string) : string :=
  JsArray.join MasterAgent.newline
    ["Write the paper based on:";
     "";
     "Model: " +:+ modelMessage;
     "";
     "Create LaTeX sections following AUTOMCM.md standards."].

(** *** executePlanningPhase *)

(** What [analyzeProblemWithRAG] gives that the phase uses:
    [summary] and [analysis.techniques]. *)
Record RagAnalysis := mkRagAnalysis {
  summary : string;
  techniques : list string
}.

(** What the phase takes from its surroundings, in the order of use. *)
Record PlanningEnv := mkPlanningEnv {
  p_rag : Js.completion RagAnalysis;      (* analyzeProblemWithRAG(...) *)
  p_parseReply : Js.completion BaseAgent.Response;
  p_now : Z;                              (* clock at the spawn *)
  p_researchReply : Js.completion BaseAgent.Response;
  p_planReply : Js.completion BaseAgent.Response;
  p_timestamp : string;                   (* toISOString() in the document *)
  p_metaTimestamp : string;               (* toISOString() in the metadata *)
  p_saveEnv : ArtifactStore.Env
}.

Definition set_self (a : BaseAgent.Agent) (m : Master) : Master :=
  mkMaster (phase m) (clones m) (heap m) (nextAddr m) a (workspacePath m)
           (files m) (artifactStore m).

(** [this.sendMessage(...)] of the orchestrator itself. *)
Definition self_sendMessage (userMessage : string)
           (reply : Js.completion BaseAgent.Response) (m : Master)
  : Js.completion BaseAgent.Response * Master :=
  let '(r, a) := BaseAgent.sendMessage userMessage reply (self m) in
  (r, set_self a m).

Section Methods.
Context `{Runtime}.

(** [if (this.artifactStore) await this.artifactStore.saveArtifact({type:
    'plan', name: 'planning-phase-result.md', ...})], where the file can
    be written. *)
Definition savePlanDocument (env : PlanningEnv) (planDocument : string)
           (m : Master) : Master :=
  match artifactStore m with
  | Some st =>
      let '(_, st) :=
        ArtifactStore.saveArtifact path_join (p_saveEnv env)
          (ArtifactStore.mkSaveArg "planning-phase-result.md" "plan"
             planDocument None None
             (Some (Js.VObj [("phase", Js.VStr "planning");
                             ("version", Js.VStr "1.0");
                             ("timestamp", Js.VStr (p_metaTimestamp env))])))
          st in
      set_artifactStore (Some st) m
  | None => m
  end.

(** [executePlanningPhase(problemStatement)]. The [catch] of the body
    only logs and throws the error again. *)
Definition executePlanningPhase (env : PlanningEnv) (problemStatement : string)
           (m : Master) : Js.completion Js.value * Master :=
  let m := set_phase "planning" m in
  match p_rag env with
  | Js.Throw e => (Js.Throw e, m)
  | Js.Return ragAnalysis =>
      match self_sendMessage (parsePrompt problemStatement (summary ragAnalysis))
                             (p_parseReply env) m with
      | (Js.Throw e, m) => (Js.Throw e, m)
      | (Js.Return parseResult, m) =>
          match spawnClone (p_now env) "researcher"
                           "Find relevant papers and approaches" m with
          | (Js.Throw e, m) => (Js.Throw e, m)
          | (Js.Return researcher, m) =>
              match clone_sendMessage researcher
                      (researchPrompt problemStatement
                         (BaseAgent.message parseResult) (techniques ragAnalysis))
                      (p_researchReply env) m with
              | (Js.Throw e, m) => (Js.Throw e, m)
              | (Js.Return researchResult, m) =>
                  match self_sendMessage
                          (planPrompt problemStatement (summary ragAnalysis)
                             (BaseAgent.message researchResult))
                          (p_planReply env) m with
                  | (Js.Throw e, m) => (Js.Throw e, m)
                  | (Js.Return planResult, m) =>
                      let planDocument :=
                        _formatPlanDocument
                          (mkPlanData (summary ragAnalysis)
                             (BaseAgent.message parseResult)
                             (BaseAgent.message researchResult)
                             (BaseAgent.message planResult)
                             (p_timestamp env)) in
                      let m := savePlanDocument env planDocument m in
                      (Js.Return
                         (Js.VObj
                            [("ragAnalysis", Js.VStr (summary ragAnalysis));
                             ("parse", Js.VStr (BaseAgent.message parseResult));
                             ("research", Js.VStr (BaseAgent.message researchResult));
                             ("plan", Js.VStr (BaseAgent.message planResult))]),
                       m)
                  end
              end
          end
      end
  end.

(** [executeImplementationPhase(approvedPlan)], for a plan that is a
    string; [now1] and [now2] are the clock readings at the two spawns. *)
Definition executeImplementationPhase (now1 now2 : Z)
           (modelReply paperReply : Js.completion BaseAgent.Response)
           (approvedPlan : string) (m : Master)
  : Js.completion Js.value * Master :=
  let m := set_phase "execution" m in
  match spawnClone now1 "modeler" "Implement mathematical model" m with
  | (Js.Throw e, m) => (Js.Throw e, m)
  | (Js.Return modelerClone, m) =>
      match spawnClone now2 "writer" "Write paper sections" m with
      | (Js.Throw e, m) => (Js.Throw e, m)
      | (Js.Return writerClone, m) =>
          match clone_sendMessage modelerClone (implementPrompt approvedPlan)
                                  modelReply m with
          | (Js.Throw e, m) => (Js.Throw e, m)
          | (Js.Return modelResult, m) =>
              match clone_sendMessage writerClone
                      (draftPrompt (BaseAgent.message modelResult))
                      paperReply m with
              | (Js.Throw e, m) => (Js.Throw e, m)
              | (Js.Return paperResult, m) =>
                  (Js.Return
                     (Js.VObj [("model", Js.VStr (BaseAgent.message modelResult));
                               ("paper", Js.VStr (BaseAgent.message paperResult))]),
                   m)
              end
          end
      end
  end.

(** [getPhase()]. *)
Definition getPhase (m : Master) : string := phase m.

End Methods.

End MasterPhases.

(** A planning run against a workspace with an empty store. *)
Module PhaseSamples.

Definition planning_env : MasterPhases.PlanningEnv :=
  MasterPhases.mkPlanningEnv
    (Js.Return (MasterPhases.mkRagAnalysis "Optimization problem"
                  ["Linear Programming"; "Dynamic Programming"]))
    (Js.Return (Claims.sample_response "parsed"))
    1700000000000
    (Js.Return (Claims.sample_response "three papers"))
    (Js.Return (Claims.sample_response "the plan"))
    "2023-11-14T22:13:20.000Z"
    "2023-11-14T22:13:20.001Z"
    (ArtifactStore.mkEnv "artifact_1700000000000_k3x9q" "2023-11-14T22:13:20.002Z").

Definition stored_master : MasterAgent.Master :=
  MasterAgent.mkMaster "idle" [] ∅ 0 Claims.sample_self (Some "/ws") ∅
    (Some Claims.empty_store).

Definition reply_with_code : string :=
  "Here is the model:" +:+ MasterAgent.newline +:+
  MasterAgent.fence +:+ "python" +:+ MasterAgent.newline +:+
  "print(1)" +:+ MasterAgent.newline +:+
  MasterAgent.fence +:+ MasterAgent.newline +:+ "Run it.".

End PhaseSamples.

(* ===================================================================== *)
(** ** core/problem-analyzer.js *)
(* ===================================================================== *)

(** A [Set] of strings, as the list of its elements in insertion order. *)
Module JsSet.

Definition has (x : string) (s : list string) : bool :=
  existsb (String.eqb x) s.

Definition add (x : string) (s : list string) : list string :=
  if has x s then s else s ++ [x].

Definition addAll (xs : list string) (s : list string) : list string :=
  foldl (fun s x => add x s) s xs.

End JsSet.

Module ProblemAnalyzer.

(** [this.keywordMap], as the constructor sets it; no method changes
    it. An object literal lists its string keys in the order written. *)
Definition keywordMap : list (string * list string) :=
  [("optimization",
    ["optimize"; "maximize"; "minimize"; "best"; "optimal"; "efficient"; "improve"]);
   ("differential_equations",
    ["change over time"; "rate of"; "dynamics"; "growth"; "decay"; "population";
     "spread"]);
   ("statistical",
    ["predict"; "forecast"; "estimate"; "probability"; "likelihood"; "trend";
     "correlation"]);
   ("network",
    ["network"; "graph"; "route"; "path"; "flow"; "connectivity"; "shortest"]);
   ("simulation",
    ["simulate"; "model behavior"; "scenario"; "what-if"; "Monte Carlo"; "agent"]);
   ("machine_learning",
    ["learn"; "pattern"; "classify"; "cluster"; "neural"; "predict from data"])].

Definition domainKeywords : list string :=
  ["climate"; "energy"; "health"; "economics"; "traffic"; "population";
   "environment"; "sustainability"; "finance"; "ecology"; "urban"; "agriculture"].

(** [extractKeywords(text)]: the domain words found, then the category
    of every action word found, each once, in the order first met. *)
Definition extractKeywords (text : string) : list string :=
  let keywords :=
    foldl (fun keywords keyword =>
             if Text.includes keyword text then JsSet.add keyword keywords
             else keywords)
          [] domainKeywords in
  foldl (fun keywords '(category, words) =>
           foldl (fun keywords word =>
                    if Text.includes word text then JsSet.add category keywords
                    else keywords)
                 keywords words)
        keywords keywordMap.

(** The inner loop of [identifyModelTypes]: the keywords of one type
    that occur in the text, counted. *)
Definition score (keywords : list string) (text : string) : nat :=
  foldl (fun score keyword =>
           if Text.includes keyword text then S score else score)
        0%nat keywords.

(** [scores[modelType] = score] on a plain object: a new key goes to the
    end, an old one keeps its place. *)
Definition setProp (k : string) (v : nat) (o : list (string * nat))
  : list (string * nat) :=
  if existsb (fun p => String.eqb p.1 k) o
  then map (fun p => if String.eqb p.1 k then (k, v) else p) o
  else o ++ [(k, v)].

Definition scores (text : string) : list (string * nat) :=
  foldl (fun scores '(modelType, keywords) =>
           let score := score keywords text in
           if (0 <? score)%nat then setProp modelType score scores else scores)
        [] keywordMap.

(** [entries.sort((a, b) => b[1] - a[1])]: the sort is stable, so the
    result is the one of inserting each entry, from the last to the
    first, before the first entry that does not score more. *)
Fixpoint insert (x : string * nat) (l : list (string * nat))
  : list (string * nat) :=
  match l with
  | [] => [x]
  | y :: rest => if (y.2 <=? x.2)%nat then x :: l else y :: insert x rest
  end.

Definition sortByScore (l : list (string * nat)) : list (string * nat) :=
  foldr insert [] l.

(** [identifyModelTypes(text)]. *)
Definition identifyModelTypes (text : string) : list string :=
  fst <$> take 3 (sortByScore (scores text)).

Definition techniqueMap : list (string * list string) :=
  [("optimization",
    ["linear programming"; "genetic algorithms"; "gradient descent";
     "dynamic programming"]);
   ("differential_equations",
    ["Runge-Kutta methods"; "Euler method"; "system dynamics";
     "bifurcation analysis"]);
   ("statistical",
    ["regression analysis"; "ARIMA"; "hypothesis testing";
     "Monte Carlo simulation"]);
   ("network",
    ["Dijkstra algorithm"; "maximum flow"; "graph theory"; "network analysis"]);
   ("simulation",
    ["agent-based modeling"; "discrete event simulation"; "system dynamics";
     "Monte Carlo"]);
   ("machine_learning",
    ["neural networks"; "random forests"; "SVM"; "clustering (k-means)"])].

(** The properties a plain object inherits from [Object.prototype]:
    [techniqueMap[type]] is truthy for them and has no [forEach]. *)
Definition inherited : list string :=
  ["constructor"; "__defineGetter__"; "__defineSetter__"; "hasOwnProperty";
   "__lookupGetter__"; "__lookupSetter__"; "isPrototypeOf";
   "propertyIsEnumerable"; "toString"; "valueOf"; "__proto__";
   "toLocaleString"].

Fixpoint lookup (k : string) (o : list (string * list string))
  : option (list string) :=
  match o with
  | [] => None
  | (k', v) :: rest => if String.eqb k' k then Some v else lookup k rest
  end.

(** The loop over [modelTypes] of [suggestTechniques]. *)
Fixpoint typeTechniques (modelTypes : list string) (techniques : list string)
  : Js.completion (list string) :=
  match modelTypes with
  | [] => Js.Return techniques
  | type :: rest =>
      match lookup type techniqueMap with
      | Some techs => typeTechniques rest (JsSet.addAll techs techniques)
      | None =>
          if JsSet.has type inherited
          then Js.Throw (Js.TypeError "techniqueMap[type].forEach is not a function")
          else typeTechniques rest techniques
      end
  end.

(** The additions by context, after the loop. *)
Definition contextTechniques (text : string) (techniques : list string)
  : list string :=
  let techniques :=
    if Text.includes "time series" text || Text.includes "forecast" text
    then JsSet.add "exponential smoothing" (JsSet.add "ARIMA" techniques)
    else techniques in
  let techniques :=
    if Text.includes "spatial" text || Text.includes "geographic" text
    then JsSet.add "GIS methods" (JsSet.add "spatial analysis" techniques)
    else techniques in
  if Text.includes "uncertainty" text || Text.includes "risk" text
  then JsSet.add "uncertainty quantification"
         (JsSet.add "sensitivity analysis" techniques)
  else techniques.

(** [suggestTechniques(text, modelTypes)], for an array of strings. *)
Definition suggestTechniques (text : string) (modelTypes : list string)
  : Js.completion (list string) :=
  match typeTechniques modelTypes [] with
  | Js.Throw e => Js.Throw e
  | Js.Return techniques => Js.Return (take 5 (contextTechniques text techniques))
  end.

Definition pushIf (b : bool) (x : string) (l : list string) : list string :=
  if b then l ++ [x] else l.

(** [identifyDeliverables(text)]. *)
Definition identifyDeliverables (text : string) : list string :=
  let deliverables := [] in
  let deliverables :=
    pushIf (Text.includes "model" text || Text.includes "formulation" text)
      "Mathematical model with clear assumptions" deliverables in
  let deliverables :=
    pushIf (Text.includes "predict" text || Text.includes "forecast" text)
      "Prediction results with confidence intervals" deliverables in
  let deliverables :=
    pushIf (Text.includes "sensitivity" text || Text.includes "robust" text)
      ("Sensitivity analysis (" +:+
       String (Ascii.ascii_of_nat 177) "20% parameter variation)") deliverables in
  let deliverables :=
    pushIf (Text.includes "visualiz" text || Text.includes "plot" text ||
            Text.includes "graph" text)
      "Visualizations (time series, heatmaps, etc.)" deliverables in
  let deliverables :=
    pushIf (Text.includes "recommend" text || Text.includes "suggest" text ||
            Text.includes "policy" text)
      "Recommendations and policy implications" deliverables in
  if Nat.eqb (length deliverables) 0 then
    deliverables ++
    ["Mathematical model"; "Validation and testing";
     "Results and visualizations"; "Summary sheet (1 page)"]
  else deliverables.

(** [identifyDataNeeds(text)]. *)
Definition identifyDataNeeds (text : string) : list string :=
  let dataNeeds := [] in
  let dataNeeds :=
    pushIf (Text.includes "climate" text || Text.includes "weather" text)
      "Climate data (NOAA, NASA)" dataNeeds in
  let dataNeeds :=
    pushIf (Text.includes "population" text || Text.includes "demographic" text)
      "Population data (Census, World Bank)" dataNeeds in
  let dataNeeds :=
    pushIf (Text.includes "economic" text || Text.includes "finance" text ||
            Text.includes "market" text)
      "Economic data (Federal Reserve, World Bank)" dataNeeds in
  let dataNeeds :=
    pushIf (Text.includes "health" text || Text.includes "disease" text ||
            Text.includes "epidemic" text)
      "Health data (WHO, CDC)" dataNeeds in
  let dataNeeds :=
    pushIf (Text.includes "traffic" text || Text.includes "transport" text)
      "Transportation data (DOT, local transit authorities)" dataNeeds in
  let dataNeeds :=
    pushIf (Text.includes "energy" text) "Energy data (EIA, IEA)" dataNeeds in
  if Nat.eqb (length dataNeeds) 0 then
    dataNeeds ++ ["Domain-specific datasets"; "Historical data for validation"]
  else dataNeeds.

(** [assessComplexity(text, modelTypes)], for an array of strings. *)
Definition assessComplexity (text : string) (modelTypes : list string) : string :=
  let complexity := "medium" in
  let complexity :=
    if (2 <? length modelTypes)%nat then "high" else complexity in
  let complexity :=
    if Text.includes "multi-objective" text || Text.includes "trade-off" text
    then "high" else complexity in
  let complexity :=
    if Text.includes "stochastic" text || Text.includes "uncertainty" text ||
       Text.includes "random" text
    then "high" else complexity in
  let complexity :=
    if Text.includes "nonlinear" text || Text.includes "chaotic" text
    then "high" else complexity in
  let complexity :=
    match modelTypes with
    | [first] =>
        if String.eqb first "optimization" || String.eqb first "statistical"
        then "medium" else complexity
    | _ => complexity
    end in
  if Text.includes "simple" text || Text.includes "basic" text ||
     Text.includes "introductory" text
  then "low" else complexity.

(** [analyzeProblem(problemText)]. The database and the template
    library answer through [findSimilarSolutions] and
    [suggestArchetypes]. *)
Section Analyze.
Variables Solution Archetype : Type.
Variable findSimilarSolutions : list string -> list string -> list Solution.
Variable suggestArchetypes : list string -> list Archetype.

Record Analysis := mkAnalysis {
  keywords : list string;
  modelTypes : list string;
  techniques : list string;
  archetypes : list Archetype;
  historicalSolutions : list Solution;
  deliverables : list string;
  dataNeeds : list string;
  complexity : string
}.

Definition analyzeProblem (problemText : string) : Js.completion Analysis :=
  let text := Providers.toLowerCase problemText in
  let keywords := extractKeywords text in
  let modelTypes := identifyModelTypes text in
  match suggestTechniques text modelTypes with
  | Js.Throw e => Js.Throw e
  | Js.Return techniques =>
      let historicalSolutions := findSimilarSolutions keywords modelTypes in
      let archetypes := suggestArchetypes modelTypes in
      Js.Return
        (mkAnalysis keywords modelTypes techniques archetypes
           (take 5 historicalSolutions)
           (identifyDeliverables text) (identifyDataNeeds text)
           (assessComplexity text modelTypes))
  end.

End Analyze.

(** The score [identifyModelTypes] gives a type. *)
Definition scoreOf (text type : string) : nat :=
  match lookup type keywordMap with
  | Some keywords => score keywords text
  | None => 0%nat
  end.

End ProblemAnalyzer.

(* ===================================================================== *)
(** ** core/config.js: the substitution of environment variables *)
(* ===================================================================== *)

Module ConfigLoad.

(** The class [\w]. *)
Definition is_word (c : ascii) : bool :=
  let n := Text.code c in
  ((48 <=? n) && (n <=? 57) || (65 <=? n) && (n <=? 90) ||
   (97 <=? n) && (n <=? 122) || (n =? 95))%N.

(** The longest run of [\w] at the start of a string, and what follows. *)
Fixpoint word_run (s : string) : string * string :=
  match s with
  | String c rest =>
      if is_word c then
        let '(w, after) := word_run rest in (String c w, after)
      else (EmptyString, s)
  | EmptyString => (EmptyString, EmptyString)
  end.

(** A match of [\$\{(\w+)\}] at the start of the string: the group. The
    run of [\w] must be the longest one, since the brace that ends the
    match is not in [\w]. *)
Definition placeholder_here (s : string) : option string :=
  if String.prefix "${" s then
    let '(w, after) := word_run (Text.drop 2 s) in
    if negb (String.eqb w "") && String.prefix "}" after then Some w else None
  else None.

(** [s.match(/\$\{(\w+)\}/)]: the group of the leftmost match. *)
Fixpoint placeholder (s : string) : option string :=
  match placeholder_here s with
  | Some w => Some w
  | None =>
      match s with
      | String _ rest => placeholder rest
      | EmptyString => None
      end
  end.

(** Is the name one that every object, [process.env] and a mapping of
    the configuration included, inherits from [Object.prototype]? *)
Definition is_inherited (name : string) : bool :=
  JsSet.has name ProblemAnalyzer.inherited.

(** What [process.env[envVar]] gives. *)
Inductive envValue :=
| EnvString (value : string)   (* the variable, when it is set *)
| EnvInherited                 (* else the function or object inherited
                                  under the name: truthy, and no string *)
| EnvUndefined.                (* else [undefined] *)

Section Substitute.
(** The variables of the environment: the own properties of
    [process.env], each a string. *)
Variable env : string -> option string.

Definition lookupEnv (envVar : string) : envValue :=
  match env envVar with
  | Some value => EnvString value
  | None => if is_inherited envVar then EnvInherited else EnvUndefined
  end.

(** What the loop stores for a property whose value is the string [s]:
    [process.env[envVar] || obj[key]] when the pattern matches. [None]:
    what is stored is the inherited function or object, which is no
    string and no [Js.value]. *)
Definition substituted (s : string) : option string :=
  match placeholder s with
  | Some envVar =>
      match lookupEnv envVar with
      | EnvString value => Some (if String.eqb value "" then s else value)
      | EnvInherited => None
      | EnvUndefined => Some s
      end
  | None => Some s
  end.

(** The loop [for (const key in obj)] over the properties [l], given
    what the recursive call makes of an object: a string is replaced by
    what [substituted] gives, an object by what the call gives, and
    every other value stays. *)
Definition eachKey (recur : Js.value -> option Js.value)
  : list (string * Js.value) -> option (list (string * Js.value)) :=
  fix each (l : list (string * Js.value)) :=
    match l with
    | [] => Some []
    | (key, v) :: rest =>
        let stored :=
          match v with
          | Js.VStr s =>
              match substituted s with
              | Some s' => Some (Js.VStr s')
              | None => None
              end
          | Js.VObj _ => recur v
          | _ => Some v
          end in
        match stored, each rest with
        | Some v', Some rest' => Some ((key, v') :: rest')
        | _, _ => None
        end
    end.

(** [_substituteEnvVars(obj)]: the object after the loop, for a
    configuration of nested mappings and scalars; [None] when one of its
    strings is replaced by an inherited function or object. A value
    that is not an object has no property that the loop would change. *)
Fixpoint _substituteEnvVars (obj : Js.value) : option Js.value :=
  match obj with
  | Js.VObj fields =>
      match eachKey _substituteEnvVars fields with
      | Some fields' => Some (Js.VObj fields')
      | None => None
      end
  | _ => Some obj
  end.

(** What becomes of the value of a property. *)
Definition property (v : Js.value) : option Js.value :=
  match v with
  | Js.VStr s =>
      match substituted s with Some s' => Some (Js.VStr s') | None => None end
  | _ => _substituteEnvVars v
  end.

End Substitute.

End ConfigLoad.

Module ConfigSamples.

Definition api_host (name : string) : option string :=
  if String.eqb name "API_HOST" then Some "example.org" else None.

Definition endpoints : Js.value :=
  Js.VObj [("llm", Js.VObj [("base_url", Js.VStr "https://${API_HOST}/v1");
                            ("model", Js.VStr "m1")])].

End ConfigSamples.

(* ===================================================================== *)
(** * Properties *)
(* ===================================================================== *)

(** ** Arrays *)

Lemma findIndex_from_list_find {A} (p : A -> bool) (l : list A) (i : Z) :
  Js.findIndex_from p l i =
    match list_find (fun x => p x = true) l with
    | Some (k, _) => i + Z.of_nat k
    | None => -1
    end.
Proof.
  revert i. induction l as [|x l IH]; intros i; simpl; [reflexivity|].
  destruct (p x) eqn:Hx.
  - rewrite decide_True by reflexivity. simpl. lia.
  - rewrite decide_False by congruence.
    rewrite IH. destruct (list_find _ l) as [[k y]|]; simpl; lia.
Qed.

Lemma findIndex_list_find {A} (p : A -> bool) (l : list A) :
  Js.findIndex p l =
    match list_find (fun x => p x = true) l with
    | Some (k, _) => Z.of_nat k
    | None => -1
    end.
Proof.
  unfold Js.findIndex. rewrite findIndex_from_list_find.
  destruct (list_find _ l) as [[k y]|]; reflexivity.
Qed.

(** ** The artifact store *)

Section ArtifactStoreFacts.
Import ArtifactStore.
Variable path_join : string -> string -> string.

Lemma register_cases env arg st :
  match stored (r_path arg) (artifacts st) with
  | Some (i, old) =>
      let e := set_id (id old) (set_version (version old + 1)
                 (mkArtifact (generatedId env) (r_name arg) (r_type arg) (r_path arg)
                    (default "" (r_description arg))
                    (default "unknown" (r_generatedBy arg))
                    (default (Js.VObj []) (r_metadata arg)) (isoNow env) 1)) in
      register env arg st =
        (e, _saveIndex (set_artifacts (<[i := e]> (artifacts st)) st))
  | None =>
      let e := mkArtifact (generatedId env) (r_name arg) (r_type arg) (r_path arg)
                    (default "" (r_description arg))
                    (default "unknown" (r_generatedBy arg))
                    (default (Js.VObj []) (r_metadata arg)) (isoNow env) 1 in
      register env arg st =
        (e, _saveIndex (set_artifacts (artifacts st ++ [e]) st))
  end.
Proof.
  unfold register, stored. rewrite findIndex_list_find.
  destruct (list_find _ (artifacts st)) as [[i old]|] eqn:Hf.
  - apply list_find_Some in Hf as (Hi & _ & _).
    replace (0 <=? Z.of_nat i)%Z with true by (symmetry; apply Z.leb_le; lia).
    rewrite Nat2Z.id, Hi. reflexivity.
  - reflexivity.
Qed.

Lemma stored_insert p l i old e :
  stored p l = Some (i, old) -> path e = p ->
  stored p (<[i := e]> l) = Some (i, e).
Proof.
  unfold stored. intros Hf He.
  apply list_find_Some in Hf as (Hi & Hp & Hlt).
  apply list_find_Some. split; [|split].
  - apply list_lookup_insert_eq. eapply lookup_lt_Some; eauto.
  - rewrite He. apply String.eqb_refl.
  - intros j y Hj Hji. rewrite list_lookup_insert_ne in Hj by lia. eauto.
Qed.

Lemma stored_append p l e :
  stored p l = None -> path e = p ->
  stored p (l ++ [e]) = Some (length l, e).
Proof.
  unfold stored. intros Hf He.
  assert (Hall : Forall (fun a => ~ String.eqb (path a) p = true) l)
    by (eapply list_find_None; exact Hf).
  apply list_find_Some. split; [|split].
  - rewrite lookup_app_r by lia. replace (length l - length l)%nat with 0%nat by lia.
    reflexivity.
  - rewrite He. apply String.eqb_refl.
  - intros j y Hj Hlt. rewrite lookup_app_l in Hj by lia.
    eapply Forall_lookup_1 in Hall; eauto.
Qed.

(** One [saveArtifact]: what is returned, and what is stored afterwards. *)
Lemma saveArtifact_step env arg st e st' :
  saveArtifact path_join env arg st = (e, st') ->
  let p := path_join (artifactsPath st) (s_name arg) in
  artifactsPath st' = artifactsPath st /\
  path e = p /\
  match stored p (artifacts st) with
  | Some (i, old) =>
      version e = version old + 1 /\ id e = id old /\
      artifacts st' = <[i := e]> (artifacts st) /\
      stored p (artifacts st') = Some (i, e)
  | None =>
      version e = 1 /\ id e = generatedId env /\
      artifacts st' = artifacts st ++ [e] /\
      stored p (artifacts st') = Some (length (artifacts st), e)
  end.
Proof.
  intros H p. unfold saveArtifact in H. fold p in H.
  destruct (register _ _ _) as [result st0] eqn:Hreg.
  injection H as -> <-.
  pose proof (register_cases env
    (mkRegisterArg (s_name arg) (s_type arg) p
       (Some (default "" (s_description arg)))
       (Some (default "unknown" (s_generatedBy arg)))
       (Some (default (Js.VObj []) (s_metadata arg))))
    (writeFile p (Text (s_content arg)) st)) as Hr.
  simpl r_path in Hr. change (artifacts (writeFile _ _ st)) with (artifacts st) in Hr.
  assert (Hemit : forall ev s,
             artifactsPath (if eventEmitter s then emit ev s else s) = artifactsPath s /\
             artifacts (if eventEmitter s then emit ev s else s) = artifacts s)
    by (intros ev s; destruct (eventEmitter s); split; reflexivity).
  destruct (Hemit (Events.ArtifactCreated (s_type arg) (s_name arg) (metadata e)) st0)
    as [-> ->].
  destruct (stored p (artifacts st)) as [[i old]|] eqn:Hs; simpl in Hr;
    rewrite Hr in Hreg; injection Hreg as <- <-;
    (split; [reflexivity|]); (split; [reflexivity|]);
    (split; [reflexivity|]); (split; [reflexivity|]); simpl;
    (split; [reflexivity|]).
  - eapply stored_insert; eauto.
  - apply stored_append; auto.
Qed.

Lemma saveAll_cons env arg rest st :
  saveAll path_join ((env, arg) :: rest) st =
    (let r := saveArtifact path_join env arg st in
     (r.1 :: (saveAll path_join rest r.2).1, (saveAll path_join rest r.2).2)).
Proof.
  simpl. destruct (saveArtifact _ _ _ _) as [a st1]. simpl.
  destruct (saveAll _ _ _) as [l st2]. reflexivity.
Qed.

(** C1. Versioning monotonicity of the artifact store. [register] looks
    the storage path up in the index: when a record is stored under it,
    the record is replaced in place by one whose version is the previous
    version plus one and whose id is the previous id; otherwise a record
    with version 1 and the generated id is appended. Hence the entries
    returned by a run of [saveArtifact] calls that reuse one name carry
    versions that grow by exactly one per call, under one id. *)
Theorem C1_versioning_monotonicity :
  (forall env arg st,
      let e := (register env arg st).1 in
      let st' := (register env arg st).2 in
      match stored (r_path arg) (artifacts st) with
      | Some (i, old) =>
          version e = version old + 1 /\ id e = id old /\
          artifacts st' = <[i := e]> (artifacts st)
      | None =>
          version e = 1 /\ id e = generatedId env /\
          artifacts st' = artifacts st ++ [e]
      end) /\
  (forall nm calls st,
      Forall (fun c => s_name c.2 = nm) calls ->
      forall k e,
        (saveAll path_join calls st).1 !! k = Some e ->
        match stored (path_join (artifactsPath st) nm) (artifacts st) with
        | Some (_, old) =>
            version e = version old + Z.of_nat k + 1 /\ id e = id old
        | None =>
            version e = Z.of_nat k + 1 /\
            exists c0, calls !! 0%nat = Some c0 /\ id e = generatedId c0.1
        end).
Proof.
  split.
  - intros env arg st. pose proof (register_cases env arg st) as Hr.
    destruct (stored _ _) as [[i old]|]; simpl in Hr; rewrite Hr; simpl; auto.
  - intros nm calls. induction calls as [|[env arg] rest IH]; intros st Hall k e Hk.
    + simpl in Hk. rewrite lookup_nil in Hk. discriminate.
    + apply Forall_cons in Hall as [Hnm Hall]. simpl in Hnm.
      rewrite saveAll_cons in Hk. simpl in Hk.
      destruct (saveArtifact path_join env arg st) as [a st1] eqn:Hsave.
      apply saveArtifact_step in Hsave. simpl in Hsave, Hk.
      rewrite Hnm in Hsave. destruct Hsave as (Hpath & Hpa & Hcase).
      destruct k as [|k].
      * simpl in Hk. injection Hk as <-.
        destruct (stored _ (artifacts st)) as [[i old]|].
        -- destruct Hcase as (Hv & Hi & _). split; [lia | exact Hi].
        -- destruct Hcase as (Hv & Hi & _). split; [lia|].
           exists (env, arg). split; [reflexivity | exact Hi].
      * simpl in Hk. specialize (IH st1 Hall k e Hk). rewrite Hpath in IH.
        destruct (stored _ (artifacts st)) as [[i old]|].
        -- destruct Hcase as (Hv & Hi & _ & Hst). rewrite Hst in IH.
           destruct IH as [IHv IHi]. split; [lia | congruence].
        -- destruct Hcase as (Hv & Hi & _ & Hst). rewrite Hst in IH.
           destruct IH as [IHv IHi]. split; [lia|].
           exists (env, arg). split; [reflexivity | simpl; congruence].
Qed.

End ArtifactStoreFacts.

(** "model.py" saved twice: the second entry has version 2 and the id of
    the first, the index holds one record, and the file holds the second
    content. *)
Lemma C1_versioning_monotonicity_witness :
  let out := ArtifactStore.saveAll Claims.sample_join Claims.model_py_saves
               Claims.empty_store in
  exists e,
    out.1 !! 1%nat = Some e /\
    ArtifactStore.version e = 2 /\
    ArtifactStore.id e = "artifact_1700000000000_k3x9q" /\
    ArtifactStore.getAll out.2 = [e] /\
    ArtifactStore.readArtifact Claims.sample_join (fun _ => "[]")
      "ENOENT: no such file or directory" "model.py" out.2
      = Js.Return "print(2)".
Proof.
  intros out.
  destruct (C1_versioning_monotonicity Claims.sample_join) as [_ Hrun].
  pose proof (Hrun "model.py" Claims.model_py_saves Claims.empty_store
                ltac:(repeat constructor) 1%nat _ eq_refl) as Hsecond.
  simpl in Hsecond. destruct Hsecond as (Hversion & c0 & Hc0 & Hid).
  injection Hc0 as <-.
  eexists. split; [reflexivity|].
  split; [exact Hversion|]. split; [exact Hid|].
  split; [reflexivity | vm_compute; reflexivity].
Defined.

(** ** The provider factory *)

Section ProviderFacts.
Import Providers.

Lemma eqb_false_of_ne (a b : string) : a <> b -> String.eqb a b = false.
Proof. intros H. apply String.eqb_neq. exact H. Qed.

(** C7. Provider resolution. The identifier is compared after
    lower-casing: "claude" and "anthropic" give the Claude client, "gpt"
    and "openai" the OpenAI client, "gemini" and "google" the Gemini
    client; any other identifier makes the factory throw the error
    "Unsupported LLM provider: <identifier>". *)
Theorem C7_provider_resolution (p : string) (pc : ProviderConfig) :
  provider pc = Js.VStr p ->
  let l := toLowerCase p in
  (l = "claude" \/ l = "anthropic" ->
     exists c, createProvider pc = Js.Return (mkProvider ClaudeProvider c)) /\
  (l = "gpt" \/ l = "openai" ->
     exists c, createProvider pc = Js.Return (mkProvider OpenAIProvider c)) /\
  (l = "gemini" \/ l = "google" ->
     exists c, createProvider pc = Js.Return (mkProvider GeminiProvider c)) /\
  (~ In l getSupportedProviders ->
     createProvider pc =
       Js.Throw (Js.Error ("Unsupported LLM provider: " +:+ p))).
Proof.
  intros Hp l. unfold createProvider. rewrite Hp. fold l.
  repeat split.
  - intros [-> | ->]; eexists; reflexivity.
  - intros [-> | ->]; eexists; reflexivity.
  - intros [-> | ->]; eexists; reflexivity.
  - intros Hnot. simpl in Hnot.
    rewrite !eqb_false_of_ne by (intros ->; apply Hnot; tauto).
    reflexivity.
Qed.

Lemma C7_provider_resolution_witness :
  createProvider
    (mkProviderConfig (Js.VStr "ClAuDe") (Js.VStr "key") Js.VUndefined
                      (Js.VStr "m") Js.VUndefined Js.VUndefined)
  = Js.Return (construct ClaudeProvider
      (mkConfig (Js.VStr "key") Js.VUndefined (Js.VStr "m")
                (Js.VNum (QArith_base.Qmake 8192 1))
                (Js.VNum (QArith_base.Qmake 7 10))))
  /\
  createProvider
    (mkProviderConfig (Js.VStr "Mistral") (Js.VStr "key") Js.VUndefined
                      (Js.VStr "m") Js.VUndefined Js.VUndefined)
  = Js.Throw (Js.Error "Unsupported LLM provider: Mistral").
Proof.
  split.
  - destruct (C7_provider_resolution "ClAuDe"
      (mkProviderConfig (Js.VStr "ClAuDe") (Js.VStr "key") Js.VUndefined
                        (Js.VStr "m") Js.VUndefined Js.VUndefined) eq_refl)
      as (H & _). destruct H as [c Hc]; [left; reflexivity|].
    rewrite Hc. vm_compute in Hc. injection Hc as <-. reflexivity.
  - destruct (C7_provider_resolution "Mistral"
      (mkProviderConfig (Js.VStr "Mistral") (Js.VStr "key") Js.VUndefined
                        (Js.VStr "m") Js.VUndefined Js.VUndefined) eq_refl)
      as (_ & _ & _ & H). apply H. vm_compute.
    intros [H0|[H0|[H0|[H0|[H0|[H0|[]]]]]]]; discriminate H0.
Defined.

End ProviderFacts.

(** ** The base agent *)

Section BaseAgentFacts.
Import BaseAgent.

(** C2, as stated, fails: an override that sets only the model is ignored
    as a whole, because the override is consulted only when it names a
    provider. *)
Lemma C2_override_precedence_counterexample :
  ~ Claims.override_precedence Claims.cfg_model_only "writer".
Proof.
  unfold Claims.override_precedence. intros H.
  specialize (H eq_refl). destruct H as (_ & _ & _ & Hm & _).
  vm_compute in Hm. discriminate Hm.
Qed.

(** C2 (amended). Override precedence. When the role has an override
    object whose [provider] is set, the descriptor handed to the factory
    takes [provider], [apiKey], [baseUrl] and [model] from the override
    where set and from the primary configuration otherwise, each
    independently, while [maxTokens] and [temperature] are always the
    primary's; when the role has no override, or one without a provider,
    the descriptor is the primary configuration. *)
Theorem C2_override_precedence (cfg : Js.value) (mode : string) :
  let o := taskOverride cfg mode in
  let p := primaryConfig cfg in
  let e := effectiveConfig cfg mode in
  (Js.truthy o = true /\ Js.truthy (Js.get o "provider") = true ->
     Providers.provider e = Js.get o "provider" /\
     Providers.apiKey e = Js.or (Js.get o "api_key") (Providers.apiKey p) /\
     Providers.baseUrl e = Js.or (Js.get o "base_url") (Providers.baseUrl p) /\
     Providers.model e = Js.or (Js.get o "model") (Providers.model p) /\
     Providers.maxTokens e = Providers.maxTokens p /\
     Providers.temperature e = Providers.temperature p) /\
  (Js.truthy o = false \/ Js.truthy (Js.get o "provider") = false -> e = p) /\
  _initializeProvider cfg mode = Providers.createProvider e.
Proof.
  intros o p e. unfold e, effectiveConfig. fold o. fold p.
  split; [|split].
  - intros [Ho Hp]. rewrite Ho, Hp. simpl.
    unfold Js.or at 1. rewrite Hp. repeat split.
  - intros [H | H]; rewrite H; [reflexivity|].
    rewrite andb_false_r. reflexivity.
  - reflexivity.
Qed.

Lemma C2_override_precedence_witness :
  let e := effectiveConfig Claims.cfg_provider_and_model "writer" in
  Providers.provider e = Js.VStr "openai" /\
  Providers.apiKey e = Js.VStr "primary-key" /\
  Providers.model e = Js.VStr "writer-model" /\
  Providers.maxTokens e = Js.VNum (QArith_base.Qmake 8192 1) /\
  effectiveConfig Claims.cfg_model_only "writer" =
    primaryConfig Claims.cfg_model_only.
Proof.
  destruct (C2_override_precedence Claims.cfg_provider_and_model "writer")
    as (H & _ & _).
  destruct (H (conj eq_refl eq_refl)) as (H1 & H2 & _ & H4 & H5 & _).
  destruct (C2_override_precedence Claims.cfg_model_only "writer")
    as (_ & H' & _).
  intros e. subst e. rewrite H1, H2, H4, H5.
  split; [reflexivity|]. split; [reflexivity|]. split; [reflexivity|].
  split; [reflexivity|]. apply H'. right. reflexivity.
Defined.

(** C9. [sendMessage] is not atomic on error. When the provider call
    throws, the same error is thrown again and the user message pushed
    before the call stays in the conversation history, which has grown by
    exactly one message; on success it grows by two (the user message and
    the assistant reply). *)
Theorem C9_sendMessage_not_atomic (userMessage : string) (a : Agent) :
  (forall error,
      let r := sendMessage userMessage (Js.Throw error) a in
      r.1 = Js.Throw error /\
      conversationHistory r.2 =
        conversationHistory a ++ [mkMessage "user" userMessage] /\
      length (conversationHistory r.2) = S (length (conversationHistory a))) /\
  (forall response,
      let r := sendMessage userMessage (Js.Return response) a in
      r.1 = Js.Return (mkResponse (message response) (usage response)
                                  (stopReason response)) /\
      conversationHistory r.2 =
        conversationHistory a ++ [mkMessage "user" userMessage;
                                  mkMessage "assistant" (message response)] /\
      length (conversationHistory r.2) = S (S (length (conversationHistory a)))).
Proof.
  split.
  - intros error. simpl. repeat split. rewrite length_app. simpl. lia.
  - intros response. simpl. repeat split.
    + rewrite <- app_assoc. reflexivity.
    + rewrite !length_app. simpl. lia.
Qed.

End BaseAgentFacts.

(** ** The facade *)

Section FacadeFacts.
Import AgentService.
Context {M : Type} `{Orchestrator M}.

Lemma planning_loop_total problemStatement retries :
  forall fuel attempt m (s : Service M),
    retries + 1 - attempt <= Z.of_nat fuel ->
    (planning_loop fuel problemStatement retries attempt m s).1 <> None.
Proof.
  induction fuel as [|fuel IH]; intros attempt m s Hfuel; simpl.
  - destruct (attempt <=? retries) eqn:Hle; [|discriminate].
    apply Z.leb_le in Hle. lia.
  - destruct (attempt <=? retries) eqn:Hle; [|discriminate].
    unfold call. destruct (planning problemStatement m) as [settled m1].
    destruct (_executeWithTimeout settled) as [result|error]; [discriminate|].
    destruct (attempt + 1 >? retries); [discriminate|].
    apply IH. lia.
Qed.

(** The model of [executePlanningPhase] never runs out of fuel. *)
Lemma executePlanningPhase_total problemStatement retries s :
  (executePlanningPhase problemStatement retries s).1 <> None.
Proof.
  unfold executePlanningPhase. destruct (masterAgent s) as [m|]; [|discriminate].
  apply planning_loop_total. lia.
Qed.

Lemma planning_loop_all_fail problemStatement retries :
  (forall m, Js.returned (attempt_outcome problemStatement m) = false) ->
  forall fuel attempt m (s : Service M),
    Z.of_nat fuel = retries + 1 - attempt ->
    (0 < fuel)%nat ->
    exists e new,
      planning_loop fuel problemStatement retries attempt m s
        = (Some (Js.Throw e),
           mkService
             (Some (after_attempts problemStatement fuel m))
             false "planning" (emitted s ++ new)
             (invoked s ++ replicate fuel "executePlanningPhase")) /\
      attempt_outcome problemStatement
        (after_attempts problemStatement (fuel - 1) m) = Js.Throw e /\
      error_events new = [Events.ErrorEvent e].
Proof.
  intros Hfail. induction fuel as [|fuel IH]; intros attempt m s Hfuel Hpos; [lia|].
  simpl planning_loop.
  replace (attempt <=? retries) with true by (symmetry; apply Z.leb_le; lia).
  unfold call. pose proof (Hfail m) as Hm. unfold attempt_outcome in Hm.
  destruct (planning problemStatement m) as [settled m1] eqn:Hplan.
  simpl in Hm. destruct (_executeWithTimeout settled) as [result|error] eqn:Hout;
    [discriminate|].
  destruct (attempt + 1 >? retries) eqn:Hgt.
  - (* the last attempt *)
    assert (fuel = 0%nat) as -> by (apply Z.gtb_lt in Hgt; lia).
    destruct (0 <? attempt);
      (eexists error, _; split; [|split];
       [ unfold emit, set_isRunning, set_currentPhase; simpl;
         rewrite Hplan; simpl; rewrite <- !app_assoc; reflexivity
       | simpl; unfold attempt_outcome; rewrite Hplan; exact Hout
       | reflexivity ]).
  - (* a retry follows *)
    assert (Hpos' : (0 < fuel)%nat)
      by (rewrite Z.gtb_ltb in Hgt; apply Z.ltb_ge in Hgt; lia).
    edestruct (IH (attempt + 1) m1) as (e & new & Heq & Hlast & Herr);
      [lia | exact Hpos' |].
    rewrite Heq.
    assert (Hlast' : attempt_outcome problemStatement
              (after_attempts problemStatement (S fuel - 1) m) = Js.Throw e).
    { replace (S fuel - 1)%nat with (S (fuel - 1)) by lia.
      simpl. rewrite Hplan. exact Hlast. }
    destruct (0 <? attempt);
      (eexists e, _; split; [|split];
       [ unfold emit, set_isRunning, set_currentPhase; simpl;
         rewrite Hplan; simpl; rewrite <- !app_assoc; reflexivity
       | exact Hlast'
       | unfold error_events in *; simpl; exact Herr ]).
Qed.

Example executePlanningPhase_times_out :
  (AgentService.executePlanningPhase (H := Claims.failing_orchestrator)
     "Optimize vehicle routing" None Claims.planned_service).1
  = Some (Js.Throw (Js.Error "Operation timed out")).
Proof. reflexivity. Qed.

(** C3. Retry bound of the planning facade. On an initialised facade,
    with a retry count that is a natural number (2 when omitted), a run
    in which every call of the orchestrator's planning phase fails, by
    rejecting or by exceeding its time box, makes exactly [retries + 1]
    calls, throws the error of the last of them to the caller, and emits
    exactly one 'error' notification, which carries that error. *)
Theorem C3_retry_bound (problemStatement : string) (retries : option Z)
        (m : M) (s : Service M) :
  masterAgent s = Some m ->
  0 <= default 2 retries ->
  (forall m', Js.returned (attempt_outcome problemStatement m') = false) ->
  let n := Z.to_nat (default 2 retries + 1) in
  let out := executePlanningPhase problemStatement retries s in
  exists e new,
    out.1 = Some (Js.Throw e) /\
    attempt_outcome problemStatement
      (after_attempts problemStatement (n - 1) m) = Js.Throw e /\
    invoked out.2 = invoked s ++ replicate n "executePlanningPhase" /\
    emitted out.2 = emitted s ++ new /\
    error_events new = [Events.ErrorEvent e] /\
    isRunning out.2 = false.
Proof.
  intros Hm Hretries Hfail n out. subst out. unfold executePlanningPhase.
  rewrite Hm. fold n.
  destruct (planning_loop_all_fail problemStatement (default 2 retries) Hfail
              n 0 m s) as (e & new & Heq & Hlast & Herr); [lia | lia |].
  rewrite Heq. exists e, new. simpl.
  repeat split; try reflexivity; assumption.
Qed.

Lemma facade_refuses_plan (plan : Js.value) (s : Service M) :
  In plan Claims.refused_plans ->
  executeModelingPhase plan s =
    (Js.Throw (Js.Error
       (match masterAgent s with
        | None => "Workspace not initialized"
        | Some _ => "No plan provided. Please complete planning phase first."
        end)), s).
Proof.
  intros Hin. unfold executeModelingPhase.
  destruct (masterAgent s) as [m|]; [|reflexivity].
  simpl in Hin. destruct Hin as [<-|[<-|[<-|[<-|[]]]]]; reflexivity.
Qed.

Lemma facade_modeling_calls_once (plan : Js.value) (s : Service M) :
  let out := executeModelingPhase plan s in
  invoked out.2 = invoked s \/
  invoked out.2 = invoked s ++ ["executeModelingPhase"].
Proof.
  unfold executeModelingPhase.
  destruct (masterAgent s) as [m|]; [|left; reflexivity].
  assert (Hemit : forall l (t : Service M),
             invoked (fold_left (fun s e => emit e s) l t) = invoked t).
  { induction l as [|e l IH]; intros t; simpl; [reflexivity|]. rewrite IH. reflexivity. }
  destruct plan as [| |[|]|q| |p|fields]; simpl; try (left; reflexivity).
  - destruct (negb (QArith_base.Qeq_bool q (QArith_base.Qmake 0 1)));
      left; reflexivity.
  - destruct (String.eqb p "" || String.eqb p "null" || Nat.eqb (String.length p) 0);
      [left; reflexivity|].
    unfold call. destruct (modeling (Js.VStr p) m) as [[result|error] m1]; simpl;
      [rewrite Hemit|]; right; reflexivity.
Qed.

(** C10 (amended). The writing phase resets the facade. On an
    initialised facade every call of [executeWritingPhase], whether the
    orchestrator's writing phase returns or throws, ends with the current
    phase at idle, the running flag cleared and a phase-change to idle as
    the last notification, and passes on what the orchestrator returned
    or threw; on a facade that is not initialised the call throws and
    changes nothing. By contrast, an [executeModelingPhase] whose
    orchestrator call throws leaves the current phase at modeling. *)
Theorem C10_writing_resets_phase (s : Service M) :
  (forall m, masterAgent s = Some m ->
     let out := executeWritingPhase s in
     out.1 = (writing m).1 /\
     currentPhase out.2 = "idle" /\
     isRunning out.2 = false /\
     exists new,
       emitted out.2 = emitted s ++ new ++ [Events.PhaseChange "idle"]) /\
  (masterAgent s = None ->
     executeWritingPhase s =
       (Js.Throw (Js.Error "Workspace not initialized"), s)) /\
  (forall m p e,
     masterAgent s = Some m ->
     p <> "" -> p <> "null" ->
     (modeling (Js.VStr p) m).1 = Js.Throw e ->
     let out := executeModelingPhase (Js.VStr p) s in
     out.1 = Js.Throw e /\
     currentPhase out.2 = "modeling" /\
     isRunning out.2 = false).
Proof.
  split; [|split].
  - intros m Hm out. subst out. unfold executeWritingPhase. rewrite Hm.
    unfold call. destruct (writing m) as [[result|error] m1]; simpl;
      (split; [reflexivity|]); (split; [reflexivity|]); (split; [reflexivity|]).
    + exists [Events.PhaseChange "writing";
              Events.Log Events.info "Starting writing phase...";
              Events.Log Events.success "Writing phase complete";
              Events.WritingComplete result].
      rewrite <- !(app_assoc (emitted s)). reflexivity.
    + exists [Events.PhaseChange "writing";
              Events.Log Events.info "Starting writing phase...";
              Events.Log Events.error ("Writing failed: " +:+ Js.message error);
              Events.ErrorEvent error].
      rewrite <- !(app_assoc (emitted s)). reflexivity.
  - intros Hm. unfold executeWritingPhase. rewrite Hm. reflexivity.
  - intros m p e Hm Hp Hnull Hfail out. subst out.
    assert (Hguard : String.eqb p "" || String.eqb p "null"
                       || Nat.eqb (String.length p) 0 = false).
    { apply String.eqb_neq in Hnull. rewrite Hnull.
      destruct p; [congruence | reflexivity]. }
    unfold executeModelingPhase. rewrite Hm, Hguard.
    unfold call. destruct (modeling (Js.VStr p) m) as [r m1].
    simpl in Hfail. subst r. simpl. auto.
Qed.

(** C5 (facade). A refused plan makes [executeModelingPhase] throw at
    once: the orchestrator is not called, the facade sends no
    notification and none of its fields changes; and no plan makes the
    facade call the orchestrator more than once. *)
Lemma facade_modeling_gate (plan : Js.value) (s : Service M) :
  In plan Claims.refused_plans ->
  (exists e, executeModelingPhase plan s = (Js.Throw e, s)) /\
  (forall plan', length (invoked (executeModelingPhase plan' s).2)
                 <= S (length (invoked s)))%nat.
Proof.
  intros Hin. split.
  - eexists. apply facade_refuses_plan. exact Hin.
  - intros plan'. destruct (facade_modeling_calls_once plan' s) as [-> | ->].
    + lia.
    + rewrite length_app. simpl. lia.
Qed.

End FacadeFacts.

(** C10, as stated, fails twice. A facade that was never initialised throws
    from [executeWritingPhase] before the guarded block, so no phase-change
    is emitted; and a modeling call refused for want of a plan leaves the
    phase where a successful planning left it. *)
Lemma C10_writing_resets_phase_counterexample :
  ~ Claims.writing_resets (H := Claims.failing_orchestrator) AgentService.new /\
  ~ Claims.failed_modeling_stays (H := Claims.failing_orchestrator)
      Js.VNull Claims.planned_service.
Proof.
  split.
  - intros [_ (new & Hnew & Hin)]. simpl in Hnew.
    destruct new; [destruct Hin | discriminate Hnew].
  - intros Hstay. specialize (Hstay eq_refl). discriminate Hstay.
Qed.

Lemma C10_writing_resets_phase_witness :
  let out := AgentService.executeWritingPhase (H := Claims.failing_orchestrator)
               Claims.planned_service in
  out.1 = Js.Throw (Js.Error "writing failed") /\
  AgentService.currentPhase out.2 = "idle" /\
  AgentService.currentPhase
    (AgentService.executeModelingPhase (H := Claims.failing_orchestrator)
       (Js.VStr "the plan") Claims.planned_service).2 = "modeling".
Proof.
  destruct (C10_writing_resets_phase (H := Claims.failing_orchestrator)
              Claims.planned_service) as (Hw & _ & Hm).
  destruct (Hw 0%nat eq_refl) as (H1 & H2 & _).
  destruct (Hm 0%nat "the plan" (Js.Error "modeling failed") eq_refl)
    as (_ & H3 & _); [discriminate | discriminate | reflexivity |].
  intros out. split; [exact H1|]. split; [exact H2 | exact H3].
Defined.

Lemma C3_retry_bound_witness :
  exists e new,
    (AgentService.executePlanningPhase (H := Claims.failing_orchestrator)
       "Optimize vehicle routing" None Claims.planned_service).1
      = Some (Js.Throw e) /\
    AgentService.attempt_outcome (H := Claims.failing_orchestrator)
      "Optimize vehicle routing" 2%nat = Js.Throw e /\
    AgentService.invoked
      (AgentService.executePlanningPhase (H := Claims.failing_orchestrator)
         "Optimize vehicle routing" None Claims.planned_service).2
      = ["executePlanningPhase"; "executePlanningPhase"; "executePlanningPhase"] /\
    AgentService.emitted
      (AgentService.executePlanningPhase (H := Claims.failing_orchestrator)
         "Optimize vehicle routing" None Claims.planned_service).2 = [] ++ new /\
    AgentService.error_events new = [Events.ErrorEvent e] /\
    AgentService.isRunning
      (AgentService.executePlanningPhase (H := Claims.failing_orchestrator)
         "Optimize vehicle routing" None Claims.planned_service).2 = false.
Proof.
  apply (C3_retry_bound (H := Claims.failing_orchestrator)
           "Optimize vehicle routing" None 0%nat Claims.planned_service).
  - reflexivity.
  - simpl. lia.
  - intros m'. unfold AgentService.attempt_outcome. simpl.
    destruct (Nat.even m'); reflexivity.
Defined.

(** ** Decimal numerals and clone identifiers *)

Lemma has_char_app c s1 s2 :
  Text.has_char c (s1 +:+ s2) = Text.has_char c s1 || Text.has_char c s2.
Proof.
  induction s1 as [|x s1 IH]; simpl; [reflexivity|].
  rewrite IH. apply orb_assoc.
Qed.

Lemma pretty_N_char_no_dash x : Ascii.eqb (pretty_N_char x) "-" = false.
Proof. unfold pretty_N_char. repeat case_match; reflexivity. Qed.

Lemma pretty_N_go_no_dash x :
  forall s, Text.has_char "-" s = false -> Text.has_char "-" (pretty_N_go x s) = false.
Proof.
  induction (N.lt_wf_0 x) as [x _ IH]. intros s Hs.
  destruct (decide (x = 0)%N) as [->|Hx].
  - rewrite pretty_N_go_0. exact Hs.
  - rewrite pretty_N_go_step by lia. apply IH.
    + apply N.div_lt; lia.
    + simpl. rewrite pretty_N_char_no_dash. exact Hs.
Qed.

(** The numeral of a natural number holds digits only. *)
Lemma pretty_nonneg_no_dash (z : Z) : 0 <= z -> Text.has_char "-" (pretty z) = false.
Proof.
  intros Hz. destruct z as [|p|p]; [reflexivity| |lia].
  unfold pretty, pretty_Z, pretty, pretty_positive, pretty, pretty_N.
  rewrite decide_False by discriminate.
  apply pretty_N_go_no_dash. reflexivity.
Qed.

Lemma append_sep_inj (c : ascii) (a1 a2 d1 d2 : string) :
  Text.has_char c d1 = false -> Text.has_char c d2 = false ->
  a1 +:+ String c d1 = a2 +:+ String c d2 ->
  a1 = a2 /\ d1 = d2.
Proof.
  intros H1 H2. revert a2. induction a1 as [|x a1 IH]; intros [|y a2] Heq;
    cbv beta iota delta [String.append] in Heq; fold String.append in Heq.
  - injection Heq as ->. auto.
  - injection Heq as -> ->. rewrite has_char_app in H1. simpl in H1.
    rewrite Ascii.eqb_refl, orb_true_r in H1. discriminate.
  - injection Heq as -> <-. rewrite has_char_app in H2. simpl in H2.
    rewrite Ascii.eqb_refl, orb_true_r in H2. discriminate.
  - injection Heq as -> Heq. destruct (IH _ Heq) as [-> ->]. auto.
Qed.

Lemma NoDup_fmap_inj_on {A B} (f : A -> B) (l : list A) (x y : A) :
  NoDup (f <$> l) -> x ∈ l -> y ∈ l -> f x = f y -> x = y.
Proof.
  intros Hnd Hx Hy Hf.
  apply list_elem_of_lookup in Hx as [i Hi].
  apply list_elem_of_lookup in Hy as [j Hj].
  assert (i = j) as ->.
  { eapply NoDup_lookup; [exact Hnd | |].
    - rewrite list_lookup_fmap, Hi. reflexivity.
    - rewrite list_lookup_fmap, Hj. simpl. congruence. }
  congruence.
Qed.

Section MasterFacts.
Import MasterAgent.
Context `{Runtime}.

Local Arguments BaseAgent.new : simpl never.
Local Arguments clone_id : simpl never.

Lemma spawnClone_clones now mode task m :
  clones (spawnClone now mode task m).2 =
    clones m ++
    (if Js.returned (BaseAgent.new cfg mode)
     then [mkClone (clone_id mode now) (nextAddr m) mode task "running"]
     else []).
Proof.
  unfold spawnClone. destruct (BaseAgent.new cfg mode) as [clone|e].
  - reflexivity.
  - symmetry. apply app_nil_r.
Qed.

(** Identifiers made from clock readings at or after the epoch determine
    the role and the reading. *)
Lemma clone_id_inj mode1 mode2 now1 now2 :
  0 <= now1 -> 0 <= now2 ->
  clone_id mode1 now1 = clone_id mode2 now2 ->
  mode1 = mode2 /\ now1 = now2.
Proof.
  intros H1 H2 Heq. unfold clone_id in Heq.
  apply append_sep_inj in Heq as [-> Hp];
    try (apply pretty_nonneg_no_dash; assumption).
  split; [reflexivity|]. eapply inj; [|exact Hp]. apply _.
Qed.

Lemma spawnClone_ok now mode task m clone :
  BaseAgent.new cfg mode = Js.Return clone ->
  spawnClone now mode task m =
    (Js.Return (nextAddr m),
     mkMaster (phase m)
       (clones m ++ [mkClone (clone_id mode now) (nextAddr m) mode task "running"])
       (<[nextAddr m := clone]> (heap m)) (S (nextAddr m)) (self m)
       (workspacePath m) (files m) (artifactStore m)).
Proof. intros Hnew. unfold spawnClone. rewrite Hnew. reflexivity. Qed.

Lemma spawnClone_fail now mode task m e :
  BaseAgent.new cfg mode = Js.Throw e ->
  spawnClone now mode task m = (Js.Throw e, m).
Proof. intros Hnew. unfold spawnClone. rewrite Hnew. reflexivity. Qed.

(** The orchestrator refuses a missing plan before it touches anything. *)
Lemma master_refuses_plan env plan m :
  In plan Claims.refused_plans ->
  executeModelingPhase env plan m =
    (Js.Throw (Js.Error "Invalid plan received. Plan is null or empty."), m).
Proof.
  intros Hin. simpl in Hin.
  destruct Hin as [<-|[<-|[<-|[<-|[]]]]]; reflexivity.
Qed.

Lemma spawnClone_returned now mode task m :
  Js.returned (spawnClone now mode task m).1 = Js.returned (BaseAgent.new cfg mode).
Proof.
  unfold spawnClone. destruct (BaseAgent.new cfg mode); reflexivity.
Qed.

Lemma spawnAll_ids requests :
  forall m,
    id <$> clones (spawnAll requests m) =
      (id <$> clones m) ++
      ((fun r : Z * string * string => clone_id r.1.2 r.1.1) <$>
         filter (fun r : Z * string * string =>
                   Js.returned (BaseAgent.new cfg r.1.2) = true) requests).
Proof.
  induction requests as [|[[now mode] task] rest IH]; intros m.
  - simpl. rewrite app_nil_r. reflexivity.
  - unfold spawnAll at 1; fold spawnAll.
    rewrite IH, spawnClone_clones, fmap_app, <- app_assoc. f_equal.
    destruct (Js.returned (BaseAgent.new cfg mode)) eqn:Hnew.
    + rewrite filter_cons_True by exact Hnew. reflexivity.
    + rewrite filter_cons_False by (simpl; rewrite Hnew; discriminate). reflexivity.
Qed.

(** C8 (amended). Clone identifiers. The identifier of a registry entry
    is the role, a dash, and the decimal clock reading of its spawn; in a
    registry filled from empty by spawns whose clock readings are not
    negative and in which no two spawns have both the same role and the
    same reading, any two distinct entries have different identifiers. *)
Theorem C8_clone_identifiers (requests : list (Z * string * string))
        (m : Master) :
  clones m = [] ->
  Forall (fun r : Z * string * string => 0 <= r.1.1) requests ->
  NoDup ((fun r : Z * string * string => (r.1.2, r.1.1)) <$> requests) ->
  Claims.ids_unique (spawnAll requests m) /\
  (forall now mode task m',
      Js.returned (spawnClone now mode task m').1 = true ->
      clones (spawnClone now mode task m').2 =
        clones m' ++ [mkClone (mode +:+ "-" +:+ pretty now) (nextAddr m')
                              mode task "running"]).
Proof.
  intros Hempty Hnonneg Hnodup. split.
  - assert (Hids : NoDup (id <$> clones (spawnAll requests m))).
    { rewrite spawnAll_ids, Hempty. simpl.
      set (ok := fun r : Z * string * string =>
                   Js.returned (BaseAgent.new cfg r.1.2) = true).
      apply NoDup_fmap_2_strong.
      - intros r1 r2 Hr1 Hr2 Heq.
        apply list_elem_of_filter in Hr1 as [_ Hr1].
        apply list_elem_of_filter in Hr2 as [_ Hr2].
        rewrite Forall_forall in Hnonneg.
        destruct (clone_id_inj _ _ _ _ (Hnonneg _ Hr1) (Hnonneg _ Hr2) Heq)
          as [Hmode Hnow].
        apply (NoDup_fmap_inj_on (fun r : Z * string * string => (r.1.2, r.1.1))
                 requests); auto. congruence.
      - apply NoDup_filter. eapply NoDup_fmap_1. exact Hnodup. }
    intros i j a b Hij Ha Hb Heq. apply Hij.
    eapply NoDup_lookup; [exact Hids | |].
    + rewrite list_lookup_fmap, Ha. reflexivity.
    + rewrite list_lookup_fmap, Hb. simpl. congruence.
  - intros now mode task m' Hok. rewrite spawnClone_clones.
    rewrite spawnClone_returned in Hok. rewrite Hok. reflexivity.
Qed.

End MasterFacts.

(** C8, as stated, fails: two clones of one role spawned within the same
    millisecond are two registry entries with one identifier. *)
Lemma C8_clone_identifiers_counterexample :
  ~ Claims.ids_unique
      (MasterAgent.spawnAll (H := Claims.sample_runtime)
         [(1700000000000, "researcher", "first task");
          (1700000000000, "researcher", "second task")]
         Claims.fresh_master).
Proof.
  intros Huniq.
  apply (Huniq 0%nat 1%nat
           (MasterAgent.mkClone "researcher-1700000000000" 0 "researcher"
                                "first task" "running")
           (MasterAgent.mkClone "researcher-1700000000000" 1 "researcher"
                                "second task" "running"));
    [discriminate | vm_compute; reflexivity | vm_compute; reflexivity | reflexivity].
Qed.

Lemma C8_clone_identifiers_witness :
  Claims.ids_unique
    (MasterAgent.spawnAll (H := Claims.sample_runtime)
       [(1700000000000, "researcher", "first task");
        (1700000000001, "researcher", "second task");
        (1700000000001, "writer", "third task")]
       Claims.fresh_master).
Proof.
  apply (C8_clone_identifiers (H := Claims.sample_runtime)).
  - reflexivity.
  - repeat constructor; simpl; lia.
  - apply (bool_decide_unpack _). vm_compute. reflexivity.
Defined.

(** ** The modeling gate *)

(** C5. Modeling phase gating. For a plan that is null, undefined, the
    empty string or the string "null", the orchestrator's
    [executeModelingPhase] throws at once and leaves the orchestrator as it
    was: the phase is not advanced, no clone is spawned, no agent receives a
    message and no file or artifact is written. The facade's
    [executeModelingPhase] throws for such a plan without calling the
    orchestrator, sending a notification of its own or changing any of its
    fields; and for no plan does it call the orchestrator more than once,
    so nothing is retried. *)
Theorem C5_modeling_gate `{MasterAgent.Runtime} {M : Type}
        `{AgentService.Orchestrator M} (plan : Js.value) :
  In plan Claims.refused_plans ->
  (forall env m,
      MasterAgent.executeModelingPhase env plan m =
        (Js.Throw (Js.Error "Invalid plan received. Plan is null or empty."), m)) /\
  (forall s : AgentService.Service M,
      exists e, AgentService.executeModelingPhase plan s = (Js.Throw e, s)) /\
  (forall plan' (s : AgentService.Service M),
      (length (AgentService.invoked (AgentService.executeModelingPhase plan' s).2)
       <= S (length (AgentService.invoked s)))%nat).
Proof.
  intros Hin. split; [|split].
  - intros env m. apply master_refuses_plan. exact Hin.
  - intros s. apply facade_modeling_gate. exact Hin.
  - intros plan' s. apply (facade_modeling_gate plan s Hin).
Qed.

Lemma C5_modeling_gate_witness :
  MasterAgent.executeModelingPhase (H := Claims.sample_runtime)
    (MasterAgent.mkModelingEnv 1700000000000
       (Js.Return (Claims.sample_response "code"))
       (fun r m => (Js.Return (Js.VObj [("model", Js.VStr (BaseAgent.message r))]), m)))
    (Js.VStr "null") Claims.fresh_master
  = (Js.Throw (Js.Error "Invalid plan received. Plan is null or empty."),
     Claims.fresh_master) /\
  exists e,
    AgentService.executeModelingPhase (H := Claims.failing_orchestrator)
      (Js.VStr "null") Claims.planned_service = (Js.Throw e, Claims.planned_service).
Proof.
  destruct (C5_modeling_gate (H := Claims.sample_runtime)
              (H0 := Claims.failing_orchestrator) (Js.VStr "null"))
    as (Hmaster & Hfacade & _).
  - simpl. tauto.
  - split; [apply Hmaster | apply Hfacade].
Defined.

(** ** Fan-out and fan-in *)

Section FanoutFacts.
Import MasterAgent.
Context `{Runtime}.

Local Arguments BaseAgent.new : simpl never.
Local Arguments clone_id : simpl never.

Lemma clone_call_fields a msg m :
  clones (clone_call a msg m) = clones m /\
  nextAddr (clone_call a msg m) = nextAddr m /\
  (forall b, is_Some (heap (clone_call a msg m) !! b) <-> is_Some (heap m !! b)).
Proof.
  split; [reflexivity|]. split; [reflexivity|].
  intros b. unfold clone_call. simpl. rewrite lookup_alter.
  destruct (decide (a = b)) as [->|]; [|reflexivity].
  destruct (heap m !! b); simpl; split; intros [? ?]; eauto; discriminate.
Qed.

(** What the synchronous part of the fan-out leaves: one pending promise
    and one running registry entry per task, in input order. *)
Lemma dispatch_spec clock tasks :
  forall i0 m,
    (forall t, t ∈ tasks -> Js.returned (BaseAgent.new cfg (t_mode t)) = true) ->
    let out := dispatch clock i0 tasks m in
    out.1 = imap (fun j _ => Pending (nextAddr m + j)) tasks /\
    clones out.2 =
      clones m ++ imap (fun j t => entry_of (fun j => clock (i0 + j)%nat) (nextAddr m)
                                            (fun _ => "running") j t) tasks /\
    (forall b, is_Some (heap m !! b) -> is_Some (heap out.2 !! b)) /\
    (forall j, (j < length tasks)%nat -> is_Some (heap out.2 !! (nextAddr m + j)%nat)).
Proof.
  induction tasks as [|t rest IH]; intros i0 m Hok.
  - simpl. rewrite app_nil_r. repeat split; auto. intros j Hj. simpl in Hj. lia.
  - assert (Ht : Js.returned (BaseAgent.new cfg (t_mode t)) = true)
      by (apply Hok; left).
    destruct (BaseAgent.new cfg (t_mode t)) as [clone|e] eqn:Hnew; [|discriminate Ht].
    unfold dispatch; fold dispatch.
    rewrite (spawnClone_ok _ _ _ _ _ Hnew).
    set (m1 := mkMaster _ _ _ _ _ _ _ _).
    set (m2 := clone_call (nextAddr m) (t_message t) m1).
    specialize (IH (S i0) m2 (fun t' Ht' => Hok t' (list_elem_of_further _ _ _ Ht'))).
    destruct (dispatch clock (S i0) rest m2) as [ps m3]. simpl in IH.
    destruct IH as (Hps & Hclones & Hkeep & Hnew').
    destruct (clone_call_fields (nextAddr m) (t_message t) m1) as (Hc2 & Hn2 & Hh2).
    fold m2 in Hc2, Hn2, Hh2.
    simpl. split; [|split; [|split]].
    + rewrite Hps. f_equal; [f_equal; lia|].
      apply imap_ext. intros j x _. simpl. f_equal. lia.
    + rewrite Hclones, <- app_assoc. simpl. f_equal. unfold entry_of. f_equal.
      * f_equal; [f_equal; f_equal; lia | lia].
      * apply imap_ext. intros j x _. simpl.
        f_equal; [f_equal; f_equal; lia | lia].
    + intros b Hb. apply Hkeep. apply (proj2 (Hh2 b)). simpl.
      destruct (decide (nextAddr m = b)) as [->|Hne].
      * rewrite lookup_insert_eq. eauto.
      * rewrite lookup_insert_ne by exact Hne. exact Hb.
    + intros [|j] Hj.
      * apply Hkeep. apply (proj2 (Hh2 _)). simpl.
        rewrite Nat.add_0_r, lookup_insert_eq. eauto.
      * replace (nextAddr m + S j)%nat with (S (nextAddr m + j)) by lia.
        apply Hnew'. simpl in Hj. lia.
Qed.

Lemma first_failure_app reply settled i :
  first_failure reply (settled ++ [i]) =
    match first_failure reply settled with
    | Some e => Some e
    | None => match reply i with Js.Throw e => Some e | Js.Return _ => None end
    end.
Proof.
  induction settled as [|j settled IH]; simpl.
  - destruct (reply i); reflexivity.
  - destruct (reply j); [exact IH | reflexivity].
Qed.

Lemma status_after_snoc reply settled i j :
  i ∉ settled ->
  status_after reply (settled ++ [i]) j =
    if decide (j = i)
    then (if Js.returned (reply i) then "completed" else "running")
    else status_after reply settled j.
Proof.
  intros Hi. unfold status_after.
  destruct (decide (j = i)) as [->|Hne].
  - rewrite bool_decide_eq_true_2 by (apply elem_of_app; right; apply list_elem_of_singleton; reflexivity).
    reflexivity.
  - destruct (decide (j ∈ settled)) as [Hin|Hnin].
    + rewrite !bool_decide_eq_true_2; auto. apply elem_of_app; auto.
    + rewrite !bool_decide_eq_false_2; auto.
      rewrite elem_of_app, list_elem_of_singleton. tauto.
Qed.

Lemma find_entry_of clock a0 st old tasks i t :
  (forall c, c ∈ old -> (agent c < a0)%nat) ->
  tasks !! i = Some t ->
  list_find (fun c => agent c = (a0 + i)%nat) (old ++ imap (entry_of clock a0 st) tasks)
  = Some ((length old + i)%nat, entry_of clock a0 st i t).
Proof.
  intros Hold Ht. apply list_find_Some. split; [|split].
  - rewrite lookup_app_r by lia.
    replace (length old + i - length old)%nat with i by lia.
    rewrite list_lookup_imap, Ht. reflexivity.
  - reflexivity.
  - intros j y Hj Hlt Hagent.
    destruct (decide (j < length old)%nat) as [Hjo|Hjo].
    + rewrite lookup_app_l in Hj by exact Hjo.
      assert (y ∈ old) as Hy by (apply list_elem_of_lookup; eauto).
      apply Hold in Hy. lia.
    + rewrite lookup_app_r in Hj by lia.
      rewrite list_lookup_imap in Hj.
      destruct (tasks !! (j - length old)%nat) as [t'|]; [|discriminate].
      simpl in Hj. injection Hj as <-. simpl in Hagent. lia.
Qed.

(** One provider call settles: the invariant moves on by one task. *)
Lemma settle_step clock reply tasks old a0 settled f i :
  (forall c, c ∈ old -> (agent c < a0)%nat) ->
  fanout_inv clock reply tasks old a0 settled f ->
  i ∉ settled -> (i < length tasks)%nat ->
  fanout_inv clock reply tasks old a0 (settled ++ [i]) (settle tasks reply f i).
Proof.
  intros Hold [Hps Hcl Hheap Hrej] Hi Hlt.
  destruct (lookup_lt_is_Some_2 tasks i Hlt) as [t Ht].
  destruct (Hheap i Hlt) as [ag Hag].
  assert (Hpi : promises f !! i = Some (Pending (a0 + i))).
  { rewrite Hps, list_lookup_imap, Ht. simpl.
    rewrite bool_decide_eq_false_2 by exact Hi. reflexivity. }
  assert (Hpromises : forall v,
             v = settled_promise reply i t ->
             <[i := v]> (promises f) =
             imap (fun i0 t0 => if bool_decide (i0 ∈ settled ++ [i])
                                then settled_promise reply i0 t0
                                else Pending (a0 + i0)) tasks).
  { intros v ->. apply list_eq. intros j. rewrite Hps.
    rewrite list_lookup_insert, length_imap, !list_lookup_imap.
    destruct (decide (i = j /\ (i < length tasks)%nat)) as [[<- _]|Hne].
    - rewrite Ht. simpl.
      rewrite bool_decide_eq_true_2
        by (apply elem_of_app; right; apply list_elem_of_singleton; reflexivity).
      reflexivity.
    - assert (i <> j) by tauto.
      destruct (tasks !! j) as [t'|]; [|reflexivity]. simpl. f_equal.
      destruct (decide (j ∈ settled)) as [Hin|Hnin].
      + rewrite !bool_decide_eq_true_2; auto. apply elem_of_app; auto.
      + rewrite !bool_decide_eq_false_2; auto.
        rewrite elem_of_app, list_elem_of_singleton. intros [?|?]; congruence. }
  unfold settle. rewrite Hpi, Ht. unfold clone_resume. rewrite Hag.
  destruct (reply i) as [r|e] eqn:Hreply; simpl.
  - (* the call returned: the clone is marked *)
    unfold markCompleted. simpl. rewrite Hcl.
    rewrite (find_entry_of clock a0 _ old tasks i t Hold Ht).
    constructor; simpl.
    + apply Hpromises. unfold settled_promise. rewrite Hreply. reflexivity.
    + rewrite insert_app_r_alt by lia.
      replace (length old + i - length old)%nat with i by lia. f_equal.
      apply list_eq. intros j.
      rewrite list_lookup_insert, length_imap, !list_lookup_imap.
      destruct (decide (i = j /\ (i < length tasks)%nat)) as [[<- _]|Hne].
      * rewrite Ht. simpl. unfold entry_of, set_status. simpl.
        rewrite status_after_snoc by exact Hi.
        rewrite decide_True by reflexivity. rewrite Hreply. reflexivity.
      * assert (j <> i) by (intros ->; tauto).
        destruct (tasks !! j) as [t'|]; [|reflexivity]. simpl.
        unfold entry_of. rewrite status_after_snoc by exact Hi.
        rewrite decide_False by assumption. reflexivity.
    + intros j Hj. destruct (decide (a0 + i = a0 + j)%nat) as [->|Hne].
      * rewrite lookup_insert_eq. eauto.
      * rewrite lookup_insert_ne by exact Hne. apply Hheap. exact Hj.
    + rewrite first_failure_app, <- Hrej, Hreply.
      destruct (rejection f); reflexivity.
  - (* the call threw: the registry is left alone *)
    constructor; simpl.
    + apply Hpromises. unfold settled_promise. rewrite Hreply. reflexivity.
    + rewrite Hcl. f_equal. apply imap_ext. intros j t' _. simpl.
      unfold entry_of. rewrite status_after_snoc by exact Hi.
      destruct (decide (j = i)) as [->|]; [|reflexivity].
      rewrite Hreply. simpl. unfold status_after.
      rewrite bool_decide_eq_false_2 by exact Hi. reflexivity.
    + intros j Hj. destruct (decide (a0 + i = a0 + j)%nat) as [->|Hne].
      * rewrite lookup_insert_eq. eauto.
      * rewrite lookup_insert_ne by exact Hne. apply Hheap. exact Hj.
    + rewrite first_failure_app, <- Hrej, Hreply.
      destruct (rejection f); reflexivity.
Qed.

(** The calls of [order] settle one after the other. *)
Lemma settle_all clock reply tasks old a0 :
  (forall c, c ∈ old -> (agent c < a0)%nat) ->
  forall order settled f,
    fanout_inv clock reply tasks old a0 settled f ->
    NoDup (settled ++ order) ->
    (forall i, i ∈ order -> (i < length tasks)%nat) ->
    fanout_inv clock reply tasks old a0 (settled ++ order)
               (fold_left (settle tasks reply) order f).
Proof.
  intros Hold. induction order as [|i order IH]; intros settled f Hinv Hnd Hlt.
  - simpl. rewrite app_nil_r. exact Hinv.
  - simpl. replace (settled ++ i :: order) with ((settled ++ [i]) ++ order)
      by (rewrite <- app_assoc; reflexivity).
    apply IH.
    + apply settle_step; auto.
      * apply NoDup_app in Hnd as (_ & Hdisj & _).
        intros Hin. apply (Hdisj i Hin). left.
      * apply Hlt. left.
    + rewrite <- app_assoc. exact Hnd.
    + intros j Hj. apply Hlt. right. exact Hj.
Qed.

Lemma first_rejection_pending (g : nat -> nat) (tasks : list Task) :
  first_rejection (imap (fun j _ => Pending (g j)) tasks) = None.
Proof.
  revert g. induction tasks as [|t rest IH]; intros g; [reflexivity|].
  rewrite imap_cons. simpl. apply (IH (g ∘ S)).
Qed.

Lemma values_imap (g : nat -> Task -> promise) (v : nat -> Task -> TaskResult)
      (tasks : list Task) :
  (forall i t, tasks !! i = Some t -> g i t = Fulfilled (v i t)) ->
  values (imap g tasks) = Some (imap v tasks).
Proof.
  revert g v. induction tasks as [|t rest IH]; intros g v Hg; [reflexivity|].
  rewrite !imap_cons. simpl. rewrite (Hg 0%nat t eq_refl).
  rewrite (IH (g ∘ S) (v ∘ S)); [reflexivity|].
  intros i t' Hi. apply (Hg (S i)). exact Hi.
Qed.

Lemma first_failure_none reply order :
  (forall i, i ∈ order -> Js.returned (reply i) = true) ->
  first_failure reply order = None.
Proof.
  induction order as [|i order IH]; intros Hall; [reflexivity|]. simpl.
  pose proof (Hall i (list_elem_of_here _ _)) as Hi.
  destruct (reply i); [|discriminate Hi].
  apply IH. intros j Hj. apply Hall. right. exact Hj.
Qed.

Lemma first_failure_some reply order i :
  i ∈ order -> Js.returned (reply i) = false ->
  exists e, first_failure reply order = Some e.
Proof.
  induction order as [|j order IH]; intros Hin Hi.
  - inversion Hin.
  - simpl. destruct (reply j) as [r|e] eqn:Hj; [|eauto].
    apply IH; [|exact Hi]. apply elem_of_cons in Hin as [->|Hin]; [|exact Hin].
    rewrite Hj in Hi. discriminate Hi.
Qed.

Lemma first_failure_first reply settled i later e :
  (forall j, j ∈ settled -> Js.returned (reply j) = true) ->
  reply i = Js.Throw e ->
  first_failure reply (settled ++ i :: later) = Some e.
Proof.
  intros Hsettled Hi. induction settled as [|j settled IH]; simpl.
  - rewrite Hi. reflexivity.
  - pose proof (Hsettled j ltac:(left)) as Hj.
    destruct (reply j); [|discriminate Hj].
    apply IH. intros k Hk. apply Hsettled. right. exact Hk.
Qed.

(** C6 (amended). Fan-out and fan-in. For a list of tasks whose clones
    can all be constructed, and whatever the order in which the provider
    calls settle, [executeParallel] leaves, once every call has settled,
    one registry entry per task, in input order after the entries that
    were there, whose status is completed when the task's call returned
    and still running when it threw. When every call returns, the
    result is the list that pairs each task, in input order, with its
    own reply; when some call throws, [executeParallel] returns no list
    and throws the error of the call that is the first to fail in the
    order of settlement. *)
Theorem C6_fan_out_fan_in (clock : nat -> Z)
        (reply : nat -> Js.completion BaseAgent.Response)
        (order : list nat) (tasks : list Task) (m : Master) :
  registry_wf m ->
  (forall t, t ∈ tasks -> Js.returned (BaseAgent.new cfg (t_mode t)) = true) ->
  order ≡ₚ seq 0 (length tasks) ->
  let out := executeParallel clock reply order tasks m in
  clones out.2 =
    clones m ++
    imap (entry_of clock (nextAddr m)
            (fun i => if Js.returned (reply i) then "completed" else "running"))
         tasks /\
  ((forall i, (i < length tasks)%nat -> Js.returned (reply i) = true) ->
     exists results,
       out.1 = Some (Js.Return results) /\
       length results = length tasks /\
       forall i t r,
         tasks !! i = Some t -> reply i = Js.Return r ->
         results !! i = Some (mkTaskResult (t_mode t) (t_task t) r)) /\
  (forall i, (i < length tasks)%nat -> Js.returned (reply i) = false ->
     exists e, out.1 = Some (Js.Throw e)) /\
  (forall settled i later e,
     order = settled ++ i :: later ->
     (forall j, j ∈ settled -> Js.returned (reply j) = true) ->
     reply i = Js.Throw e ->
     out.1 = Some (Js.Throw e)).
Proof.
  intros Hwf Hok Hperm out. subst out. unfold executeParallel.
  pose proof (dispatch_spec clock tasks 0%nat m Hok) as Hd.
  destruct (dispatch clock 0 tasks m) as [ps m1]. simpl in Hd.
  destruct Hd as (Hps & Hcl & _ & Hheap).
  assert (Hnd : NoDup order) by (rewrite Hperm; apply NoDup_seq).
  assert (Hin : forall i, i ∈ order <-> (i < length tasks)%nat).
  { intros i. rewrite Hperm, elem_of_seq. lia. }
  assert (Hinv0 : fanout_inv clock reply tasks (clones m) (nextAddr m) []
                    (mkFanout ps (first_rejection ps) m1)).
  { constructor; simpl.
    - rewrite Hps. apply imap_ext. intros i t _. reflexivity.
    - rewrite Hcl. f_equal.
    - exact Hheap.
    - rewrite Hps. apply (first_rejection_pending (fun j => nextAddr m + j)%nat). }
  pose proof (settle_all clock reply tasks (clones m) (nextAddr m) Hwf
                order [] _ Hinv0 Hnd (fun i Hi => proj1 (Hin i) Hi)) as Hinv.
  simpl in Hinv. destruct Hinv as [Hps' Hcl' _ Hrej'].
  set (f := fold_left (settle tasks reply) order _) in *.
  simpl. split; [|split; [|split]].
  - rewrite Hcl'. f_equal. apply imap_ext. intros i t Hi. unfold entry_of.
    f_equal. unfold status_after.
    rewrite bool_decide_eq_true_2; [reflexivity|].
    apply Hin. eapply lookup_lt_Some. exact Hi.
  - intros Hall.
    exists (imap (fun i t =>
              mkTaskResult (t_mode t) (t_task t)
                (match reply i with
                 | Js.Return r => r
                 | Js.Throw e =>
                     BaseAgent.mkResponse (Js.message e)
                       (BaseAgent.mkUsage Js.VUndefined Js.VUndefined) Js.VUndefined
                 end)) tasks).
    split; [|split].
    + unfold promise_all. rewrite Hrej'.
      rewrite first_failure_none by (intros i Hi; apply Hall, Hin, Hi).
      rewrite Hps'. erewrite values_imap; [reflexivity|].
      intros i t Hi. simpl.
      rewrite bool_decide_eq_true_2
        by (apply Hin; eapply lookup_lt_Some; exact Hi).
      unfold settled_promise.
      pose proof (Hall i (lookup_lt_Some _ _ _ Hi)) as Hr.
      destruct (reply i) as [[msg us sr]|e]; [reflexivity | discriminate Hr].
    + apply length_imap.
    + intros i t r Hi Hr. rewrite list_lookup_imap, Hi, Hr. reflexivity.
  - intros i Hi Hfail. unfold promise_all. rewrite Hrej'.
    destruct (first_failure_some reply order i) as [e He]; [apply Hin, Hi | exact Hfail |].
    rewrite He. eauto.
  - intros settled i later e Horder Hsettled Hi. unfold promise_all.
    rewrite Hrej', Horder, (first_failure_first reply settled i later e Hsettled Hi).
    reflexivity.
Qed.

End FanoutFacts.

(** C6, as stated, fails: a task whose provider call throws leaves its
    clone running, since the statement that marks the clone comes after the
    awaited call. *)
Lemma C6_fan_out_fan_in_counterexample :
  ~ Claims.completed_whatever_the_outcome (H := Claims.sample_runtime)
      Claims.clock_ms Claims.second_fails [2; 0; 1]%nat
      Claims.three_tasks Claims.fresh_master.
Proof.
  intros Hclaim.
  destruct (Hclaim 1%nat (MasterAgent.mkTask "modeler" "model" "write the model") eq_refl)
    as (c & Hc & Hstatus).
  vm_compute in Hc. injection Hc as <-. discriminate Hstatus.
Qed.

Lemma C6_fan_out_fan_in_witness :
  let out := MasterAgent.executeParallel (H := Claims.sample_runtime)
               Claims.clock_ms Claims.all_reply [2; 0; 1]%nat
               Claims.three_tasks Claims.fresh_master in
  MasterAgent.status <$> MasterAgent.clones out.2
    = ["completed"; "completed"; "completed"] /\
  (exists results,
    out.1 = Some (Js.Return results) /\
    MasterAgent.tr_task <$> results = ["survey"; "model"; "draft"]) /\
  (MasterAgent.executeParallel (H := Claims.sample_runtime)
     Claims.clock_ms Claims.second_fails [2; 0; 1]%nat
     Claims.three_tasks Claims.fresh_master).1
    = Some (Js.Throw (Js.Error "API request failed: 500")).
Proof.
  assert (Hnew : forall t, t ∈ Claims.three_tasks ->
            Js.returned (BaseAgent.new (MasterAgent.cfg (Runtime := Claims.sample_runtime))
                           (MasterAgent.t_mode t)) = true).
  { intros t Ht. vm_compute in Ht.
    repeat (apply elem_of_cons in Ht as [->|Ht]; [reflexivity|]).
    inversion Ht. }
  assert (Hperm : [2; 0; 1]%nat ≡ₚ seq 0 (length Claims.three_tasks))
    by (apply (bool_decide_unpack _); vm_compute; reflexivity).
  assert (Hwf : MasterAgent.registry_wf Claims.fresh_master)
    by (intros c Hc; inversion Hc).
  destruct (C6_fan_out_fan_in (H := Claims.sample_runtime)
              Claims.clock_ms Claims.second_fails [2; 0; 1]%nat
              Claims.three_tasks Claims.fresh_master Hwf Hnew Hperm)
    as (_ & _ & _ & Hfirst).
  specialize (Hfirst [2; 0]%nat 1%nat [] (Js.Error "API request failed: 500")
                eq_refl).
  destruct (C6_fan_out_fan_in (H := Claims.sample_runtime)
              Claims.clock_ms Claims.all_reply [2; 0; 1]%nat
              Claims.three_tasks Claims.fresh_master Hwf Hnew Hperm)
    as (Hclones & Hresults & _).
  intros out. split; [|split].
  - subst out. rewrite Hclones. reflexivity.
  - destruct Hresults as (results & Hout & Hlen & Hlookup); [reflexivity|].
      exists results. split; [exact Hout|].
      pose proof (Hlookup 0%nat _ _ eq_refl eq_refl) as H0.
      pose proof (Hlookup 1%nat _ _ eq_refl eq_refl) as H1.
      pose proof (Hlookup 2%nat _ _ eq_refl eq_refl) as H2.
      destruct results as [|r0 [|r1 [|r2 [|]]]]; try discriminate Hlen.
      simpl in H0, H1, H2. injection H0 as ->. injection H1 as ->. injection H2 as ->.
      reflexivity.
  - apply Hfirst; [|reflexivity]. intros j Hj.
    repeat (apply elem_of_cons in Hj as [->|Hj]; [reflexivity|]).
    inversion Hj.
Defined.

(** ** Strings *)

Lemma text_prefix_nil s : String.prefix "" s = true.
Proof. destruct s; reflexivity. Qed.

Lemma text_prefix_cons a s1 s2 :
  String.prefix (String a s1) (String a s2) = String.prefix s1 s2.
Proof. cbn [String.prefix]. destruct (ascii_dec a a); [reflexivity | congruence]. Qed.

Lemma text_prefix_cons_ne a s1 c s2 :
  a <> c -> String.prefix (String a s1) (String c s2) = false.
Proof.
  intros Hne. cbn [String.prefix]. destruct (ascii_dec a c); [congruence | reflexivity].
Qed.

Lemma text_prefix_refl s : String.prefix s s = true.
Proof. induction s as [|c s IH]; [reflexivity|]. rewrite text_prefix_cons. exact IH. Qed.

Lemma text_prefix_append s t : String.prefix s (s +:+ t) = true.
Proof.
  induction s as [|c s IH]; [apply text_prefix_nil|].
  change (String c s +:+ t) with (String c (s +:+ t)).
  rewrite text_prefix_cons. exact IH.
Qed.

Lemma includes_empty s : Text.includes "" s = true.
Proof. destruct s; reflexivity. Qed.

Lemma includes_refl s : Text.includes s s = true.
Proof.
  unfold Text.includes. destruct s as [|c s]; [reflexivity|].
  unfold Text.indexOf. rewrite text_prefix_refl. reflexivity.
Qed.

Lemma text_length_take n s : (String.length (Text.take n s) <= n)%nat.
Proof.
  revert s. induction n as [|n IH]; intros s; simpl; [lia|].
  destruct s as [|c s]; simpl; [lia|]. specialize (IH s). lia.
Qed.

Lemma text_append_cons c s t : String c s +:+ t = String c (s +:+ t).
Proof. reflexivity. Qed.

Lemma text_append_nil_r s : s +:+ "" = s.
Proof. induction s as [|c s IH]; [reflexivity|]. rewrite text_append_cons, IH. reflexivity. Qed.

Lemma text_append_assoc s t u : (s +:+ t) +:+ u = s +:+ t +:+ u.
Proof.
  induction s as [|c s IH]; [reflexivity|]. rewrite !text_append_cons, IH. reflexivity.
Qed.

Lemma text_length_append s t :
  String.length (s +:+ t) = (String.length s + String.length t)%nat.
Proof.
  induction s as [|c s IH]; [reflexivity|]. rewrite text_append_cons.
  cbn [String.length]. rewrite IH. reflexivity.
Qed.

Lemma text_take_drop s n : Text.take n s +:+ Text.drop n s = s.
Proof.
  revert s. induction n as [|n IH]; intros s; [destruct s; reflexivity|].
  destruct s as [|c s]; [reflexivity|]. cbn [Text.take Text.drop].
  rewrite text_append_cons, IH. reflexivity.
Qed.

Lemma text_drop_append s t : Text.drop (String.length s) (s +:+ t) = t.
Proof. induction s as [|c s IH]; [reflexivity|]. exact IH. Qed.

Lemma text_take_append s t : Text.take (String.length s) (s +:+ t) = s.
Proof.
  induction s as [|c s IH]; [destruct t; reflexivity|].
  rewrite text_append_cons. cbn [String.length Text.take]. rewrite IH. reflexivity.
Qed.

Lemma text_drop_drop s n k : Text.drop n (Text.drop k s) = Text.drop (k + n) s.
Proof.
  revert s. induction k as [|k IH]; intros s; [reflexivity|].
  destruct s as [|c s]; [destruct n; reflexivity|]. apply IH.
Qed.

(** A prefix, spelled out. *)
Lemma text_prefix_split lit s :
  String.prefix lit s = true -> s = lit +:+ Text.drop (String.length lit) s.
Proof.
  revert s. induction lit as [|a lit IH]; intros s Hp; [reflexivity|].
  destruct s as [|c s]; [discriminate|].
  cbn [String.prefix] in Hp. destruct (ascii_dec a c) as [->|]; [|discriminate].
  cbn [String.length Text.drop]. rewrite text_append_cons. f_equal. apply IH. exact Hp.
Qed.

Lemma prefix_of_append lit s t :
  String.prefix lit s = true -> String.prefix lit (s +:+ t) = true.
Proof.
  revert s. induction lit as [|a lit IH]; intros s Hp; [apply text_prefix_nil|].
  destruct s as [|c s]; [discriminate|].
  cbn [String.prefix] in Hp. destruct (ascii_dec a c) as [->|]; [|discriminate].
  change (String c s +:+ t) with (String c (s +:+ t)). rewrite text_prefix_cons.
  apply IH. exact Hp.
Qed.

(** [indexOf] finds the first place where the literal starts. *)
Lemma indexOf_Some lit s i :
  Text.indexOf lit s = Some i ->
  String.prefix lit (Text.drop i s) = true /\
  (forall k, (k < i)%nat -> String.prefix lit (Text.drop k s) = false).
Proof.
  revert i. induction s as [|c s IH]; intros i Hi.
  - cbn [Text.indexOf] in Hi. destruct (String.prefix lit "") eqn:Hp; [|discriminate].
    injection Hi as <-. split; [exact Hp|]. intros k Hk. lia.
  - cbn [Text.indexOf] in Hi. destruct (String.prefix lit (String c s)) eqn:Hp.
    + injection Hi as <-. split; [exact Hp|]. intros k Hk. lia.
    + destruct (Text.indexOf lit s) as [j|] eqn:Hj; [|discriminate].
      injection Hi as <-. destruct (IH j eq_refl) as [Hpj Hmin].
      split; [exact Hpj|]. intros [|k] Hk; [exact Hp|]. apply Hmin. lia.
Qed.

Lemma indexOf_None lit s k :
  Text.indexOf lit s = None -> String.prefix lit (Text.drop k s) = false.
Proof.
  revert k. induction s as [|c s IH]; intros k Hn.
  - cbn [Text.indexOf] in Hn. destruct (String.prefix lit "") eqn:Hp; [discriminate|].
    destruct k; exact Hp.
  - cbn [Text.indexOf] in Hn. destruct (String.prefix lit (String c s)) eqn:Hp;
      [discriminate|].
    destruct (Text.indexOf lit s) as [j|] eqn:Hj; [discriminate|].
    destruct k as [|k]; [exact Hp|]. apply IH. reflexivity.
Qed.

Lemma indexOf_split lit s i :
  Text.indexOf lit s = Some i ->
  s = Text.take i s +:+ lit +:+ Text.drop (i + String.length lit) s.
Proof.
  intros Hi. apply indexOf_Some in Hi as [Hp _].
  apply text_prefix_split in Hp. rewrite text_drop_drop in Hp.
  rewrite <- Hp. symmetry. apply text_take_drop.
Qed.

(** A literal is not found before the first place where its first
    character occurs. *)
Lemma indexOf_skip a lit pre s :
  Text.has_char a pre = false ->
  Text.indexOf (String a lit) (pre +:+ s) =
    (fun i => (String.length pre + i)%nat) <$> Text.indexOf (String a lit) s.
Proof.
  intros Hpre. induction pre as [|c pre IH].
  - change ("" +:+ s) with s. destruct (Text.indexOf _ s); reflexivity.
  - cbn [Text.has_char] in Hpre. apply orb_false_elim in Hpre as [Hc Hpre].
    change (String c pre +:+ s) with (String c (pre +:+ s)).
    cbn [Text.indexOf]. rewrite text_prefix_cons_ne by (intros ->; rewrite Ascii.eqb_refl in Hc; discriminate).
    rewrite (IH Hpre). destruct (Text.indexOf _ s); reflexivity.
Qed.

Lemma has_char_take a n s :
  Text.has_char a s = false -> Text.has_char a (Text.take n s) = false.
Proof.
  revert s. induction n as [|n IH]; intros s Hs; [destruct s; reflexivity|].
  destruct s as [|c s]; [reflexivity|]. cbn [Text.has_char Text.take] in *.
  apply orb_false_elim in Hs as [Hc Hs]. rewrite Hc. apply IH. exact Hs.
Qed.

Lemma prefix_drop_take lit s j k :
  lit <> "" ->
  String.prefix lit (Text.drop k (Text.take j s)) = true ->
  (k < j)%nat /\ String.prefix lit (Text.drop k s) = true.
Proof.
  intros Hlit. revert s k. induction j as [|j IH]; intros s k Hp.
  - assert (Text.take 0 s = "") as Ht by (destruct s; reflexivity).
    rewrite Ht in Hp. destruct lit; [congruence|]. destruct k; discriminate.
  - destruct s as [|c s].
    + destruct lit; [congruence|]. destruct k; discriminate.
    + destruct k as [|k].
      * split; [lia|]. cbn [Text.take Text.drop] in *.
        rewrite <- (text_take_drop s j). apply (prefix_of_append lit (String c (Text.take j s))).
        exact Hp.
      * cbn [Text.take Text.drop] in *. destruct (IH s k Hp) as [Hk Hp'].
        split; [lia | exact Hp'].
Qed.

(** What stands before the first occurrence holds no occurrence. *)
Lemma indexOf_take_none lit s j :
  lit <> "" ->
  Text.indexOf lit s = Some j ->
  Text.includes lit (Text.take j s) = false.
Proof.
  intros Hlit Hj. unfold Text.includes.
  destruct (Text.indexOf lit (Text.take j s)) as [k|] eqn:Hk; [|reflexivity].
  exfalso. apply indexOf_Some in Hk as [Hp _].
  apply prefix_drop_take in Hp as [Hlt Hp]; [|exact Hlit].
  apply indexOf_Some in Hj as [_ Hmin]. rewrite (Hmin k Hlt) in Hp. discriminate.
Qed.

Lemma indexOf_here lit s :
  String.prefix lit s = true -> Text.indexOf lit s = Some 0%nat.
Proof. intros Hp. destruct s; cbn [Text.indexOf]; rewrite Hp; reflexivity. Qed.

(** ** Words, occurrences and headings *)

Section PaperSpecFacts.
Import PaperSpec.

Lemma white_space_is_space c : white_space c <-> Text.is_space c = true.
Proof.
  unfold white_space.
  destruct c as [[] [] [] [] [] [] [] []]; vm_compute;
    split; intros Hc; try discriminate Hc; try reflexivity;
    try (repeat (destruct Hc as [Hc|Hc]; [discriminate Hc|]); destruct Hc);
    tauto.
Qed.

Lemma line_terminator_is c :
  line_terminator c <-> Text.is_line_terminator c = true.
Proof.
  unfold line_terminator.
  destruct c as [[] [] [] [] [] [] [] []]; vm_compute;
    split; intros Hc; try discriminate Hc; try reflexivity;
    try (destruct Hc as [Hc|Hc]; discriminate Hc); tauto.
Qed.

Lemma chars_cons c s : chars (String c s) = c :: chars s.
Proof. reflexivity. Qed.

Lemma chars_append s t : chars (s +:+ t) = chars s ++ chars t.
Proof.
  induction s as [|c s IH]; [reflexivity|].
  rewrite text_append_cons, !chars_cons, IH. reflexivity.
Qed.

Lemma append_eq_nil s t : s +:+ t = "" -> s = "" /\ t = "".
Proof. destruct s; [auto | discriminate]. Qed.

Lemma append_inv_length s1 t1 s2 t2 :
  s1 +:+ t1 = s2 +:+ t2 -> String.length s1 = String.length s2 ->
  s1 = s2 /\ t1 = t2.
Proof.
  revert s2. induction s1 as [|c s1 IH]; intros [|c2 s2] Heq Hlen;
    try discriminate Hlen.
  - auto.
  - rewrite !text_append_cons in Heq. injection Heq as -> Heq.
    injection Hlen as Hlen. destruct (IH s2 Heq Hlen) as [-> ->]. auto.
Qed.

(** *** The regular expressions *)

Lemma dot_star_spec k s :
  Text.dot_star k s = true <->
  exists w s2, s = w +:+ s2 /\
               Forall (fun c => ~ line_terminator c) (chars w) /\ k s2 = true.
Proof.
  induction s as [|c s IH]; cbn [Text.dot_star].
  - rewrite orb_false_r. split.
    + intros Hk. exists "", "". repeat split; [constructor | exact Hk].
    + intros (w & s2 & Hs & _ & Hk). symmetry in Hs.
      apply append_eq_nil in Hs as [_ ->]. exact Hk.
  - split.
    + intros Hm. apply orb_true_iff in Hm as [Hk | Hm].
      * exists "", (String c s). repeat split; [constructor | exact Hk].
      * destruct (Text.is_line_terminator c) eqn:Hc; [discriminate|].
        apply IH in Hm as (w & s2 & -> & Hw & Hk).
        exists (String c w), s2. repeat split; [|exact Hk].
        rewrite chars_cons. constructor; [|exact Hw].
        rewrite line_terminator_is, Hc. discriminate.
    + intros (w & s2 & Hs & Hw & Hk). destruct w as [|c' w].
      * change ("" +:+ s2) with s2 in Hs. subst s2. rewrite Hk. reflexivity.
      * rewrite text_append_cons in Hs. injection Hs as <- ->.
        rewrite chars_cons in Hw. apply Forall_cons in Hw as [Hc Hw].
        rewrite line_terminator_is in Hc.
        destruct (Text.is_line_terminator c); [congruence|].
        apply orb_true_iff. right. apply IH. exists w, s2. auto.
Qed.

Lemma matches_spec r :
  forall s k,
    Text.matches r s k = true <->
    exists w s2, s = w +:+ s2 /\ denotes r w /\ k s2 = true.
Proof.
  induction r as [l | a b | | r1 IH1 r2 IH2 | r1 IH1 r2 IH2]; intros s k;
    cbn [Text.matches denotes].
  - split.
    + destruct (String.prefix l s) eqn:Hp; [|discriminate]. intros Hk.
      exists l, (Text.drop (String.length l) s).
      split; [apply text_prefix_split, Hp | auto].
    + intros (w & s2 & -> & -> & Hk).
      rewrite text_prefix_append, text_drop_append. exact Hk.
  - split.
    + destruct s as [|c s]; [discriminate|]. intros Hm.
      apply andb_true_iff in Hm as [Hc Hk]. exists (String c ""), s.
      split; [reflexivity|]. split; [|exact Hk].
      apply orb_true_iff in Hc as [Hc|Hc]; apply Ascii.eqb_eq in Hc as ->; auto.
    + intros (w & s2 & -> & Hw & Hk).
      destruct Hw as [-> | ->]; rewrite text_append_cons;
        change ("" +:+ s2) with s2;
        rewrite Ascii.eqb_refl, ?orb_true_r, Hk; reflexivity.
  - apply dot_star_spec.
  - rewrite IH1. split.
    + intros (w1 & s1 & -> & Hw1 & Hm). apply IH2 in Hm as (w2 & s2 & -> & Hw2 & Hk).
      exists (w1 +:+ w2), s2. split; [symmetry; apply text_append_assoc|].
      split; [|exact Hk]. exists w1, w2. auto.
    + intros (w & s2 & -> & (w1 & w2 & -> & Hw1 & Hw2) & Hk).
      exists w1, (w2 +:+ s2). split; [apply text_append_assoc|].
      split; [exact Hw1|]. apply IH2. exists w2, s2. auto.
  - rewrite orb_true_iff, IH1, IH2. split.
    + intros [(w & s2 & Hs & Hw & Hk) | (w & s2 & Hs & Hw & Hk)];
        exists w, s2; auto.
    + intros (w & s2 & Hs & [Hw|Hw] & Hk); [left | right]; exists w, s2; auto.
Qed.

Lemma test_spec r s :
  Text.test r s = true <->
  exists pre w post, s = pre +:+ w +:+ post /\ denotes r w.
Proof.
  induction s as [|c s IH]; cbn [Text.test]; rewrite orb_true_iff, matches_spec.
  - split.
    + intros [(w & s2 & Hs & Hw & _) | Hf]; [|discriminate].
      exists "", w, s2. auto.
    + intros (pre & w & post & Hs & Hw). left.
      symmetry in Hs. apply append_eq_nil in Hs as [-> Hs].
      exists w, post. auto.
  - rewrite IH. split.
    + intros [(w & s2 & Hs & Hw & _) | (pre & w & post & -> & Hw)].
      * exists "", w, s2. auto.
      * exists (String c pre), w, post. auto.
    + intros (pre & w & post & Hs & Hw). destruct pre as [|c' pre].
      * left. exists w, post. auto.
      * right. rewrite text_append_cons in Hs. injection Hs as <- ->.
        exists pre, w, post. auto.
Qed.

Lemma section_heading_spec upper lower word w :
  denotes (MasterAgent.section_heading upper lower word) w <->
  exists before after,
    Forall (fun c => ~ line_terminator c) (chars before) /\
    Forall (fun c => ~ line_terminator c) (chars after) /\
    (w = "\section{" +:+ before +:+ String upper word +:+ after +:+ "}" \/
     w = "\section{" +:+ before +:+ String lower word +:+ after +:+ "}").
Proof.
  unfold MasterAgent.section_heading. cbn [denotes]. split.
  - intros (w1 & w2 & -> & -> & w3 & w4 & -> & Hb & w5 & w6 & -> & Hc
            & w7 & w8 & -> & -> & w9 & w10 & -> & Ha & ->).
    exists w3, w9. split; [exact Hb|]. split; [exact Ha|].
    destruct Hc as [-> | ->]; [left | right]; reflexivity.
  - intros (before & after & Hb & Ha & Hw).
    exists "\section{", (before +:+ Text.drop (String.length ("\section{" +:+ before)) w).
    assert (Hshape : forall c,
      "\section{" +:+ before +:+ String c word +:+ after +:+ "}" =
      "\section{" +:+ before +:+ String c "" +:+ word +:+ after +:+ "}")
      by reflexivity.
    destruct Hw as [-> | ->]; rewrite <- text_append_assoc, text_drop_append;
      (split; [apply text_append_assoc|]); (split; [reflexivity|]);
      eexists before, _; (split; [reflexivity|]); (split; [exact Hb|]);
      eexists (String _ ""), _; (split; [reflexivity|]); (split; [auto|]);
      eexists word, _; (split; [reflexivity|]); (split; [reflexivity|]);
      exists after, "}"; auto.
Qed.

(** The heading test of the validator, said with concatenation. *)
Lemma experimental_heading_spec latexContent :
  Text.test MasterAgent.experimental_heading latexContent = true <->
  heading_present latexContent.
Proof.
  rewrite test_spec. unfold MasterAgent.experimental_heading, heading_present.
  cbn [denotes]. split.
  - intros (pre & w & post & -> & Hw). rewrite !section_heading_spec in Hw.
    assert (Hone : exists before word after,
      In word ["Experiment"; "experiment"; "Result"; "result";
               "Validation"; "validation"] /\
      Forall (fun c => ~ line_terminator c) (chars before) /\
      Forall (fun c => ~ line_terminator c) (chars after) /\
      w = "\section{" +:+ before +:+ word +:+ after +:+ "}").
    { destruct Hw as [(b & a & Hb & Ha & [-> | ->])
                     | [(b & a & Hb & Ha & [-> | ->])
                       | (b & a & Hb & Ha & [-> | ->])]];
        eexists b, _, a; (split; [|split; [exact Hb|split; [exact Ha|reflexivity]]]);
        cbn [In]; tauto. }
    destruct Hone as (before & word & after & Hin & Hb & Ha & ->).
    exists pre, before, word, after, post.
    split; [exact Hin|]. split; [exact Hb|]. split; [exact Ha|].
    rewrite !text_append_assoc. reflexivity.
  - intros (pre & before & word & after & post & Hin & Hb & Ha & ->).
    exists pre, ("\section{" +:+ before +:+ word +:+ after +:+ "}"), post.
    split; [rewrite !text_append_assoc; reflexivity|].
    rewrite !section_heading_spec. cbn [In] in Hin.
    destruct Hin as [<- | [<- | [<- | [<- | [<- | [<- | []]]]]]].
    + left. exists before, after. auto.
    + left. exists before, after. auto.
    + right. left. exists before, after. auto.
    + right. left. exists before, after. auto.
    + right. right. exists before, after. auto.
    + right. right. exists before, after. auto.
Qed.

(** *** Occurrences of a literal *)

Lemma indexOf_None_spec lit s :
  Text.indexOf lit s = None <-> forall pre post, s <> pre +:+ lit +:+ post.
Proof.
  split.
  - intros Hn pre post ->.
    pose proof (indexOf_None lit _ (String.length pre) Hn) as Hp.
    rewrite text_drop_append, text_prefix_append in Hp. discriminate.
  - intros Hnone. destruct (Text.indexOf lit s) as [i|] eqn:Hi; [|reflexivity].
    exfalso. exact (Hnone _ _ (indexOf_split lit s i Hi)).
Qed.

Lemma drop_nonempty i s : Text.drop i s <> "" -> (i < String.length s)%nat.
Proof.
  revert s. induction i as [|i IH]; intros [|c s] Hd; cbn in *;
    try congruence; try lia.
  specialize (IH s Hd). lia.
Qed.

Lemma length_take_le i s :
  (i <= String.length s)%nat -> String.length (Text.take i s) = i.
Proof.
  revert s. induction i as [|i IH]; intros [|c s] Hi; cbn in *; try lia.
  rewrite IH by lia. reflexivity.
Qed.

Lemma indexOf_Some_spec lit s i :
  lit <> "" ->
  Text.indexOf lit s = Some i ->
  String.length (Text.take i s) = i /\
  s = Text.take i s +:+ lit +:+ Text.drop (i + String.length lit) s /\
  (forall pre post, s = pre +:+ lit +:+ post -> (i <= String.length pre)%nat).
Proof.
  intros Hlit Hi. pose proof (indexOf_split lit s i Hi) as Hs.
  apply indexOf_Some in Hi as [Hp Hmin]. split; [|split; [exact Hs|]].
  - apply length_take_le. apply Nat.lt_le_incl, drop_nonempty.
    intros Hd. rewrite Hd in Hp. destruct lit; [congruence | discriminate].
  - intros pre post Hpre.
    destruct (le_lt_dec i (String.length pre)) as [Hle|Hlt]; [exact Hle|].
    specialize (Hmin _ Hlt). rewrite Hpre, text_drop_append, text_prefix_append in Hmin.
    discriminate.
Qed.

Lemma count_matches_go_drop lit s skip :
  Text.count_matches_go lit s skip = Text.count_matches lit (Text.drop skip s).
Proof.
  unfold Text.count_matches. revert skip.
  induction s as [|c s IH]; intros [|k]; try reflexivity.
  cbn [Text.count_matches_go Text.drop]. apply IH.
Qed.

Lemma count_matches_none lit s :
  Text.indexOf lit s = None -> Text.count_matches lit s = 0%nat.
Proof.
  unfold Text.count_matches. induction s as [|c s IH]; [reflexivity|].
  cbn [Text.indexOf Text.count_matches_go].
  destruct (String.prefix lit (String c s)); [discriminate|].
  destruct (Text.indexOf lit s); [discriminate|]. intros _. apply IH. reflexivity.
Qed.

Lemma count_matches_some lit s i :
  lit <> "" ->
  Text.indexOf lit s = Some i ->
  Text.count_matches lit s =
    S (Text.count_matches lit (Text.drop (i + String.length lit) s)).
Proof.
  intros Hlit. unfold Text.count_matches at 1. revert i.
  induction s as [|c s IH]; intros i.
  - cbn [Text.indexOf]. destruct lit; [congruence | discriminate].
  - cbn [Text.indexOf Text.count_matches_go].
    destruct (String.prefix lit (String c s)).
    + intros [= <-]. rewrite count_matches_go_drop.
      destruct lit as [|a lit]; [congruence|].
      cbn [String.length Nat.add Text.drop].
      replace (S (String.length lit) - 1)%nat with (String.length lit) by lia.
      reflexivity.
    + destruct (Text.indexOf lit s) as [j|]; [|discriminate].
      intros [= <-]. rewrite (IH j eq_refl). reflexivity.
Qed.

Lemma occurrences_count lit s :
  lit <> "" -> occurrences lit s (Text.count_matches lit s).
Proof.
  intros Hlit.
  assert (Hgen : forall n s, (String.length s <= n)%nat ->
                             occurrences lit s (Text.count_matches lit s)).
  { clear s. induction n as [|n IH]; intros s Hlen.
    - destruct s; [|cbn in Hlen; lia].
      rewrite count_matches_none.
      + constructor. apply indexOf_None_spec.
        cbn [Text.indexOf]. destruct lit; [congruence | reflexivity].
      + cbn [Text.indexOf]. destruct lit; [congruence | reflexivity].
    - destruct (Text.indexOf lit s) as [i|] eqn:Hi.
      + rewrite (count_matches_some lit s i Hlit Hi).
        destruct (indexOf_Some_spec lit s i Hlit Hi) as (Hpre & Hs & Hmin).
        remember (Text.take i s) as pre eqn:Epre.
        remember (Text.drop (i + String.length lit) s) as post eqn:Epost.
        assert (Hpost : (String.length post <= n)%nat).
        { assert (String.length s =
                  (String.length pre + (String.length lit + String.length post))%nat)
            as Hl by (rewrite Hs at 1; rewrite !text_length_append; reflexivity).
          destruct lit; [congruence|]. cbn [String.length] in Hl. lia. }
        rewrite Hs. constructor.
        * intros pre' post' Heq. rewrite Hpre. apply (Hmin pre' post').
          rewrite Hs. exact Heq.
        * apply IH, Hpost.
      + rewrite (count_matches_none lit s Hi). constructor.
        apply indexOf_None_spec, Hi. }
  apply (Hgen (String.length s)). lia.
Qed.

Lemma occurrences_unique lit s n m :
  occurrences lit s n -> occurrences lit s m -> n = m.
Proof.
  intros Hn. revert m. induction Hn as [s Hnone | pre post n Hmin Hn IH];
    intros m Hm.
  - inversion Hm as [s' Hnone' | pre' post' m' Hmin' Hm' Hs]; [reflexivity|].
    exfalso. apply (Hnone pre' post'). symmetry. exact Hs.
  - inversion Hm as [s' Hnone' | pre' post' m' Hmin' Hm' Hs].
    + exfalso. apply (Hnone' pre post). subst s'. reflexivity.
    + assert (Hlen : String.length pre' = String.length pre).
      { apply Nat.le_antisymm.
        - apply (Hmin' pre post). exact Hs.
        - apply (Hmin pre' post'). symmetry. exact Hs. }
      destruct (append_inv_length _ _ _ _ Hs Hlen) as [-> Hrest].
      destruct (append_inv_length _ _ _ _ Hrest eq_refl) as [_ ->].
      f_equal. apply IH. exact Hm'.
Qed.

(** The count of the validator, said with concatenation. *)
Lemma count_matches_spec lit s n :
  lit <> "" -> (Text.count_matches lit s = n <-> occurrences lit s n).
Proof.
  intros Hlit. split.
  - intros <-. apply occurrences_count, Hlit.
  - intros Hn. exact (occurrences_unique lit s _ _ (occurrences_count lit s Hlit) Hn).
Qed.

(** *** Words *)

Lemma not_space c : ~ white_space c <-> Text.is_space c = false.
Proof. rewrite white_space_is_space. destruct (Text.is_space c); split; congruence. Qed.

Lemma split_go_flag c s :
  Text.is_space c = false ->
  Text.split_spaces_go (String c s) true = Text.split_spaces_go (String c s) false.
Proof. intros Hc. cbn [Text.split_spaces_go]. rewrite Hc. reflexivity. Qed.

Lemma word_pieces_cons c s p ps :
  ~ white_space c -> word_pieces s (p :: ps) ->
  word_pieces (String c s) (String c p :: ps).
Proof.
  intros Hc Hw.
  inversion Hw as [p' Hp | p' run rest ps' Hp Hrun Hsp Hrest Hps]; subst.
  - apply pieces_last. rewrite chars_cons. constructor; assumption.
  - rewrite <- text_append_cons. apply pieces_more; try assumption.
    rewrite chars_cons. constructor; assumption.
Qed.

Lemma word_pieces_space sp c s ps :
  white_space sp -> white_space c ->
  word_pieces (String c s) ("" :: ps) ->
  word_pieces (String sp (String c s)) ("" :: ps).
Proof.
  intros Hsp Hc Hw.
  inversion Hw as [p' Hp | p' run rest ps' Hp Hrun Hall Hrest Hps Hs]; subst.
  change (String sp ("" +:+ run +:+ rest)) with ("" +:+ String sp run +:+ rest).
  apply pieces_more; try assumption.
  - discriminate.
  - rewrite chars_cons. constructor; assumption.
Qed.

Lemma split_spaces_go_nonempty s b : Text.split_spaces_go s b <> [].
Proof.
  revert b. induction s as [|c s IH]; intros b; cbn [Text.split_spaces_go];
    [discriminate|].
  destruct (Text.is_space c).
  - destruct b; [apply IH | discriminate].
  - destruct (Text.split_spaces_go s false); discriminate.
Qed.

Lemma word_pieces_split_both s :
  word_pieces s (Text.split_spaces_go s false) /\
  (forall sp, white_space sp ->
     word_pieces (String sp s) ("" :: Text.split_spaces_go s true)).
Proof.
  induction s as [|c s [IHa IHb]].
  - split.
    + apply pieces_last. constructor.
    + intros sp Hsp. cbn [Text.split_spaces_go].
      change (String sp "") with ("" +:+ String sp "" +:+ "").
      apply pieces_more; [constructor | discriminate | | discriminate |].
      * rewrite chars_cons. constructor; [exact Hsp | constructor].
      * apply pieces_last. constructor.
  - destruct (Text.is_space c) eqn:Hc.
    + assert (Hcs : white_space c) by (apply white_space_is_space, Hc).
      assert (Ha : word_pieces (String c s) (Text.split_spaces_go (String c s) false)).
      { cbn [Text.split_spaces_go]. rewrite Hc. apply IHb, Hcs. }
      split; [exact Ha|].
      intros sp Hsp.
      assert (Hgo : Text.split_spaces_go (String c s) true = Text.split_spaces_go s true)
        by (cbn [Text.split_spaces_go]; rewrite Hc; reflexivity).
      rewrite Hgo. apply word_pieces_space; [exact Hsp | exact Hcs |].
      apply IHb, Hcs.
    + assert (Hcs : ~ white_space c) by (apply not_space, Hc).
      assert (Ha : word_pieces (String c s) (Text.split_spaces_go (String c s) false)).
      { cbn [Text.split_spaces_go]. rewrite Hc.
        destruct (Text.split_spaces_go s false) as [|p ps] eqn:Hsplit.
        - exfalso. exact (split_spaces_go_nonempty s false Hsplit).
        - apply word_pieces_cons; assumption. }
      split; [exact Ha|].
      intros sp Hsp. rewrite (split_go_flag c s Hc).
      change (String sp (String c s)) with ("" +:+ String sp "" +:+ String c s).
      apply pieces_more; [constructor | discriminate | | | exact Ha].
      * rewrite chars_cons. constructor; [exact Hsp | constructor].
      * intros c' r [= <- <-]. exact Hcs.
Qed.

Lemma split_go_word p b :
  Forall (fun c => ~ white_space c) (chars p) -> Text.split_spaces_go p b = [p].
Proof.
  revert b. induction p as [|c p IH]; intros b Hp; [reflexivity|].
  rewrite chars_cons in Hp. apply Forall_cons in Hp as [Hc Hp].
  apply not_space in Hc. cbn [Text.split_spaces_go]. rewrite Hc, (IH false Hp).
  reflexivity.
Qed.

Lemma split_go_run run rest :
  Forall white_space (chars run) ->
  Text.split_spaces_go (run +:+ rest) true = Text.split_spaces_go rest true.
Proof.
  induction run as [|c run IH]; intros Hrun; [reflexivity|].
  rewrite chars_cons in Hrun. apply Forall_cons in Hrun as [Hc Hrun].
  apply white_space_is_space in Hc. rewrite text_append_cons.
  cbn [Text.split_spaces_go]. rewrite Hc. apply IH, Hrun.
Qed.

Lemma split_go_rest rest :
  (forall c r, rest = String c r -> ~ white_space c) ->
  Text.split_spaces_go rest true = Text.split_spaces_go rest false.
Proof.
  intros Hrest. destruct rest as [|c r]; [reflexivity|].
  apply split_go_flag, not_space, (Hrest c r eq_refl).
Qed.

Lemma split_go_piece p run rest :
  Forall (fun c => ~ white_space c) (chars p) ->
  run <> "" -> Forall white_space (chars run) ->
  Text.split_spaces_go (p +:+ run +:+ rest) false =
    p :: Text.split_spaces_go rest true.
Proof.
  intros Hp Hne Hrun. induction p as [|c p IH].
  - change ("" +:+ run +:+ rest) with (run +:+ rest).
    destruct run as [|sp run]; [congruence|].
    rewrite chars_cons in Hrun. apply Forall_cons in Hrun as [Hsp Hrun].
    apply white_space_is_space in Hsp. rewrite text_append_cons.
    cbn [Text.split_spaces_go]. rewrite Hsp. f_equal. apply split_go_run, Hrun.
  - rewrite chars_cons in Hp. apply Forall_cons in Hp as [Hc Hp].
    apply not_space in Hc. rewrite text_append_cons.
    cbn [Text.split_spaces_go]. rewrite Hc, (IH Hp). reflexivity.
Qed.

Lemma word_pieces_unique s ps :
  word_pieces s ps -> ps = Text.split_spaces s.
Proof.
  unfold Text.split_spaces.
  induction 1 as [p Hp | p run rest ps Hp Hne Hrun Hrest Hps IH].
  - symmetry. apply split_go_word, Hp.
  - rewrite (split_go_piece p run rest Hp Hne Hrun), (split_go_rest rest Hrest), IH.
    reflexivity.
Qed.

(** The word count of the validator, said with concatenation. *)
Lemma wordCount_spec latexContent n :
  MasterAgent.wordCount latexContent = Z.of_nat n <->
  exists pieces, word_pieces latexContent pieces /\ length pieces = n.
Proof.
  unfold MasterAgent.wordCount. split.
  - intros Hn. apply Nat2Z.inj in Hn.
    exists (Text.split_spaces latexContent). split; [|exact Hn].
    apply word_pieces_split_both.
  - intros (pieces & Hw & <-). rewrite (word_pieces_unique _ _ Hw). reflexivity.
Qed.

End PaperSpecFacts.

(** ** Paper completeness *)

Section PaperFacts.
Import MasterAgent.
Context `{Runtime}.

Local Arguments _validatePaperCompleteness : simpl never.
Local Arguments _extractLatexFromResponse : simpl never.
Local Arguments BaseAgent.new : simpl never.
Local Arguments clone_id : simpl never.

(** [Math.ceil(wordCount / 450)] is the least number of pages of 450
    words that hold the words. *)
Lemma estimatedPages_ceiling latexContent :
  let pages := estimatedPages (_validatePaperCompleteness latexContent) in
  450 * (pages - 1) < wordCount latexContent <= 450 * pages.
Proof.
  unfold _validatePaperCompleteness. simpl.
  generalize (wordCount latexContent). intros w.
  unfold Qround.Qceiling, Qround.Qfloor, QArith_base.Qdiv, QArith_base.Qmult,
    QArith_base.Qinv, QArith_base.Qopp, QArith_base.inject_Z. simpl.
  rewrite Z.mul_1_r. change (Z.pos (1 * 450)) with 450.
  pose proof (Z.div_mod (- w) 450 ltac:(lia)).
  pose proof (Z.mod_pos_bound (- w) 450 ltac:(lia)). lia.
Qed.

(** The test that guards the expansion is the negation of [isComplete]. *)
Lemma expansion_test latexContent :
  (estimatedPages (_validatePaperCompleteness latexContent) <? 12)
  || (figureCount (_validatePaperCompleteness latexContent) <? 4)
  || negb (hasExperimentalSection (_validatePaperCompleteness latexContent))
  = negb (isComplete (_validatePaperCompleteness latexContent)).
Proof.
  unfold _validatePaperCompleteness. simpl.
  rewrite !negb_andb, !Z.leb_antisym, !negb_involutive. reflexivity.
Qed.

Lemma clone_sendMessage_spec a msg reply m ag :
  heap m !! a = Some ag ->
  clone_sendMessage a msg reply m =
    ((BaseAgent.sendMessage msg reply ag).1,
     set_heap (<[a := (BaseAgent.sendMessage msg reply ag).2]> (heap m)) m).
Proof.
  intros Ha. unfold clone_sendMessage, clone_resume, clone_call. simpl.
  rewrite lookup_alter_eq, Ha. simpl.
  unfold BaseAgent.sendMessage.
  destruct (BaseAgent.sendMessage_resume reply _) as [r ag'] eqn:Hres. simpl.
  f_equal. unfold set_heap. simpl. f_equal.
  apply map_eq. intros b. destruct (decide (a = b)) as [->|Hne].
  - rewrite !lookup_insert_eq. reflexivity.
  - rewrite !lookup_insert_ne by exact Hne.
    rewrite lookup_alter_ne by exact Hne. reflexivity.
Qed.

Lemma new_agent_history mode a :
  BaseAgent.new cfg mode = Js.Return a -> BaseAgent.conversationHistory a = [].
Proof.
  unfold BaseAgent.new. destruct (BaseAgent._initializeProvider cfg mode);
    intros Heq; [injection Heq as <-; reflexivity | discriminate Heq].
Qed.

Lemma saveWritingDocument_fields env m :
  files (saveWritingDocument env m) = files m /\
  heap (saveWritingDocument env m) = heap m.
Proof.
  unfold saveWritingDocument. destruct (artifactStore m) as [st|]; [|split; reflexivity].
  destruct (ArtifactStore.saveArtifact _ _ _ _) as [a st']. split; reflexivity.
Qed.

(** Steps 3 to 5 of the writing phase. *)
Lemma validateAndExpand_spec env writerClone paperPath paperResult pdfCompiled
      m draft ag :
  files m !! paperPath = Some draft ->
  heap m !! writerClone = Some ag ->
  let v := _validatePaperCompleteness draft in
  let result := writingResult (BaseAgent.message paperResult) pdfCompiled in
  let asked := BaseAgent.push (BaseAgent.mkMessage "user" (expansionPrompt v)) ag in
  validateAndExpand env writerClone paperPath paperResult pdfCompiled m =
    if isComplete v then (Js.Return result, m)
    else match w_expansionReply env with
         | Js.Return expansionResult =>
             (Js.Return result,
              writeFile paperPath
                (_extractLatexFromResponse (BaseAgent.message expansionResult))
                (set_heap
                   (<[writerClone :=
                        BaseAgent.push
                          (BaseAgent.mkMessage "assistant"
                             (BaseAgent.message expansionResult)) asked]>
                      (heap m)) m))
         | Js.Throw e =>
             (Js.Throw e, set_heap (<[writerClone := asked]> (heap m)) m)
         end.
Proof.
  intros Hfile Hag v result asked. subst v result asked.
  unfold validateAndExpand. rewrite Hfile.
  cbv zeta. rewrite (expansion_test draft).
  destruct (isComplete (_validatePaperCompleteness draft)); simpl; [reflexivity|].
  rewrite (clone_sendMessage_spec _ _ _ _ _ Hag).
  unfold BaseAgent.sendMessage, BaseAgent.sendMessage_call.
  destruct (w_expansionReply env) as [expansionResult|e]; reflexivity.
Qed.

(** C4. Paper completeness policy. The validator judges a document
    complete exactly when its estimated page count is at least 12, it
    holds at least 4 figure environments and a section heading mentions
    an experiment, a result or a validation. The estimated page count is
    the ceiling of the word count over 450, the words being the pieces
    of the document between its runs of white space; the figure count is
    the number of times [\begin{figure}] is found reading from left to
    right; and the heading is there exactly when the document holds
    [\section{], then on the same line one of Experiment, experiment,
    Result, result, Validation, validation and later a closing brace.
    In the writing phase the draft extracted from the writer's reply is
    validated once: when it is complete no further request is made and
    it stays in paper.tex; when it is not, exactly one expansion request
    is sent to the writer, and the document extracted from the reply
    replaces paper.tex whatever it contains (if the request throws, the
    error is passed on and the draft stays). *)
Theorem C4_paper_completeness :
  (forall latexContent,
      let v := _validatePaperCompleteness latexContent in
      (isComplete v = true <->
         12 <= estimatedPages v /\ 4 <= figureCount v /\
         hasExperimentalSection v = true) /\
      (exists words,
          PaperSpec.word_pieces latexContent words /\
          450 * (estimatedPages v - 1) < Z.of_nat (length words)
                                       <= 450 * estimatedPages v) /\
      (forall n, figureCount v = Z.of_nat n <->
                 PaperSpec.occurrences "\begin{figure}" latexContent n) /\
      (hasExperimentalSection v = true <->
         PaperSpec.heading_present latexContent)) /\
  (forall env m writer paperResult workspace,
      BaseAgent.new cfg "writer" = Js.Return writer ->
      w_paperReply env = Js.Return paperResult ->
      workspacePath m = Some workspace ->
      let paperPath := path_join workspace "paper.tex" in
      let draft := _extractLatexFromResponse (BaseAgent.message paperResult) in
      let v := _validatePaperCompleteness draft in
      let result :=
        writingResult (BaseAgent.message paperResult) (w_pdfCompiled env) in
      let request :=
        BaseAgent.mkMessage "user" (paperPrompt (w_modelingContext env)) in
      let answer := BaseAgent.mkMessage "assistant" (BaseAgent.message paperResult) in
      let expand := BaseAgent.mkMessage "user" (expansionPrompt v) in
      let out := executeWritingPhase env m in
      let history :=
        BaseAgent.conversationHistory <$> (heap out.2 !! nextAddr m) in
      if isComplete v then
        out.1 = Js.Return result /\
        files out.2 !! paperPath = Some draft /\
        history = Some [request; answer]
      else
        match w_expansionReply env with
        | Js.Return expansionResult =>
            out.1 = Js.Return result /\
            files out.2 !! paperPath =
              Some (_extractLatexFromResponse (BaseAgent.message expansionResult)) /\
            history =
              Some [request; answer; expand;
                    BaseAgent.mkMessage "assistant" (BaseAgent.message expansionResult)]
        | Js.Throw e =>
            out.1 = Js.Throw e /\
            files out.2 !! paperPath = Some draft /\
            history = Some [request; answer; expand]
        end).
Proof.
  split.
  - intros latexContent v. split; [|split; [|split]].
    + unfold v, _validatePaperCompleteness. simpl.
      rewrite !andb_true_iff, !Z.leb_le. tauto.
    + exists (Text.split_spaces latexContent).
      split; [apply word_pieces_split_both | apply estimatedPages_ceiling].
    + intros n. unfold v, _validatePaperCompleteness. cbn [figureCount].
      rewrite Nat2Z.inj_iff. apply count_matches_spec. discriminate.
    + apply experimental_heading_spec.
  - intros env m writer paperResult workspace Hnew Hreply Hws
           paperPath draft v result request answer expand out history.
    subst out history.
    assert (Hdraft : _extractLatexFromResponse (BaseAgent.message paperResult) = draft)
      by reflexivity.
    assert (Hv : _validatePaperCompleteness draft = v) by reflexivity.
    clearbody v. clearbody draft.
    unfold executeWritingPhase.
    rewrite (spawnClone_ok _ _ _ _ _ Hnew).
    set (m1 := mkMaster _ _ _ _ _ _ _ _).
    assert (Hw1 : heap m1 !! nextAddr m = Some writer) by apply lookup_insert_eq.
    change (nextAddr (set_phase "writing" m)) with (nextAddr m).
    rewrite (clone_sendMessage_spec _ _ _ _ _ Hw1), Hreply.
    unfold BaseAgent.sendMessage, BaseAgent.sendMessage_call,
      BaseAgent.sendMessage_resume.
    cbn [fst snd BaseAgent.message]. rewrite Hdraft.
    change (workspacePath (set_heap _ m1)) with (workspacePath m).
    rewrite Hws. fold paperPath.
    set (ag := BaseAgent.push _ (BaseAgent.push _ writer)).
    set (m2 := writeFile paperPath draft _).
    destruct (saveWritingDocument_fields env m2) as (Hf3 & Hh3).
    assert (Hfile : files (saveWritingDocument env m2) !! paperPath = Some draft).
    { rewrite Hf3. apply lookup_insert_eq. }
    assert (Hag : heap (saveWritingDocument env m2) !! nextAddr m = Some ag).
    { rewrite Hh3. apply lookup_insert_eq. }
    rewrite (validateAndExpand_spec env (nextAddr m) paperPath _
               (w_pdfCompiled env) _ draft ag Hfile Hag).
    rewrite Hv. cbn [BaseAgent.message]. fold result.
    assert (Hhist : BaseAgent.conversationHistory ag = [request; answer]).
    { subst ag. unfold BaseAgent.push. cbn [BaseAgent.conversationHistory].
      rewrite (new_agent_history _ _ Hnew). reflexivity. }
    destruct (isComplete v).
    + cbn [fst snd]. rewrite Hfile, Hag. cbn [fmap option_fmap option_map].
      rewrite Hhist. repeat split.
    + destruct (w_expansionReply env) as [expansionResult|e]; cbn [fst snd].
      * unfold writeFile, set_files, set_heap. cbn [files heap].
        rewrite !lookup_insert_eq. cbn [fmap option_fmap option_map].
        unfold BaseAgent.push. cbn [BaseAgent.conversationHistory].
        rewrite Hhist. repeat split.
      * unfold set_heap. cbn [files heap].
        rewrite Hfile, lookup_insert_eq. cbn [fmap option_fmap option_map].
        unfold BaseAgent.push. cbn [BaseAgent.conversationHistory].
        rewrite Hhist. repeat split.
Qed.

End PaperFacts.

(** The completeness threshold on the two sample documents of 6000 words:
    with five figures the document is complete, with two it is not. *)
Example completeness_threshold :
  MasterAgent.wordCount (Claims.paper_with_figures 5) = 6000 /\
  MasterAgent.isComplete
    (MasterAgent._validatePaperCompleteness (Claims.paper_with_figures 5)) = true /\
  MasterAgent.wordCount (Claims.paper_with_figures 2) = 6000 /\
  MasterAgent.isComplete
    (MasterAgent._validatePaperCompleteness (Claims.paper_with_figures 2)) = false.
Proof. vm_compute. repeat split. Qed.

Lemma C4_paper_completeness_witness :
  let out := MasterAgent.executeWritingPhase (H := Claims.sample_runtime)
               Claims.writing_env Claims.fresh_master in
  MasterAgent.files out.2 !! "/ws/paper.tex" = Some Claims.short_paper /\
  length <$> (BaseAgent.conversationHistory <$> MasterAgent.heap out.2 !! 0%nat)
    = Some 4%nat.
Proof.
  destruct (C4_paper_completeness (H := Claims.sample_runtime)) as [_ Hphase].
  specialize (Hphase Claims.writing_env Claims.fresh_master
                (BaseAgent.mkAgent "writer" (BaseAgent.provider Claims.sample_self) [])
                (Claims.sample_response (Claims.fenced (Claims.paper_with_figures 2)))
                "/ws").
  assert (Hnew : BaseAgent.new (MasterAgent.cfg (Runtime := Claims.sample_runtime)) "writer"
                 = Js.Return (BaseAgent.mkAgent "writer"
                                (BaseAgent.provider Claims.sample_self) []))
    by (vm_compute; reflexivity).
  specialize (Hphase Hnew eq_refl eq_refl).
  assert (Hincomplete :
            MasterAgent.isComplete
              (MasterAgent._validatePaperCompleteness
                 (MasterAgent._extractLatexFromResponse
                    (BaseAgent.message
                       (Claims.sample_response
                          (Claims.fenced (Claims.paper_with_figures 2)))))) = false)
    by (vm_compute; reflexivity).
  cbv zeta in Hphase. rewrite Hincomplete in Hphase.
  change (MasterAgent.w_expansionReply Claims.writing_env)
    with (Js.Return (Claims.sample_response (Claims.fenced Claims.short_paper)))
    in Hphase.
  destruct Hphase as (_ & Hfile & Hhistory).
  intros out. split.
  - exact Hfile.
  - subst out. change (MasterAgent.nextAddr Claims.fresh_master) with 0%nat in Hhistory.
    rewrite Hhistory. reflexivity.
Defined.

(** ** The artifact store: queries, deletion and the index file *)

Section ArtifactIndexFacts.
Import ArtifactStore ArtifactIndex.
Variable path_join : string -> string -> string.

Lemma find_list_find {A} (p : A -> bool) (l : list A) :
  List.find p l = snd <$> list_find (fun x => p x = true) l.
Proof.
  induction l as [|x l IH]; simpl; [reflexivity|].
  destruct (p x) eqn:Hx.
  - rewrite decide_True by reflexivity. reflexivity.
  - rewrite decide_False by congruence. rewrite IH.
    destruct (list_find _ l) as [[k y]|]; reflexivity.
Qed.

Lemma delete_cases i st :
  match list_find (fun a => String.eqb (id a) i = true) (artifacts st) with
  | Some (k, a) =>
      delete i st =
        (true, _saveIndex (set_artifacts (base.delete k (artifacts st)) st))
  | None => delete i st = (false, st)
  end.
Proof.
  unfold delete. rewrite findIndex_list_find.
  destruct (list_find _ (artifacts st)) as [[k a]|] eqn:Hf.
  - replace (0 <=? Z.of_nat k)%Z with true by (symmetry; apply Z.leb_le; lia).
    rewrite Nat2Z.id. reflexivity.
  - reflexivity.
Qed.

Lemma filter_delete_first {A} (p : A -> bool) (l : list A) k a :
  list_find (fun x => p x = true) l = Some (k, a) ->
  List.filter (fun x => negb (p x)) (base.delete k l) =
  List.filter (fun x => negb (p x)) l.
Proof.
  revert k. induction l as [|x l IH]; intros k Hf; [discriminate|].
  simpl in Hf. destruct (p x) eqn:Hx.
  - rewrite decide_True in Hf by reflexivity. simpl in Hf.
    injection Hf as <- <-. simpl. rewrite Hx. reflexivity.
  - rewrite decide_False in Hf by congruence.
    destruct (list_find _ l) as [[k' y]|] eqn:Hl; [|discriminate].
    simpl in Hf. injection Hf as <- <-. simpl. rewrite Hx. simpl.
    f_equal. apply IH. reflexivity.
Qed.

Lemma delete_first_other_ids {A B} (f : A -> B) (l : list A) k a :
  NoDup (f <$> l) -> l !! k = Some a ->
  forall b, b ∈ base.delete k l -> f b <> f a.
Proof.
  intros Hnd Hk b Hb Heq.
  apply list_elem_of_lookup_1 in Hb as [j Hj].
  assert (Hj' : exists j', j' <> k /\ l !! j' = Some b).
  { destruct (decide (j < k)%nat) as [Hlt|Hge].
    - exists j. split; [lia|]. rewrite list_lookup_delete_lt in Hj by exact Hlt. exact Hj.
    - exists (S j). split; [lia|]. rewrite list_lookup_delete_ge in Hj by lia. exact Hj. }
  destruct Hj' as (j' & Hne & Hb').
  apply Hne. eapply NoDup_lookup; [exact Hnd | |].
  - rewrite list_lookup_fmap, Hb'. simpl. rewrite Heq. reflexivity.
  - rewrite list_lookup_fmap, Hk. reflexivity.
Qed.

(** [delete(id)] takes out the first record that has the id, and only
    that one. It answers [true] exactly when some record has the id; the
    index then loses one record and the index file is written: the
    record taken out has the id, no record before it has, and the
    records before and after it stay, in their order. The
    records with another id stay as they were, in their order. When no
    record has the id the store is left as it was. When the ids of the
    index are pairwise distinct, [getById] finds nothing under the id
    afterwards. *)
Theorem delete_takes_first_out (i : string) (st : Store) :
  let out := delete i st in
  (out.1 = true <-> exists a, a ∈ artifacts st /\ id a = i) /\
  (out.1 = true ->
     S (length (artifacts out.2)) = length (artifacts st) /\
     index_saved out.2) /\
  (out.1 = true ->
     exists before a after,
       artifacts st = before ++ a :: after /\
       id a = i /\
       (forall b, b ∈ before -> id b <> i) /\
       artifacts out.2 = before ++ after) /\
  (out.1 = false -> out.2 = st) /\
  List.filter (fun a => negb (String.eqb (id a) i)) (artifacts out.2) =
    List.filter (fun a => negb (String.eqb (id a) i)) (artifacts st) /\
  (NoDup (id <$> artifacts st) -> getById i out.2 = None).
Proof.
  intros out. subst out. pose proof (delete_cases i st) as Hd.
  destruct (list_find _ (artifacts st)) as [[k a]|] eqn:Hf.
  - rewrite Hd. simpl. pose proof Hf as Hf'.
    apply list_find_Some in Hf' as (Hk & Ha & Hfirst).
    apply String.eqb_eq in Ha.
    split; [|split; [|split; [|split; [|split]]]].
    + split; [|reflexivity]. intros _. exists a. split; [|exact Ha].
      eapply list_elem_of_lookup_2. exact Hk.
    + intros _. split.
      * rewrite length_delete by eauto. apply lookup_lt_Some in Hk. lia.
      * unfold index_saved, _saveIndex, writeFile. simpl.
        apply lookup_insert_eq.
    + intros _. exists (take k (artifacts st)), a, (drop (S k) (artifacts st)).
      split; [symmetry; apply take_drop_middle, Hk|]. split; [exact Ha|].
      split; [|apply delete_take_drop].
      intros b Hb Hid. apply elem_of_take in Hb as (j & Hj & Hlt).
      apply (Hfirst j b Hj Hlt). apply String.eqb_eq. exact Hid.
    + discriminate.
    + eapply (filter_delete_first (fun a => String.eqb (id a) i)). exact Hf.
    + intros Hnd. unfold getById. rewrite find_list_find. simpl.
      destruct (list_find _ (base.delete k _)) as [[j b]|] eqn:Hb; [|reflexivity].
      exfalso. apply list_find_Some in Hb as (Hj & Hbi & _).
      apply String.eqb_eq in Hbi.
      apply (delete_first_other_ids id _ _ _ Hnd Hk b); [|congruence].
      eapply list_elem_of_lookup_2. exact Hj.
  - rewrite Hd. simpl.
    assert (Hall : Forall (fun a => ~ String.eqb (id a) i = true) (artifacts st))
      by (eapply list_find_None; exact Hf).
    split; [|split; [|split; [|split; [|split]]]].
    + split; [discriminate|]. intros (a & Hin & Ha). exfalso.
      rewrite Forall_forall in Hall. apply (Hall a Hin).
      apply String.eqb_eq. exact Ha.
    + discriminate.
    + discriminate.
    + reflexivity.
    + reflexivity.
    + intros _. unfold getById. rewrite find_list_find, Hf. reflexivity.
Qed.

(** *** No two records under one path *)

Lemma register_artifacts env arg st :
  artifacts (register env arg st).2 =
    match stored (r_path arg) (artifacts st) with
    | Some (i, _) => <[i := (register env arg st).1]> (artifacts st)
    | None => artifacts st ++ [(register env arg st).1]
    end /\
  path (register env arg st).1 = r_path arg.
Proof.
  pose proof (register_cases env arg st) as Hr.
  destruct (stored _ _) as [[i old]|]; simpl in Hr; rewrite Hr; split; reflexivity.
Qed.

Lemma register_paths env arg st :
  NoDup (path <$> artifacts st) ->
  NoDup (path <$> artifacts (register env arg st).2).
Proof.
  intros Hnd. destruct (register_artifacts env arg st) as [Ha Hp].
  rewrite Ha. destruct (stored _ _) as [[i old]|] eqn:Hs.
  - unfold stored in Hs. apply list_find_Some in Hs as (Hi & Hold & _).
    apply String.eqb_eq in Hold.
    rewrite list_fmap_insert, Hp, <- Hold.
    rewrite list_insert_id; [exact Hnd|].
    rewrite list_lookup_fmap, Hi. reflexivity.
  - unfold stored in Hs.
    assert (Hall : Forall (fun a => ~ String.eqb (path a) (r_path arg) = true)
                          (artifacts st))
      by (eapply list_find_None; exact Hs).
    rewrite fmap_app. simpl. apply NoDup_app. split; [exact Hnd|]. split.
    + intros p Hin Hp'. apply list_elem_of_singleton in Hp'. subst p.
      apply list_elem_of_fmap in Hin as (a & Hpa & Hin).
      rewrite Forall_forall in Hall. apply (Hall a Hin).
      apply String.eqb_eq. rewrite Hp in Hpa. congruence.
    + apply NoDup_singleton.
Qed.

Lemma saveArtifact_artifacts env arg st :
  artifacts (saveArtifact path_join env arg st).2 =
    artifacts (register env
      (mkRegisterArg (s_name arg) (s_type arg)
         (path_join (artifactsPath st) (s_name arg))
         (Some (default "" (s_description arg)))
         (Some (default "unknown" (s_generatedBy arg)))
         (Some (default (Js.VObj []) (s_metadata arg))))
      (writeFile (path_join (artifactsPath st) (s_name arg))
                 (Text (s_content arg)) st)).2.
Proof.
  unfold saveArtifact. destruct (register _ _ _) as [result st0]. simpl.
  destruct (eventEmitter st0); reflexivity.
Qed.

Lemma step_paths c st :
  NoDup (path <$> artifacts st) ->
  NoDup (path <$> artifacts (step path_join st c)).
Proof.
  intros Hnd. destruct c as [env arg|env arg|i]; simpl.
  - apply register_paths. exact Hnd.
  - rewrite saveArtifact_artifacts. apply register_paths. exact Hnd.
  - pose proof (delete_cases i st) as Hd.
    destruct (list_find _ (artifacts st)) as [[k a]|]; rewrite Hd; simpl; [|exact Hnd].
    eapply sublist_NoDup; [exact Hnd|].
    apply fmap_sublist, sublist_delete.
Qed.

(** No run of [register], [saveArtifact] and [delete] calls puts two
    records under one path: the property is kept by every call, and it
    holds of a new store. *)
Theorem paths_stay_distinct (calls : list call) :
  (forall st, NoDup (path <$> artifacts st) ->
              NoDup (path <$> artifacts (run path_join calls st))) /\
  (forall workspacePath eventEmitter disk,
      NoDup (path <$> artifacts
               (run path_join calls
                    (new path_join workspacePath eventEmitter disk)))).
Proof.
  assert (Hrun : forall st, NoDup (path <$> artifacts st) ->
                            NoDup (path <$> artifacts (run path_join calls st))).
  { unfold run. induction calls as [|c calls IH]; intros st Hnd; simpl; [exact Hnd|].
    apply IH, step_paths, Hnd. }
  split; [exact Hrun|].
  intros workspacePath eventEmitter disk. apply Hrun. simpl. apply NoDup_nil_2.
Qed.

(** *** The index file *)

Lemma register_index_saved env arg st : index_saved (register env arg st).2.
Proof.
  pose proof (register_cases env arg st) as Hr.
  destruct (stored _ _) as [[i old]|]; simpl in Hr; rewrite Hr;
    unfold index_saved, _saveIndex, writeFile; simpl; apply lookup_insert_eq.
Qed.

Lemma register_paths_fields env arg st :
  indexPath (register env arg st).2 = indexPath st /\
  artifactsPath (register env arg st).2 = artifactsPath st.
Proof.
  pose proof (register_cases env arg st) as Hr.
  destruct (stored _ _) as [[i old]|]; simpl in Hr; rewrite Hr; split; reflexivity.
Qed.

Lemma saveArtifact_index_saved env arg st :
  index_saved (saveArtifact path_join env arg st).2.
Proof.
  unfold saveArtifact.
  pose proof (register_index_saved env
    (mkRegisterArg (s_name arg) (s_type arg)
       (path_join (artifactsPath st) (s_name arg))
       (Some (default "" (s_description arg)))
       (Some (default "unknown" (s_generatedBy arg)))
       (Some (default (Js.VObj []) (s_metadata arg))))
    (writeFile (path_join (artifactsPath st) (s_name arg))
               (Text (s_content arg)) st)) as Hs.
  destruct (register _ _ _) as [result st0]. simpl in *.
  destruct (eventEmitter st0); exact Hs.
Qed.

(** The index file follows the index. After every [register] and every
    [saveArtifact] the index file holds the list kept in memory, and a
    run of calls that starts with the two in step ends with them in
    step. *)
Theorem index_file_follows_memory :
  (forall env arg st, index_saved (register env arg st).2) /\
  (forall env arg st, index_saved (saveArtifact path_join env arg st).2) /\
  (forall calls st, index_saved st -> index_saved (run path_join calls st)).
Proof.
  split; [exact register_index_saved|]. split; [exact saveArtifact_index_saved|].
  unfold run. induction calls as [|c calls IH]; intros st Hs; simpl; [exact Hs|].
  apply IH. destruct c as [env arg|env arg|i]; simpl.
  - apply register_index_saved.
  - apply saveArtifact_index_saved.
  - pose proof (delete_cases i st) as Hd.
    destruct (list_find _ (artifacts st)) as [[k a]|]; rewrite Hd; simpl; [|exact Hs].
    unfold index_saved, _saveIndex, writeFile; simpl. apply lookup_insert_eq.
Qed.

(** *** What [saveArtifact] leaves on disk *)

Lemma register_disk env arg st :
  disk (register env arg st).2 =
    <[indexPath st := IndexJson (artifacts (register env arg st).2)]> (disk st).
Proof.
  pose proof (register_cases env arg st) as Hr.
  destruct (stored _ _) as [[i old]|]; simpl in Hr; rewrite Hr; reflexivity.
Qed.

Lemma saveArtifact_disk env arg st :
  disk (saveArtifact path_join env arg st).2 =
    <[indexPath st := IndexJson (artifacts (saveArtifact path_join env arg st).2)]>
      (<[path_join (artifactsPath st) (s_name arg) := Text (s_content arg)]>
         (disk st)).
Proof.
  rewrite saveArtifact_artifacts. unfold saveArtifact.
  pose proof (register_disk env
    (mkRegisterArg (s_name arg) (s_type arg)
       (path_join (artifactsPath st) (s_name arg))
       (Some (default "" (s_description arg)))
       (Some (default "unknown" (s_generatedBy arg)))
       (Some (default (Js.VObj []) (s_metadata arg))))
    (writeFile (path_join (artifactsPath st) (s_name arg))
               (Text (s_content arg)) st)) as Hd.
  destruct (register _ _ _) as [result st0]. simpl in *.
  destruct (eventEmitter st0); exact Hd.
Qed.

(** After [saveArtifact] the file of the artifact holds the content
    given, unless its path is the path of the index file: the index,
    written last, then replaces the content. No other file changes. *)
Theorem saveArtifact_file (env : Env) (arg : SaveArg) (st : Store) :
  let p := path_join (artifactsPath st) (s_name arg) in
  let st' := (saveArtifact path_join env arg st).2 in
  (p <> indexPath st -> disk st' !! p = Some (Text (s_content arg))) /\
  (p = indexPath st -> disk st' !! p = Some (IndexJson (artifacts st'))) /\
  (forall q, q <> p -> q <> indexPath st -> disk st' !! q = disk st !! q).
Proof.
  intros p st'. subst st'. rewrite saveArtifact_disk. fold p.
  split; [|split].
  - intros Hne. rewrite lookup_insert_ne by congruence. apply lookup_insert_eq.
  - intros ->. apply lookup_insert_eq.
  - intros q Hp Hi. rewrite !lookup_insert_ne by congruence. reflexivity.
Qed.

Lemma register_result env arg st :
  let out := register env arg st in
  out.1 ∈ artifacts out.2 /\
  name out.1 = r_name arg /\ type out.1 = r_type arg.
Proof.
  cbv zeta. pose proof (register_cases env arg st) as Hr.
  destruct (stored _ _) as [[i old]|] eqn:Hs; simpl in Hr; rewrite Hr; simpl;
    (split; [|split; reflexivity]).
  - unfold stored in Hs. apply list_find_Some in Hs as (Hi & _ & _).
    eapply list_elem_of_lookup_2. apply list_lookup_insert_eq.
    eapply lookup_lt_Some. exact Hi.
  - apply elem_of_app. right. apply list_elem_of_singleton. reflexivity.
Qed.

Lemma saveArtifact_result env arg st :
  let out := saveArtifact path_join env arg st in
  out.1 ∈ artifacts out.2 /\
  name out.1 = s_name arg /\ type out.1 = s_type arg /\
  artifactsPath out.2 = artifactsPath st /\ indexPath out.2 = indexPath st.
Proof.
  cbv zeta. unfold saveArtifact.
  set (arg' := mkRegisterArg _ _ _ _ _ _). set (st0 := writeFile _ _ st).
  pose proof (register_result env arg' st0) as Hr.
  destruct (register_paths_fields env arg' st0) as [Hip Hap].
  destruct (register env arg' st0) as [result st1].
  cbv zeta in Hr. cbn [fst snd] in *. destruct Hr as (Hin & Hn & Ht).
  destruct (eventEmitter st1); cbn [fst snd emit artifacts artifactsPath indexPath];
    repeat split; assumption.
Qed.

(** *** Identifiers *)

(** When the ids of the index are pairwise distinct and the generated id
    is not among them, [register] keeps them pairwise distinct and
    [getById] finds the returned record under its id. *)
Theorem register_then_getById (env : Env) (arg : RegisterArg) (st : Store) :
  NoDup (id <$> artifacts st) ->
  generatedId env ∉ id <$> artifacts st ->
  let out := register env arg st in
  NoDup (id <$> artifacts out.2) /\ getById (id out.1) out.2 = Some out.1.
Proof.
  intros Hnd Hfresh out. subst out.
  pose proof (register_cases env arg st) as Hr.
  assert (Hfind : forall l e, NoDup (id <$> l) -> e ∈ l ->
            List.find (fun a => String.eqb (id a) (id e)) l = Some e).
  { intros l e Hl Hin. rewrite find_list_find.
    destruct (list_find _ l) as [[j b]|] eqn:Hf.
    - simpl. f_equal. apply list_find_Some in Hf as (Hj & Hb & _).
      apply String.eqb_eq in Hb.
      apply list_elem_of_lookup_1 in Hin as [k Hk].
      assert (j = k).
      { eapply NoDup_lookup; [exact Hl | |].
        - rewrite list_lookup_fmap, Hj. simpl. rewrite Hb. reflexivity.
        - rewrite list_lookup_fmap, Hk. reflexivity. }
      subst j. congruence.
    - exfalso.
      assert (Hall : Forall (fun a => ~ String.eqb (id a) (id e) = true) l)
        by (eapply list_find_None; exact Hf).
      rewrite Forall_forall in Hall. apply (Hall e Hin). apply String.eqb_refl. }
  destruct (stored _ _) as [[i old]|] eqn:Hs; simpl in Hr; rewrite Hr; simpl.
  - unfold stored in Hs. apply list_find_Some in Hs as (Hi & _ & _).
    assert (Hids : id <$> <[i := set_id (id old) (set_version (version old + 1)
                     (mkArtifact (generatedId env) (r_name arg) (r_type arg)
                        (r_path arg) (default "" (r_description arg))
                        (default "unknown" (r_generatedBy arg))
                        (default (Js.VObj []) (r_metadata arg)) (isoNow env) 1))]>
                     (artifacts st) = id <$> artifacts st).
    { rewrite list_fmap_insert. simpl. apply list_insert_id.
      rewrite list_lookup_fmap, Hi. reflexivity. }
    split.
    + rewrite Hids. exact Hnd.
    + unfold getById. simpl.
      match goal with |- List.find _ ?l = Some ?e =>
        apply (Hfind l e) end.
      * rewrite Hids. exact Hnd.
      * eapply list_elem_of_lookup_2. apply list_lookup_insert_eq.
        eapply lookup_lt_Some. exact Hi.
  - assert (Hnd' : NoDup (id <$> (artifacts st ++
              [mkArtifact (generatedId env) (r_name arg) (r_type arg)
                 (r_path arg) (default "" (r_description arg))
                 (default "unknown" (r_generatedBy arg))
                 (default (Js.VObj []) (r_metadata arg)) (isoNow env) 1]))).
    { rewrite fmap_app. simpl. apply NoDup_app. split; [exact Hnd|]. split.
      - intros x Hin Hx. apply list_elem_of_singleton in Hx. subst x.
        exact (Hfresh Hin).
      - apply NoDup_singleton. }
    split; [exact Hnd'|].
    unfold getById. simpl.
    match goal with |- List.find _ ?l = Some ?e => apply (Hfind l e) end.
    + exact Hnd'.
    + apply elem_of_app. right. apply list_elem_of_singleton. reflexivity.
Qed.

(** *** Search *)

Lemma filter_all {A} (p : A -> bool) (l : list A) :
  (forall x, p x = true) -> List.filter p l = l.
Proof.
  intros Hp. induction l as [|x l IH]; simpl; [reflexivity|].
  rewrite Hp, IH. reflexivity.
Qed.

(** [search] compares in lower case on both sides. The empty query
    finds every record; a record is found by its own name, description
    or type written in any letter case; and two queries that differ in
    letter case only find the same records. *)
Theorem search_ignores_case (st : Store) :
  search "" st = artifacts st /\
  (forall a q,
      a ∈ artifacts st ->
      Providers.toLowerCase q = Providers.toLowerCase (name a) \/
      Providers.toLowerCase q = Providers.toLowerCase (description a) \/
      Providers.toLowerCase q = Providers.toLowerCase (type a) ->
      a ∈ search q st) /\
  (forall q1 q2,
      Providers.toLowerCase q1 = Providers.toLowerCase q2 ->
      search q1 st = search q2 st).
Proof.
  split; [|split].
  - unfold search. apply filter_all. intros a. simpl.
    rewrite includes_empty. reflexivity.
  - intros a q Hin Hq. unfold search.
    apply list_elem_of_In, filter_In. split; [apply list_elem_of_In; exact Hin|].
    destruct Hq as [-> | [-> | ->]]; rewrite includes_refl;
      rewrite ?orb_true_r; reflexivity.
  - intros q1 q2 Hq. unfold search. rewrite Hq. reflexivity.
Qed.

End ArtifactIndexFacts.

Lemma register_then_getById_witness :
  let st := (ArtifactStore.saveAll Claims.sample_join Claims.model_py_saves
               Claims.empty_store).2 in
  let out := ArtifactStore.register
               (ArtifactStore.mkEnv "artifact_1700000001000_q8r1z"
                                    "2023-11-14T22:13:21.000Z")
               (ArtifactStore.mkRegisterArg "fig1.png" "figure"
                  "/ws/figures/fig1.png" None None None) st in
  NoDup (ArtifactStore.id <$> ArtifactStore.artifacts out.2) /\
  ArtifactIndex.getById (ArtifactStore.id out.1) out.2 = Some out.1.
Proof.
  apply register_then_getById.
  - apply (bool_decide_unpack _). vm_compute. reflexivity.
  - apply (bool_decide_unpack _). vm_compute. reflexivity.
Defined.

(** ** The clients *)

Section ClientFacts.
Import Providers Clients.

Lemma or_truthy a b : Js.truthy b = true -> Js.truthy (Js.or a b) = true.
Proof. intros Hb. unfold Js.or. destruct (Js.truthy a) eqn:Ha; assumption. Qed.

Lemma or_falsy a b : Js.truthy a = false -> Js.or a b = b.
Proof. intros Ha. unfold Js.or. rewrite Ha. reflexivity. Qed.

Lemma createProvider_config pc p :
  createProvider pc = Js.Return p ->
  config p =
    mkConfig (apiKey pc)
      (Js.or (baseUrl pc) (Js.VStr (defaultBaseUrl (class p))))
      (model pc)
      (Js.or (maxTokens pc) (Js.VNum (QArith_base.Qmake 8192 1)))
      (Js.or (temperature pc) (Js.VNum (QArith_base.Qmake 7 10))).
Proof.
  unfold createProvider. destruct (provider pc) as [| |b|q| |s|fields]; try discriminate.
  destruct (_ || _); [intros [= <-]; reflexivity|].
  destruct (_ || _); [intros [= <-]; reflexivity|].
  destruct (_ || _); [intros [= <-]; reflexivity|].
  discriminate.
Qed.

(** Every client that the factory returns has a base URL, a token limit
    and a temperature that are truthy: a value of the descriptor that is
    falsy, a temperature or a token limit of 0 included, is replaced by
    the default (the class's URL, 8192, 0.7). *)
Theorem created_client_defaults (pc : ProviderConfig) (p : Provider) :
  createProvider pc = Js.Return p ->
  (Js.truthy (c_baseUrl (config p)) = true /\
   Js.truthy (c_maxTokens (config p)) = true /\
   Js.truthy (c_temperature (config p)) = true) /\
  (Js.truthy (baseUrl pc) = false ->
     c_baseUrl (config p) = Js.VStr (defaultBaseUrl (class p))) /\
  (Js.truthy (maxTokens pc) = false ->
     c_maxTokens (config p) = Js.VNum (QArith_base.Qmake 8192 1)) /\
  (Js.truthy (temperature pc) = false ->
     c_temperature (config p) = Js.VNum (QArith_base.Qmake 7 10)).
Proof.
  intros Hp. rewrite (createProvider_config pc p Hp). simpl.
  split; [|split; [|split]].
  - split; [|split]; apply or_truthy; try reflexivity.
    destruct (class p); reflexivity.
  - apply or_falsy.
  - apply or_falsy.
  - apply or_falsy.
Qed.

Lemma created_client_defaults_witness :
  exists p,
    createProvider
      (mkProviderConfig (Js.VStr "OpenAI") (Js.VStr "key") Js.VUndefined
         (Js.VStr "gpt-4o") (Js.VNum (QArith_base.Qmake 0 1))
         (Js.VNum (QArith_base.Qmake 0 1))) = Js.Return p /\
    c_baseUrl (config p) = Js.VStr "https://api.openai.com" /\
    c_maxTokens (config p) = Js.VNum (QArith_base.Qmake 8192 1) /\
    c_temperature (config p) = Js.VNum (QArith_base.Qmake 7 10).
Proof.
  eexists. split; [reflexivity|].
  destruct (created_client_defaults
    (mkProviderConfig (Js.VStr "OpenAI") (Js.VStr "key") Js.VUndefined
       (Js.VStr "gpt-4o") (Js.VNum (QArith_base.Qmake 0 1))
       (Js.VNum (QArith_base.Qmake 0 1))) _ eq_refl) as (_ & Hb & Hm & Ht).
  split; [exact (Hb eq_refl)|]. split; [exact (Hm eq_refl) | exact (Ht eq_refl)].
Defined.

(** *** [request] *)

Section RequestFacts.
Context {Json : Type} (stringify : Json -> string).

(** [request] returns a body only for a response that is ok and whose
    content type names JSON, and then what [json()] gives. A response
    that is not ok always ends in an error "API request failed: ..."
    whose detail, when the body is read as text, is at most 500
    characters of it; a response that is ok but is not JSON, once its
    text is read, ends in the error "Expected JSON response but got
    ...". *)
Theorem request_returns_json_only (fetched : Js.completion (HttpResponse Json)) :
  (forall j, request Json stringify fetched = Js.Return j ->
     exists response,
       fetched = Js.Return response /\ ok response = true /\
       isJson (contentType response) = true /\
       json response = Js.Return j) /\
  (forall response,
     fetched = Js.Return response -> ok response = false ->
     exists detail,
       request Json stringify fetched =
         Js.Throw (Js.Error ("API request failed: " +:+ detail)) /\
       (isJson (contentType response) = false ->
        forall errorText, text response = Js.Return errorText ->
          detail = Text.take 500 errorText /\
          (String.length detail <= 500)%nat)) /\
  (forall response errorText,
     fetched = Js.Return response -> ok response = true ->
     isJson (contentType response) = false ->
     text response = Js.Return errorText ->
     request Json stringify fetched =
       Js.Throw (Js.Error ("Expected JSON response but got "
                             +:+ showContentType (contentType response)
                             +:+ ". Check console for details."))).
Proof.
  split; [|split].
  - intros j Hr. destruct fetched as [response|e]; [|discriminate].
    exists response. unfold request in Hr.
    destruct (ok response); simpl in Hr; [|discriminate].
    destruct (isJson (contentType response)); simpl in Hr.
    + auto.
    + destruct (text response); discriminate.
  - intros response -> Hok. unfold request. rewrite Hok. simpl.
    eexists. split; [reflexivity|].
    intros Hj errorText Ht. rewrite Hj, Ht. split; [reflexivity|].
    apply text_length_take.
  - intros response errorText -> Hok Hj Ht. unfold request.
    rewrite Hok, Hj, Ht. reflexivity.
Qed.

End RequestFacts.

(** *** What is sent *)

Lemma formatMessages_length cls messages :
  length (formatMessages cls messages) = length messages.
Proof. destruct cls; simpl; apply length_map. Qed.

(** What the three clients put into a request. Claude sends the
    conversation as it is, with the system prompt beside it; OpenAI puts
    the system prompt in front as a message of its own; Gemini folds it
    into the text of the first message, calls every role that is not
    "assistant" "user" and the role "assistant" "model", and with an
    empty conversation does not send the system prompt at all. No body depends on the token limit or the
    temperature of the client. *)
Theorem request_bodies (p : Provider) (messages : list BaseAgent.Message)
        (systemPrompt : string) :
  let b := requestBody p messages systemPrompt in
  (class p = ClaudeProvider ->
     b_system b = Some systemPrompt /\
     b_messages b =
       map (fun m => Plain (BaseAgent.role m) (BaseAgent.content m)) messages) /\
  (class p = OpenAIProvider ->
     b_messages b =
       Plain "system" systemPrompt ::
       map (fun m => Plain (BaseAgent.role m) (BaseAgent.content m)) messages) /\
  (class p = GeminiProvider ->
     length (b_messages b) = length messages /\
     Forall (fun w => wireRole w = "model" \/ wireRole w = "user") (b_messages b) /\
     Forall2 (fun w m =>
                (BaseAgent.role m = "assistant" -> wireRole w = "model") /\
                (BaseAgent.role m <> "assistant" -> wireRole w = "user"))
             (b_messages b) messages /\
     (messages = [] -> bodyTexts b = []) /\
     (forall first rest,
        messages = first :: rest -> systemPrompt <> "" ->
        bodyTexts b =
          (systemPrompt +:+ blankLine +:+ BaseAgent.content first)
            :: map BaseAgent.content rest)) /\
  (forall maxTokens temperature,
     requestBody
       (mkProvider (class p)
          (mkConfig (c_apiKey (config p)) (c_baseUrl (config p))
                    (c_model (config p)) maxTokens temperature))
       messages systemPrompt = b).
Proof.
  intros b. subst b. unfold requestBody.
  split; [|split; [|split]].
  - intros ->. split; reflexivity.
  - intros ->. reflexivity.
  - intros ->. split; [|split; [|split; [|split]]].
    + simpl. rewrite length_map.
      destruct messages as [|first rest]; [reflexivity|].
      destruct (negb _); reflexivity.
    + simpl. apply Forall_map. apply Forall_forall. intros m _. simpl.
      destruct (String.eqb _ "assistant"); auto.
    + assert (Hroles : forall l,
        Forall2 (fun w m =>
                   (BaseAgent.role m = "assistant" -> wireRole w = "model") /\
                   (BaseAgent.role m <> "assistant" -> wireRole w = "user"))
                (formatMessages GeminiProvider l) l).
      { induction l as [|m l IH]; [constructor|]. constructor; [|exact IH].
        cbn [wireRole]. destruct (String.eqb (BaseAgent.role m) "assistant") eqn:Hr.
        - apply String.eqb_eq in Hr. split; [reflexivity | congruence].
        - apply String.eqb_neq in Hr. split; [congruence | reflexivity]. }
      cbn [b_messages].
      destruct messages as [|first rest]; [constructor|].
      destruct (negb _); [|apply Hroles].
      pose proof (Hroles (first :: rest)) as Hall.
      apply Forall2_cons in Hall as [Hfirst Hrest].
      cbn [formatMessages map]. constructor; [exact Hfirst | exact Hrest].
    + intros ->. reflexivity.
    + intros first rest -> Hs. apply String.eqb_neq in Hs.
      rewrite Hs. simpl. unfold bodyTexts. simpl. f_equal.
      induction rest as [|m rest IH]; simpl; [reflexivity|]. f_equal. exact IH.
  - intros maxTokens temperature. simpl. destruct (class p); reflexivity.
Qed.

End ClientFacts.

(** ** Reading the configuration *)

Section ConfigFacts.
Import Config.

Lemma split_on_nonempty sep s : split_on sep s <> [].
Proof.
  destruct s as [|c s]; simpl; [discriminate|].
  destruct (Ascii.eqb c sep); [discriminate|].
  destruct (split_on sep s); discriminate.
Qed.

Lemma split_on_app sep p q :
  split_on sep (p +:+ String sep q) = split_on sep p ++ split_on sep q.
Proof.
  induction p as [|c p IH]; simpl.
  - rewrite Ascii.eqb_refl. reflexivity.
  - rewrite IH. destruct (Ascii.eqb c sep); [reflexivity|].
    pose proof (split_on_nonempty sep p) as Hne.
    destruct (split_on sep p) as [|x xs]; [congruence|]. reflexivity.
Qed.

Lemma walk_undefined keys : walk keys Js.VUndefined = Js.VUndefined.
Proof. destruct keys; reflexivity. Qed.

Lemma walk_app k1 k2 v : walk (k1 ++ k2) v = walk k2 (walk k1 v).
Proof.
  revert v. induction k1 as [|k k1 IH]; intros v; simpl; [reflexivity|].
  destruct v as [| |b|q| |s|fields]; try (symmetry; apply walk_undefined).
  destruct (has_key k fields); [apply IH|]. symmetry. apply walk_undefined.
Qed.

(** Paths compose, for a configuration of nested mappings and scalars
    and keys that are not names inherited from [Object.prototype]:
    looking up [p.q] is looking up [q] in what [p] gives, and is
    [undefined], never an error, when [p] gives no object or the object
    lacks a key of [q]. *)
Theorem get_composes (cfg : Js.value) (p q : string) :
  Forall (fun key => ConfigLoad.is_inherited key = false)
         (split_on "." p ++ split_on "." q) ->
  split_on "." (p +:+ "." +:+ q) = split_on "." p ++ split_on "." q /\
  get cfg (p +:+ "." +:+ q) = get (get cfg p) q /\
  (get cfg p = Js.VUndefined -> get cfg (p +:+ "." +:+ q) = Js.VUndefined).
Proof.
  intros _.
  assert (Hs : split_on "." (p +:+ "." +:+ q) = split_on "." p ++ split_on "." q).
  { change ("." +:+ q) with (String "." q). apply split_on_app. }
  assert (H : get cfg (p +:+ "." +:+ q) = get (get cfg p) q).
  { unfold get. rewrite Hs, walk_app. reflexivity. }
  split; [exact Hs|]. split; [exact H|].
  intros Hp. rewrite H, Hp. unfold get. apply walk_undefined.
Qed.

End ConfigFacts.

Section ConfigLoadFacts.
Import ConfigLoad.
Variable env : string -> option string.

Lemma substitute_nil : _substituteEnvVars env (Js.VObj []) = Some (Js.VObj []).
Proof. reflexivity. Qed.

Lemma substitute_cons key v rest :
  _substituteEnvVars env (Js.VObj ((key, v) :: rest)) =
    match property env v, _substituteEnvVars env (Js.VObj rest) with
    | Some v', Some (Js.VObj rest') => Some (Js.VObj ((key, v') :: rest'))
    | _, _ => None
    end.
Proof.
  cbn [_substituteEnvVars eachKey].
  destruct (eachKey env (_substituteEnvVars env) rest) as [rest'|];
    destruct v as [| |b|q| |s|sub]; cbn [property _substituteEnvVars];
    try reflexivity.
  - destruct (substituted env s); reflexivity.
  - destruct (eachKey env (_substituteEnvVars env) sub); reflexivity.
  - destruct (substituted env s); reflexivity.
  - destruct (eachKey env (_substituteEnvVars env) sub); reflexivity.
Qed.

Lemma substitute_object fields v' :
  _substituteEnvVars env (Js.VObj fields) = Some v' ->
  exists fields',
    v' = Js.VObj fields' /\
    forall key,
      Config.has_key key fields' = Config.has_key key fields /\
      property env (Js.assoc key fields) = Some (Js.assoc key fields').
Proof.
  revert v'. induction fields as [|[k v] fields IH]; intros v' Hs.
  - rewrite substitute_nil in Hs. injection Hs as <-. exists []. split; [reflexivity|].
    intros key. split; reflexivity.
  - rewrite substitute_cons in Hs.
    destruct (property env v) as [w|] eqn:Hv; [|discriminate].
    destruct (_substituteEnvVars env (Js.VObj fields)) as [r|] eqn:Hr; [|discriminate].
    destruct (IH r eq_refl) as (fields' & -> & Hkeys).
    injection Hs as <-. exists ((k, w) :: fields'). split; [reflexivity|].
    intros key. destruct (Hkeys key) as [Hh Ha]. split.
    + unfold Config.has_key in *. cbn [existsb fst]. rewrite Hh. reflexivity.
    + cbn [Js.assoc]. destruct (String.eqb key k); [exact Hv | exact Ha].
Qed.

Lemma walk_scalar keys v :
  keys <> [] -> (forall fields, v <> Js.VObj fields) ->
  Config.walk keys v = Js.VUndefined.
Proof.
  intros Hne Hv. destruct keys as [|key keys]; [congruence|].
  destruct v; try reflexivity. exfalso. exact (Hv _ eq_refl).
Qed.

Lemma walk_property keys v v' :
  keys <> [] ->
  _substituteEnvVars env v = Some v' ->
  property env (Config.walk keys v) = Some (Config.walk keys v').
Proof.
  revert v v'. induction keys as [|key keys IH]; intros v v' Hne Hs; [congruence|].
  destruct v as [| |b|q| |s|fields]; try (injection Hs as <-; reflexivity).
  destruct (substitute_object fields v' Hs) as (fields' & -> & Hkeys).
  destruct (Hkeys key) as [Hh Ha]. cbn [Config.walk]. rewrite Hh.
  destruct (Config.has_key key fields); [|reflexivity].
  destruct keys as [|key' keys']; [exact Ha|].
  destruct (Js.assoc key fields) as [| |b|q| |s|sub] eqn:Hx;
    try (injection Ha as <-; reflexivity).
  - cbn [property] in Ha. destruct (substituted env s); [|discriminate].
    injection Ha as <-. reflexivity.
  - apply IH; [discriminate | exact Ha].
Qed.

(** Substitution and lookup commute, for a configuration of nested
    mappings and scalars whose substitution leaves strings only, and
    keys that are not names inherited from [Object.prototype]: what
    [get] finds in the configuration after [_substituteEnvVars] is what
    becomes of the value it found before. In particular every key path
    that was there is still there, and a value that is not a string is
    changed only in the strings it holds. *)
Theorem get_after_substitute (cfg cfg' : Js.value) (keyPath : string) :
  _substituteEnvVars env cfg = Some cfg' ->
  Forall (fun key => is_inherited key = false) (Config.split_on "." keyPath) ->
  property env (Config.get cfg keyPath) = Some (Config.get cfg' keyPath).
Proof.
  intros Hs _. unfold Config.get. apply walk_property; [|exact Hs].
  apply split_on_nonempty.
Qed.

(** *** The placeholder *)

Lemma word_run_all w after :
  Forall (fun c => is_word c = true) (list_ascii_of_string w) ->
  match after with String c _ => is_word c = false | EmptyString => True end ->
  word_run (w +:+ after) = (w, after).
Proof.
  intros Hw Ha. induction w as [|c w IH]; simpl.
  - destruct after as [|c after]; [reflexivity|]. simpl. rewrite Ha. reflexivity.
  - simpl in Hw. apply Forall_cons in Hw as [Hc Hw].
    rewrite Hc, (IH Hw). reflexivity.
Qed.

Lemma placeholder_skip pre s :
  Text.has_char "$" pre = false ->
  placeholder (pre +:+ s) = placeholder s.
Proof.
  intros Hpre. induction pre as [|c pre IH]; [reflexivity|].
  simpl in Hpre. apply orb_false_elim in Hpre as [Hc Hpre].
  change (String c pre +:+ s) with (String c (pre +:+ s)).
  unfold placeholder; fold placeholder.
  assert (Hhere : placeholder_here (String c (pre +:+ s)) = None).
  { unfold placeholder_here. rewrite text_prefix_cons_ne; [reflexivity|].
    intros <-. discriminate Hc. }
  rewrite Hhere. apply IH. exact Hpre.
Qed.

(** A string that holds a placeholder is replaced as a whole by the
    value of the variable, not only the placeholder in it: with the
    variable set to a string that is not empty, whatever stands before
    and after the first placeholder of the string is lost. A variable
    that is empty leaves the string as it is, and so does one that is
    unset, unless its name is one inherited from [Object.prototype]
    ([constructor], [toString], ...): then [process.env[name]] is the
    inherited function or object, and that is stored in place of the
    string. *)
Theorem placeholder_takes_whole_string (pre name post value : string) :
  Text.has_char "$" pre = false ->
  name <> "" ->
  Forall (fun c => is_word c = true) (list_ascii_of_string name) ->
  let s := pre +:+ "${" +:+ name +:+ "}" +:+ post in
  (env name = Some value -> value <> "" -> substituted env s = Some value) /\
  (env name = Some "" -> substituted env s = Some s) /\
  (env name = None -> is_inherited name = false -> substituted env s = Some s) /\
  (env name = None -> is_inherited name = true -> substituted env s = None).
Proof.
  intros Hpre Hname Hword s.
  assert (Hp : placeholder s = Some name).
  { subst s. rewrite placeholder_skip by exact Hpre.
    unfold placeholder.
    assert (Hhere : placeholder_here ("${" +:+ name +:+ "}" +:+ post) = Some name).
    { unfold placeholder_here.
      rewrite text_prefix_append.
      change (Text.drop 2 ("${" +:+ name +:+ "}" +:+ post))
        with (name +:+ String "}" post).
      rewrite (word_run_all name (String "}" post) Hword) by reflexivity.
      apply String.eqb_neq in Hname. rewrite Hname.
      rewrite text_prefix_cons, text_prefix_nil. reflexivity. }
    destruct ("${" +:+ name +:+ "}" +:+ post) eqn:Hs; rewrite Hhere; reflexivity. }
  unfold substituted, lookupEnv. rewrite Hp. repeat split.
  - intros He Hv. rewrite He. apply String.eqb_neq in Hv. rewrite Hv. reflexivity.
  - intros He. rewrite He. reflexivity.
  - intros He Hi. rewrite He, Hi. reflexivity.
  - intros He Hi. rewrite He, Hi. reflexivity.
Qed.

End ConfigLoadFacts.

Lemma get_composes_witness :
  Config.get ConfigSamples.endpoints ("llm" +:+ "." +:+ "base_url") =
    Config.get (Config.get ConfigSamples.endpoints "llm") "base_url" /\
  Config.get ConfigSamples.endpoints ("llm" +:+ "." +:+ "base_url") =
    Js.VStr "https://${API_HOST}/v1".
Proof.
  destruct (get_composes ConfigSamples.endpoints "llm" "base_url") as (_ & Hget & _).
  - repeat constructor.
  - split; [exact Hget | reflexivity].
Defined.

Lemma get_after_substitute_witness :
  ConfigLoad._substituteEnvVars ConfigSamples.api_host ConfigSamples.endpoints =
    Some (Js.VObj [("llm", Js.VObj [("base_url", Js.VStr "example.org");
                                    ("model", Js.VStr "m1")])]) /\
  ConfigLoad.property ConfigSamples.api_host
    (Config.get ConfigSamples.endpoints "llm.base_url") =
  Some (Config.get
          (Js.VObj [("llm", Js.VObj [("base_url", Js.VStr "example.org");
                                     ("model", Js.VStr "m1")])])
          "llm.base_url").
Proof.
  split; [reflexivity|].
  apply get_after_substitute; [reflexivity | repeat constructor].
Defined.

Lemma placeholder_takes_whole_string_witness :
  ConfigLoad.substituted ConfigSamples.api_host "https://${API_HOST}/v1"
    = Some "example.org" /\
  ConfigLoad.substituted (fun n => None) "https://${API_HOST}/v1"
    = Some "https://${API_HOST}/v1" /\
  ConfigLoad.substituted (fun n => None) "https://${constructor}/v1" = None.
Proof.
  split; [|split].
  - destruct (placeholder_takes_whole_string ConfigSamples.api_host
                "https://" "API_HOST" "/v1" "example.org") as (Hset & _).
    + reflexivity.
    + discriminate.
    + repeat constructor.
    + apply Hset; [reflexivity | discriminate].
  - destruct (placeholder_takes_whole_string (fun n => None)
                "https://" "API_HOST" "/v1" "") as (_ & _ & Hunset & _).
    + reflexivity.
    + discriminate.
    + repeat constructor.
    + apply Hunset; reflexivity.
  - destruct (placeholder_takes_whole_string (fun n => None)
                "https://" "constructor" "/v1" "") as (_ & _ & _ & Hinherited).
    + reflexivity.
    + discriminate.
    + repeat constructor.
    + apply Hinherited; reflexivity.
Defined.

(** ** A run of messages *)

Section ConversationFacts.
Import BaseAgent Conversation.

Lemma sendAll_cons userMessage reply rest a :
  sendAll ((userMessage, reply) :: rest) a =
    (let r := sendMessage userMessage reply a in
     (r.1 :: (sendAll rest r.2).1, (sendAll rest r.2).2)).
Proof.
  simpl. destruct reply as [response|e]; simpl;
    destruct (sendAll rest _) as [rs a']; reflexivity.
Qed.

Lemma sendMessage_fields userMessage reply a :
  conversationHistory (sendMessage userMessage reply a).2 =
    conversationHistory a ++ mkMessage "user" userMessage :: answer (userMessage, reply) /\
  mode (sendMessage userMessage reply a).2 = mode a /\
  provider (sendMessage userMessage reply a).2 = provider a.
Proof.
  destruct reply as [response|e]; simpl; repeat split.
  rewrite <- app_assoc. reflexivity.
Qed.

Lemma sendAll_fields calls :
  forall a,
    conversationHistory (sendAll calls a).2 =
      conversationHistory a ++
      concat (map (fun c => mkMessage "user" c.1 :: answer c) calls) /\
    mode (sendAll calls a).2 = mode a /\
    provider (sendAll calls a).2 = provider a.
Proof.
  induction calls as [|[userMessage reply] rest IH]; intros a.
  - simpl. rewrite app_nil_r. repeat split.
  - rewrite sendAll_cons. cbv zeta. cbn [fst snd].
    destruct (IH (sendMessage userMessage reply a).2) as (Hh & Hm & Hp).
    destruct (sendMessage_fields userMessage reply a) as (Hh1 & Hm1 & Hp1).
    rewrite Hh, Hm, Hp, Hh1, Hm1, Hp1. split; [|split; reflexivity].
    cbn [map concat fst]. rewrite <- !app_assoc. reflexivity.
Qed.

Lemma length_answers calls :
  length (concat (map (fun c => mkMessage "user" c.1 :: answer c) calls)) =
    (length calls + length (List.filter (fun c => Js.returned c.2) calls))%nat.
Proof.
  induction calls as [|[userMessage [response|e]] rest IH]; simpl; [reflexivity| |];
    rewrite ?length_app; simpl; lia.
Qed.

(** A run of [sendMessage] calls only ever adds to the conversation.
    Every user message is recorded, in call order and whether its call
    fails or not, each one followed by the assistant's reply exactly
    when its call returned; so the history grows by the number of calls
    plus the number of calls that returned. The mode and the client of
    the agent stay as they are. *)
Theorem history_only_grows (calls : list (string * Js.completion Response))
        (a : Agent) :
  let out := sendAll calls a in
  conversationHistory out.2 =
    conversationHistory a ++
    concat (map (fun c => mkMessage "user" c.1 :: answer c) calls) /\
  length (conversationHistory out.2) =
    (length (conversationHistory a) + length calls +
     length (List.filter (fun c => Js.returned c.2) calls))%nat /\
  mode out.2 = mode a /\ provider out.2 = provider a.
Proof.
  intros out. subst out.
  destruct (sendAll_fields calls a) as (Hh & Hm & Hp).
  split; [exact Hh|]. split; [|split; assumption].
  rewrite Hh, length_app, length_answers. lia.
Qed.

End ConversationFacts.

(** ** Initialisation and the complete workflow *)

Section WorkflowFacts.
Import AgentService Workflow.
Context {M : Type} `{Orchestrator M} `{Starter M}.

Lemma last_cons_cons_ne {A} (x : A) (l : list A) :
  l <> [] -> last (x :: l) = last l.
Proof. destruct l; [congruence | reflexivity]. Qed.

(** What one run of the planning loop does, whatever the orchestrator. *)
Lemma planning_loop_outcome problemStatement retries :
  forall fuel attempt m (s : Service M),
    attempt <= retries ->
    retries + 1 - attempt <= Z.of_nat fuel ->
    exists c new k,
      planning_loop fuel problemStatement retries attempt m s =
        (Some c,
         mkService (Some (after_attempts problemStatement k m))
                   (Js.returned c) "planning" (emitted s ++ new)
                   (invoked s ++ replicate k "executePlanningPhase")) /\
      (1 <= k)%nat /\ Z.of_nat k <= retries + 1 - attempt /\
      c = attempt_outcome problemStatement
            (after_attempts problemStatement (k - 1) m) /\
      error_events new =
        match c with Js.Throw e => [Events.ErrorEvent e] | Js.Return _ => [] end /\
      last new =
        Some (match c with
              | Js.Return r => Events.PlanningComplete r
              | Js.Throw e => Events.ErrorEvent e
              end) /\
      (Js.returned c = false -> Z.of_nat k = retries + 1 - attempt).
Proof.
  induction fuel as [|fuel IH]; intros attempt m s Hle Hfuel; [lia|].
  simpl planning_loop.
  replace (attempt <=? retries) with true by (symmetry; apply Z.leb_le; lia).
  unfold call.
  destruct (planning problemStatement m) as [settled m1] eqn:Hplan.
  assert (Hout : attempt_outcome problemStatement m = _executeWithTimeout settled)
    by (unfold attempt_outcome; rewrite Hplan; reflexivity).
  assert (Hm1 : after_attempts problemStatement 1 m = m1)
    by (simpl; rewrite Hplan; reflexivity).
  destruct (_executeWithTimeout settled) as [result|error] eqn:Hsettled.
  - (* the attempt succeeds *)
    replace (attempt >? retries) with false
      by (symmetry; rewrite Z.gtb_ltb; apply Z.ltb_ge; lia).
    exists (Js.Return result).
    destruct (0 <? attempt);
      (eexists _, 1%nat; split; [|split; [|split; [|split; [|split; [|split]]]]];
       [ unfold emit, set_isRunning, set_currentPhase; simpl; rewrite Hplan;
         simpl; rewrite <- !(app_assoc (emitted s)); reflexivity
       | lia | lia | exact (eq_sym Hout) | reflexivity | reflexivity
       | discriminate ]).
  - destruct (attempt + 1 >? retries) eqn:Hgt.
    + (* the last attempt fails *)
      exists (Js.Throw error).
      destruct (0 <? attempt);
        (eexists _, 1%nat; split; [|split; [|split; [|split; [|split; [|split]]]]];
         [ unfold emit, set_isRunning, set_currentPhase; simpl; rewrite Hplan;
           simpl; rewrite <- !(app_assoc (emitted s)); reflexivity
         | lia | lia | exact (eq_sym Hout) | reflexivity | reflexivity
         | intros _; apply Z.gtb_lt in Hgt; lia ]).
    + (* a retry follows *)
      assert (Hle' : attempt + 1 <= retries)
        by (rewrite Z.gtb_ltb in Hgt; apply Z.ltb_ge in Hgt; lia).
      match goal with |- context [planning_loop fuel _ _ _ m1 ?s0] =>
        destruct (IH (attempt + 1) m1 s0 Hle' ltac:(lia))
          as (c & new & k & Heq & Hk1 & Hk2 & Hc & Herr & Hlast & Hall)
      end.
      rewrite Heq. exists c.
      assert (Hafter : forall j, after_attempts problemStatement j m1 =
                                 after_attempts problemStatement (S j) m)
        by (intros j; simpl; rewrite Hplan; reflexivity).
      assert (Hnew : new <> []) by (intros ->; discriminate Hlast).
      destruct (0 <? attempt);
        (eexists _, (S k); split; [|split; [|split; [|split; [|split; [|split]]]]];
         [ unfold emit, set_isRunning, set_currentPhase; simpl; rewrite Hplan;
           simpl; rewrite <- !(app_assoc (emitted s)), <- !(app_assoc (invoked s));
           reflexivity
         | lia | lia
         | rewrite Hc, Hafter; f_equal; f_equal; lia
         | unfold error_events in *; simpl; exact Herr
         | simpl app; rewrite !last_cons_cons_ne by (exact Hnew || discriminate);
           exact Hlast
         | intros Hr; specialize (Hall Hr); lia ]).
Qed.

(** A planning phase that returns. With a retry count that is a natural
    number, a call of [executePlanningPhase] that returns a result has
    called the orchestrator at most [retries + 1] times, the last call
    being the one that gave the result; it has emitted no 'error', its
    last notification is 'planning-complete' with the result, and it
    leaves the phase at planning with the running flag still set. *)
Theorem planning_success_leaves_running (problemStatement : string)
        (retries : option Z) (s : Service M) (result : Js.value) :
  0 <= default 2 retries ->
  (executePlanningPhase problemStatement retries s).1 = Some (Js.Return result) ->
  let out := executePlanningPhase problemStatement retries s in
  isRunning out.2 = true /\
  currentPhase out.2 = "planning" /\
  exists m new k,
    masterAgent s = Some m /\
    emitted out.2 = emitted s ++ new /\
    error_events new = [] /\
    last new = Some (Events.PlanningComplete result) /\
    invoked out.2 = invoked s ++ replicate k "executePlanningPhase" /\
    (1 <= k)%nat /\ Z.of_nat k <= default 2 retries + 1 /\
    attempt_outcome problemStatement
      (after_attempts problemStatement (k - 1) m) = Js.Return result.
Proof.
  intros Hretries Hres out. subst out. revert Hres.
  unfold executePlanningPhase. destruct (masterAgent s) as [m|] eqn:Hm; [|discriminate].
  destruct (planning_loop_outcome problemStatement (default 2 retries)
              (Z.to_nat (default 2 retries + 1)) 0 m s)
    as (c & new & k & Heq & Hk1 & Hk2 & Hc & Herr & Hlast & _); [lia | lia |].
  rewrite Heq. simpl. intros [= ->]. simpl.
  split; [reflexivity|]. split; [reflexivity|].
  exists m, new, k. repeat split; try assumption; try reflexivity; try lia.
  symmetry. exact Hc.
Qed.

(** *** The phases, one by one *)

Lemma error_events_app l1 l2 :
  error_events (l1 ++ l2) = error_events l1 ++ error_events l2.
Proof. unfold error_events. apply List.filter_app. Qed.

Lemma error_events_emitted (l : list Events.event) (t : Service M) :
  emitted (fold_left (fun s e => emit e s) l t) = emitted t ++ l /\
  invoked (fold_left (fun s e => emit e s) l t) = invoked t /\
  masterAgent (fold_left (fun s e => emit e s) l t) = masterAgent t /\
  isRunning (fold_left (fun s e => emit e s) l t) = isRunning t /\
  currentPhase (fold_left (fun s e => emit e s) l t) = currentPhase t.
Proof.
  revert t. induction l as [|e l IH]; intros t; simpl.
  - rewrite app_nil_r. repeat split.
  - destruct (IH (emit e t)) as (He & Hi & Hm & Hr & Hp).
    rewrite He, Hi, Hm, Hr, Hp. simpl. rewrite <- app_assoc. repeat split.
Qed.

Lemma initializeWorkspace_effect workspacePath problemData (s : Service M) :
  let out := initializeWorkspace workspacePath problemData s in
  exists new l,
    emitted out.2 = emitted s ++ new /\
    invoked out.2 = invoked s ++ l /\
    match out.1 with
    | Js.Return _ =>
        error_events new = [] /\ l = ["initializeWorkspace"] /\
        masterAgent out.2 <> None
    | Js.Throw e =>
        error_events new = [Events.ErrorEvent e] /\
        (l = [] \/ l = ["initializeWorkspace"])
    end.
Proof.
  unfold initializeWorkspace. destruct newMaster as [m|error].
  - unfold call. destruct (initializing workspacePath problemData m) as [[result|error] m1].
    + eexists _, _. simpl. rewrite <- !(app_assoc (emitted s)).
      split; [reflexivity|]. split; [reflexivity|].
      split; [reflexivity|]. split; [reflexivity | discriminate].
    + eexists _, _. simpl. rewrite <- !(app_assoc (emitted s)).
      split; [reflexivity|]. split; [reflexivity|].
      split; [reflexivity|]. right. reflexivity.
  - eexists _, []. simpl. rewrite <- !(app_assoc (emitted s)).
    split; [reflexivity|]. split; [symmetry; apply app_nil_r|].
    split; [reflexivity|]. left. reflexivity.
Qed.

Lemma executeModelingPhase_effect plan (s : Service M) :
  (forall m, error_events (modelingResults m) = []) ->
  masterAgent s <> None ->
  let out := executeModelingPhase plan s in
  exists new l,
    emitted out.2 = emitted s ++ new /\
    invoked out.2 = invoked s ++ l /\
    masterAgent out.2 <> None /\
    match out.1 with
    | Js.Return _ => error_events new = [] /\ l = ["executeModelingPhase"]
    | Js.Throw e =>
        (error_events new = [] /\ l = []) \/
        (error_events new = [Events.ErrorEvent e] /\ l = ["executeModelingPhase"])
    end.
Proof.
  intros Hquiet Hm. unfold executeModelingPhase.
  destruct (masterAgent s) as [m|] eqn:Hs; [|congruence].
  assert (Hrefused : forall e : Js.error,
    exists new l : list _,
      emitted s = emitted s ++ new /\ invoked s = invoked s ++ l /\
      masterAgent s <> None /\
      ((error_events new = [] /\ l = []) \/
       (error_events new = [Events.ErrorEvent e] /\ l = ["executeModelingPhase"]))).
  { intros e. exists [], []. rewrite !app_nil_r.
    split; [reflexivity|]. split; [reflexivity|]. split; [congruence|].
    left. split; reflexivity. }
  destruct plan as [| |b|q| |p|fields];
    try (destruct (Js.truthy _); simpl; apply Hrefused).
  destruct (_ || _); [simpl; apply Hrefused|].
  unfold call. destruct (modeling (Js.VStr p) m) as [[result|error] m1].
  - destruct (error_events_emitted (modelingResults m1)
        (emit (Events.ModelingComplete result)
           (emit (Events.Log Events.success "Modeling phase complete")
              (mkService (Some m1)
                 (isRunning (emit (Events.Log Events.info "Starting modeling phase...")
                    (emit (Events.PhaseChange "modeling")
                       (set_currentPhase "modeling" (set_isRunning true s)))))
                 (currentPhase (emit (Events.Log Events.info "Starting modeling phase...")
                    (emit (Events.PhaseChange "modeling")
                       (set_currentPhase "modeling" (set_isRunning true s)))))
                 (emitted (emit (Events.Log Events.info "Starting modeling phase...")
                    (emit (Events.PhaseChange "modeling")
                       (set_currentPhase "modeling" (set_isRunning true s)))))
                 (invoked (emit (Events.Log Events.info "Starting modeling phase...")
                    (emit (Events.PhaseChange "modeling")
                       (set_currentPhase "modeling" (set_isRunning true s))))
                  ++ ["executeModelingPhase"])))))
      as (He & Hi & Hma & _ & _).
    eexists _, _. cbn [fst snd set_isRunning emitted invoked masterAgent].
    rewrite He, Hi, Hma. simpl. rewrite <- !(app_assoc (emitted s)).
    split; [reflexivity|]. split; [reflexivity|]. split; [discriminate|].
    split; [|reflexivity].
    rewrite !error_events_app. simpl. apply Hquiet.
  - eexists _, _. simpl. rewrite <- !(app_assoc (emitted s)).
    split; [reflexivity|]. split; [reflexivity|]. split; [discriminate|].
    right. split; reflexivity.
Qed.

Lemma executeWritingPhase_effect (s : Service M) :
  masterAgent s <> None ->
  let out := executeWritingPhase s in
  currentPhase out.2 = "idle" /\ isRunning out.2 = false /\
  exists new,
    emitted out.2 = emitted s ++ new /\
    invoked out.2 = invoked s ++ ["executeWritingPhase"] /\
    error_events new =
      match out.1 with
      | Js.Return _ => []
      | Js.Throw e => [Events.ErrorEvent e]
      end.
Proof.
  intros Hm. unfold executeWritingPhase.
  destruct (masterAgent s) as [m|] eqn:Hs; [|congruence].
  unfold call. destruct (writing m) as [[result|error] m1]; simpl;
    (split; [reflexivity|]); (split; [reflexivity|]);
    eexists; rewrite <- !(app_assoc (emitted s));
    (split; [reflexivity|]); split; reflexivity.
Qed.

(** *** A failed initialisation *)

(** When the orchestrator can be constructed but its
    [initializeWorkspace] throws, the facade throws the error on, after
    one 'error' notification, and keeps the orchestrator all the same:
    [getStatus] reports a workspace, the phase is unchanged, and a later
    [executeWritingPhase] passes the "Workspace not initialized" guard and
    calls the orchestrator. *)
Theorem failed_initialization_keeps_orchestrator
        (workspacePath : string) (problemData : Js.value) (s : Service M)
        (m0 : M) (e : Js.error) :
  newMaster = Js.Return m0 ->
  (initializing workspacePath problemData m0).1 = Js.Throw e ->
  let out := initializeWorkspace workspacePath problemData s in
  out.1 = Js.Throw e /\
  masterAgent out.2 = Some (initializing workspacePath problemData m0).2 /\
  getStatus out.2 = (isRunning s, currentPhase s, true) /\
  error_events (drop (length (emitted s)) (emitted out.2)) = [Events.ErrorEvent e] /\
  invoked (executeWritingPhase out.2).2 =
    invoked s ++ ["initializeWorkspace"; "executeWritingPhase"].
Proof.
  intros Hnew Hinit out. subst out. unfold initializeWorkspace. rewrite Hnew.
  unfold call. destruct (initializing workspacePath problemData m0) as [r m1].
  simpl in Hinit. subst r. simpl.
  split; [reflexivity|]. split; [reflexivity|]. split; [reflexivity|]. split.
  - rewrite <- !(app_assoc (emitted s)), drop_app_length. reflexivity.
  - unfold executeWritingPhase. simpl. unfold call.
    destruct (writing m1) as [[result|error] m2]; simpl;
      rewrite <- app_assoc; reflexivity.
Qed.

(** *** The complete workflow *)

Lemma last_snoc_event {A} (l : list A) (x : A) : last (l ++ [x]) = Some x.
Proof. apply last_snoc. Qed.

Lemma workflowFailed_effect (error : Js.error) (s t : Service M) new :
  emitted t = emitted s ++ new ->
  exists new',
    (workflowFailed error t).1 = Some (Js.Throw error) /\
    emitted (workflowFailed error t).2 = emitted s ++ new' /\
    last new' = Some (Events.ErrorEvent error) /\
    error_events new' = error_events new ++ [Events.ErrorEvent error] /\
    invoked (workflowFailed error t).2 = invoked t.
Proof.
  intros Ht.
  exists ((new ++ [Events.Log Events.error
                     ("Workflow failed: " +:+ Js.message error)])
            ++ [Events.ErrorEvent error]).
  unfold workflowFailed. simpl. rewrite Ht.
  rewrite <- !(app_assoc (emitted s)), <- !app_assoc.
  split; [reflexivity|]. split; [reflexivity|]. split.
  - rewrite !app_assoc. apply last_snoc.
  - split; [|reflexivity]. rewrite !error_events_app. reflexivity.
Qed.

(** [runCompleteWorkflow] always ends, and tells how. When it throws, an
    'error' notification with the error thrown is the last thing
    emitted, and the run has emitted that error once (the plan was
    refused or could not be read) or twice (the phase that failed had
    reported it already). When it returns, no 'error' was emitted, the
    last notification is 'workflow-complete' with the result, and the
    facade is idle and not running. *)
Theorem workflow_reports_how_it_ends
        (workspacePath : string) (problemData : Js.value)
        (problemStatement : string) (s : Service M) :
  (forall m, error_events (modelingResults m) = []) ->
  let out := runCompleteWorkflow workspacePath problemData problemStatement s in
  exists c new,
    out.1 = Some c /\
    emitted out.2 = emitted s ++ new /\
    match c with
    | Js.Throw e =>
        last new = Some (Events.ErrorEvent e) /\
        (error_events new = [Events.ErrorEvent e] \/
         error_events new = [Events.ErrorEvent e; Events.ErrorEvent e])
    | Js.Return r =>
        error_events new = [] /\
        last new = Some (Events.Other "workflow-complete" r) /\
        currentPhase out.2 = "idle" /\ isRunning out.2 = false
    end.
Proof.
  intros Hquiet out. subst out. unfold runCompleteWorkflow.
  remember (Events.Log Events.info "Starting complete MCM workflow...") as start.
  remember (emit start s) as s0 eqn:Es0.
  assert (Hs0 : emitted s0 = emitted s ++ [start]) by (subst s0; reflexivity).
  clear Es0.
  (* initialisation *)
  destruct (initializeWorkspace_effect workspacePath problemData s0)
    as (new1 & l1 & He1 & _ & Hcase1).
  destruct (initializeWorkspace workspacePath problemData s0) as [[r1|e1] s1];
    cbn [fst snd] in He1, Hcase1.
  2:{ destruct Hcase1 as [Herr1 _].
      destruct (workflowFailed_effect e1 s s1 ([start] ++ new1))
        as (new' & Hr & Hem & Hlast & Herr & _).
      { rewrite He1, Hs0, <- app_assoc. reflexivity. }
      exists (Js.Throw e1), new'. split; [exact Hr|]. split; [exact Hem|].
      split; [exact Hlast|]. right.
      rewrite Herr, error_events_app, Herr1. subst start. reflexivity. }
  destruct Hcase1 as (Herr1 & _ & Hm1).
  (* planning *)
  unfold executePlanningPhase. destruct (masterAgent s1) as [m1|] eqn:Hms1; [|congruence].
  destruct (planning_loop_outcome problemStatement (default 2 None)
              (Z.to_nat (default 2 None + 1)) 0 m1 s1)
    as (c2 & new2 & k & Heq2 & _ & _ & _ & Herr2 & _ & _); [simpl; lia | simpl; lia |].
  rewrite Heq2.
  remember (mkService (Some (after_attempts problemStatement k m1))
               (Js.returned c2) "planning" (emitted s1 ++ new2)
               (invoked s1 ++ replicate k "executePlanningPhase")) as s2 eqn:Es2.
  assert (He2 : emitted s2 = emitted s ++ ([start] ++ new1) ++ new2).
  { subst s2. simpl. rewrite He1, Hs0, <- !app_assoc. reflexivity. }
  assert (Hm2 : masterAgent s2 <> None) by (subst s2; discriminate).
  clear Es2 Heq2.
  assert (Herr12 : error_events (([start] ++ new1) ++ new2) = error_events new2).
  { rewrite !error_events_app, Herr1. subst start. reflexivity. }
  destruct c2 as [planResult|e2].
  2:{ destruct (workflowFailed_effect e2 s s2 _ He2)
        as (new' & Hr & Hem & Hlast & Herr & _).
      exists (Js.Throw e2), new'. split; [exact Hr|]. split; [exact Hem|].
      split; [exact Hlast|]. right. rewrite Herr, Herr12, Herr2. reflexivity. }
  (* the plan *)
  destruct (member planResult "plan") as [plan|e3].
  2:{ destruct (workflowFailed_effect e3 s s2 _ He2)
        as (new' & Hr & Hem & Hlast & Herr & _).
      exists (Js.Throw e3), new'. split; [exact Hr|]. split; [exact Hem|].
      split; [exact Hlast|]. left. rewrite Herr, Herr12, Herr2. reflexivity. }
  (* modeling *)
  destruct (executeModelingPhase_effect plan s2 Hquiet Hm2)
    as (new3 & l3 & He3 & _ & Hm3 & Hcase3).
  destruct (executeModelingPhase plan s2) as [[modelResult|e4] s3];
    cbn [fst snd] in He3, Hm3, Hcase3.
  2:{ destruct (workflowFailed_effect e4 s s3 ((([start] ++ new1) ++ new2) ++ new3))
        as (new' & Hr & Hem & Hlast & Herr & _).
      { rewrite He3, He2, <- app_assoc. reflexivity. }
      exists (Js.Throw e4), new'. split; [exact Hr|]. split; [exact Hem|].
      split; [exact Hlast|].
      rewrite Herr, error_events_app, Herr12, Herr2.
      destruct Hcase3 as [[-> _] | [-> _]]; [left | right]; reflexivity. }
  destruct Hcase3 as [Herr3 _].
  (* writing *)
  destruct (executeWritingPhase_effect s3 Hm3)
    as (Hphase & Hrun & new4 & He4 & _ & Herr4).
  destruct (executeWritingPhase s3) as [[writeResult|e5] s4];
    cbn [fst snd] in He4, Herr4, Hphase, Hrun.
  2:{ destruct (workflowFailed_effect e5 s s4
                  (((([start] ++ new1) ++ new2) ++ new3) ++ new4))
        as (new' & Hr & Hem & Hlast & Herr & _).
      { rewrite He4, He3, He2, <- !app_assoc. reflexivity. }
      exists (Js.Throw e5), new'. split; [exact Hr|]. split; [exact Hem|].
      split; [exact Hlast|]. right.
      rewrite Herr, !error_events_app, Herr1, Herr2, Herr3, Herr4.
      subst start. reflexivity. }
  exists (Js.Return (Js.VObj [("plan", planResult); ("model", modelResult);
                              ("paper", writeResult)])),
    (((((([start] ++ new1) ++ new2) ++ new3) ++ new4) ++
        [Events.Log Events.success "Complete workflow finished!"]) ++
       [Events.Other "workflow-complete"
          (Js.VObj [("plan", planResult); ("model", modelResult);
                    ("paper", writeResult)])]).
  cbn [fst snd emit emitted currentPhase isRunning].
  split; [reflexivity|]. split.
  { rewrite He4, He3, He2, <- !app_assoc. reflexivity. }
  split.
  { rewrite !error_events_app, Herr1, Herr2, Herr3, Herr4. subst start. reflexivity. }
  split; [apply last_snoc|]. split; assumption.
Qed.

(** A workflow whose planning keeps failing. When the workspace is
    initialised and every planning call fails, [runCompleteWorkflow]
    calls the orchestrator's planning three times and neither its
    modeling nor its writing; it throws the error of the third call,
    which has been emitted twice as 'error', and leaves the phase at
    planning with the running flag cleared. *)
Theorem workflow_stops_at_planning
        (workspacePath : string) (problemData : Js.value)
        (problemStatement : string) (s : Service M)
        (m0 : M) (initialized : Initialized) :
  newMaster = Js.Return m0 ->
  (initializing workspacePath problemData m0).1 = Js.Return initialized ->
  (forall m, Js.returned (attempt_outcome problemStatement m) = false) ->
  let m1 := (initializing workspacePath problemData m0).2 in
  let out := runCompleteWorkflow workspacePath problemData problemStatement s in
  exists e,
    attempt_outcome problemStatement
      (after_attempts problemStatement 2 m1) = Js.Throw e /\
    out.1 = Some (Js.Throw e) /\
    invoked out.2 =
      invoked s ++ ["initializeWorkspace"; "executePlanningPhase";
                    "executePlanningPhase"; "executePlanningPhase"] /\
    error_events (drop (length (emitted s)) (emitted out.2)) =
      [Events.ErrorEvent e; Events.ErrorEvent e] /\
    currentPhase out.2 = "planning" /\ isRunning out.2 = false.
Proof.
  intros Hnew Hinit Hfail m1 out. subst out m1.
  unfold runCompleteWorkflow, initializeWorkspace. rewrite Hnew. unfold call.
  destruct (initializing workspacePath problemData m0) as [r m1].
  simpl in Hinit. subst r. simpl.
  unfold executePlanningPhase. cbn [masterAgent emit set_currentPhase].
  match goal with |- context [planning_loop _ _ _ _ m1 ?s1] =>
    destruct (planning_loop_outcome problemStatement (default 2 None)
                (Z.to_nat (default 2 None + 1)) 0 m1 s1)
      as (c & new & k & Heq & Hk1 & Hk2 & Hc & Herr & _ & Hall);
      [simpl; lia | simpl; lia |]
  end.
  rewrite Heq.
  assert (Hret : Js.returned c = false) by (rewrite Hc; apply Hfail).
  specialize (Hall Hret). simpl in Hall.
  assert (k = 3%nat) as -> by lia.
  destruct c as [r|e]; [discriminate|].
  exists e. split; [symmetry; exact Hc|].
  unfold workflowFailed. simpl. split; [reflexivity|]. split.
  - rewrite <- app_assoc. reflexivity.
  - split; [|split; reflexivity].
    rewrite <- !(app_assoc (emitted s)), drop_app_length.
    rewrite !error_events_app, Herr. reflexivity.
Qed.

End WorkflowFacts.

Lemma planning_success_leaves_running_witness :
  let s := AgentService.mkService (Some 1%nat) false "idle" [] [] in
  let out := AgentService.executePlanningPhase
               (H := WorkflowSamples.flaky_orchestrator) "Route the fleet" None s in
  AgentService.isRunning out.2 = true /\
  AgentService.currentPhase out.2 = "planning" /\
  exists m new k,
    AgentService.masterAgent s = Some m /\
    AgentService.emitted out.2 = AgentService.emitted s ++ new /\
    AgentService.error_events new = [] /\
    last new = Some (Events.PlanningComplete
                       (Js.VObj [("plan", Js.VStr "plan for Route the fleet")])) /\
    AgentService.invoked out.2 =
      AgentService.invoked s ++ replicate k "executePlanningPhase" /\
    (1 <= k)%nat /\ Z.of_nat k <= default 2 None + 1 /\
    AgentService.attempt_outcome (H := WorkflowSamples.flaky_orchestrator)
      "Route the fleet"
      (AgentService.after_attempts (H := WorkflowSamples.flaky_orchestrator)
         "Route the fleet" (k - 1) m)
    = Js.Return (Js.VObj [("plan", Js.VStr "plan for Route the fleet")]).
Proof.
  apply (planning_success_leaves_running
           (H := WorkflowSamples.flaky_orchestrator) "Route the fleet" None
           (AgentService.mkService (Some 1%nat) false "idle" [] [])
           (Js.VObj [("plan", Js.VStr "plan for Route the fleet")])).
  - simpl. lia.
  - reflexivity.
Defined.

Lemma failed_initialization_keeps_orchestrator_witness :
  let out := Workflow.initializeWorkspace (H0 := WorkflowSamples.bad_start)
               "/ws" (Js.VObj []) AgentService.new in
  out.1 = Js.Throw (Js.Error "EACCES: permission denied, mkdir '/ws'") /\
  AgentService.masterAgent out.2 = Some 1%nat /\
  AgentService.getStatus out.2 = (false, "idle", true) /\
  AgentService.error_events (drop 0 (AgentService.emitted out.2)) =
    [Events.ErrorEvent (Js.Error "EACCES: permission denied, mkdir '/ws'")] /\
  AgentService.invoked
    (AgentService.executeWritingPhase (H := Claims.failing_orchestrator) out.2).2 =
    [] ++ ["initializeWorkspace"; "executeWritingPhase"].
Proof.
  apply (failed_initialization_keeps_orchestrator
           (H := Claims.failing_orchestrator) (H0 := WorkflowSamples.bad_start)
           "/ws" (Js.VObj []) AgentService.new 0%nat).
  - reflexivity.
  - reflexivity.
Defined.

Lemma workflow_reports_how_it_ends_witness :
  let out := Workflow.runCompleteWorkflow
               (H := WorkflowSamples.flaky_orchestrator)
               (H0 := WorkflowSamples.good_start)
               "/ws" (Js.VObj []) "Route the fleet" AgentService.new in
  exists c new,
    out.1 = Some c /\
    AgentService.emitted out.2 = [] ++ new /\
    match c with
    | Js.Throw e =>
        last new = Some (Events.ErrorEvent e) /\
        (AgentService.error_events new = [Events.ErrorEvent e] \/
         AgentService.error_events new = [Events.ErrorEvent e; Events.ErrorEvent e])
    | Js.Return r =>
        AgentService.error_events new = [] /\
        last new = Some (Events.Other "workflow-complete" r) /\
        AgentService.currentPhase out.2 = "idle" /\
        AgentService.isRunning out.2 = false
    end.
Proof.
  apply (workflow_reports_how_it_ends
           (H := WorkflowSamples.flaky_orchestrator)
           (H0 := WorkflowSamples.good_start)
           "/ws" (Js.VObj []) "Route the fleet" AgentService.new).
  intros m. reflexivity.
Defined.

Lemma workflow_stops_at_planning_witness :
  let out := Workflow.runCompleteWorkflow
               (H := Claims.failing_orchestrator)
               (H0 := WorkflowSamples.good_start)
               "/ws" (Js.VObj []) "Route the fleet" AgentService.new in
  exists e,
    AgentService.attempt_outcome (H := Claims.failing_orchestrator)
      "Route the fleet"
      (AgentService.after_attempts (H := Claims.failing_orchestrator)
         "Route the fleet" 2 1%nat) = Js.Throw e /\
    out.1 = Some (Js.Throw e) /\
    AgentService.invoked out.2 =
      [] ++ ["initializeWorkspace"; "executePlanningPhase";
             "executePlanningPhase"; "executePlanningPhase"] /\
    AgentService.error_events (drop 0 (AgentService.emitted out.2)) =
      [Events.ErrorEvent e; Events.ErrorEvent e] /\
    AgentService.currentPhase out.2 = "planning" /\
    AgentService.isRunning out.2 = false.
Proof.
  apply (workflow_stops_at_planning
           (H := Claims.failing_orchestrator) (H0 := WorkflowSamples.good_start)
           "/ws" (Js.VObj []) "Route the fleet" AgentService.new 0%nat
           (Workflow.mkInitialized "initialized"
              (Js.VObj [("path", Js.VStr "/ws")]) "planning")).
  - reflexivity.
  - reflexivity.
  - intros m'. unfold AgentService.attempt_outcome. simpl.
    destruct (Nat.even m'); reflexivity.
Defined.

(** ** Reading code and LaTeX out of a reply *)

Section ExtractFacts.
Import MasterAgent MasterPhases.

Lemma fence_nonempty : fence <> "".
Proof. discriminate. Qed.

Lemma fencedBlock_Some opening message code :
  fencedBlock opening message = Some code ->
  Text.includes fence code = false /\
  exists pre post, message = pre +:+ opening +:+ code +:+ fence +:+ post.
Proof.
  unfold fencedBlock. destruct (Text.indexOf opening message) as [i|] eqn:Hi; [|discriminate].
  destruct (Text.indexOf fence _) as [j|] eqn:Hj; [|discriminate].
  intros [= <-]. split.
  - apply indexOf_take_none; [exact fence_nonempty | exact Hj].
  - exists (Text.take i message),
      (Text.drop (j + String.length fence)
         (Text.drop (i + String.length opening) message)).
    rewrite (indexOf_split _ _ _ Hi) at 1. f_equal. f_equal.
    apply (indexOf_split _ _ _ Hj).
Qed.

Lemma firstCode_Some ps message code :
  firstCode ps message = Some code ->
  Text.trim code <> "" /\
  exists opening, opening ∈ ps /\ fencedBlock opening message = Some code.
Proof.
  induction ps as [|opening ps IH]; [discriminate|]. simpl.
  destruct (fencedBlock opening message) as [c|] eqn:Hb.
  - destruct (negb (String.eqb c "") && _) eqn:Hc.
    + intros [= <-]. apply andb_prop in Hc as [_ Hlen]. split.
      * intros Ht. rewrite Ht in Hlen. discriminate.
      * exists opening. split; [left | exact Hb].
    + intros Hr. destruct (IH Hr) as (Ht & o & Ho & Hf).
      split; [exact Ht|]. exists o. split; [right; exact Ho | exact Hf].
  - intros Hr. destruct (IH Hr) as (Ht & o & Ho & Hf).
    split; [exact Ht|]. exists o. split; [right; exact Ho | exact Hf].
Qed.

(** What [_extractCodeFromMessage] returns is the inside of a fenced
    block of the message: it stands between one of the three openings
    and a closing fence, holds no fence itself, and is not blank. *)
Theorem extracted_code_is_a_block (message code : string) :
  _extractCodeFromMessage message = Some code ->
  Text.trim code <> "" /\
  Text.includes fence code = false /\
  exists opening pre post,
    opening ∈ patterns /\
    message = pre +:+ opening +:+ code +:+ fence +:+ post.
Proof.
  unfold _extractCodeFromMessage. destruct (String.eqb message ""); [discriminate|].
  intros Hr. apply firstCode_Some in Hr as (Ht & opening & Ho & Hb).
  apply fencedBlock_Some in Hb as (Hf & pre & post & Hm).
  split; [exact Ht|]. split; [exact Hf|]. exists opening, pre, post. auto.
Qed.

Lemma fencedBlock_found opening pre code post :
  Text.has_char "`" pre = false ->
  Text.has_char "`" code = false ->
  fencedBlock (String "`" opening)
    (pre +:+ String "`" opening +:+ code +:+ fence +:+ post) = Some code.
Proof.
  intros Hpre Hcode. unfold fencedBlock.
  rewrite (indexOf_skip "`" opening pre _ Hpre).
  assert (H0 : Text.indexOf (String "`" opening)
                 (String "`" opening +:+ code +:+ fence +:+ post) = Some 0%nat).
  { apply indexOf_here, text_prefix_append. }
  rewrite H0. simpl fmap. rewrite Nat.add_0_r.
  rewrite <- text_drop_drop, text_drop_append, text_drop_append.
  change fence with (String "`" "``") at 1 2.
  rewrite (indexOf_skip "`" "``" code _ Hcode).
  assert (H1 : Text.indexOf (String "`" "``") (String "`" "``" +:+ post) = Some 0%nat).
  { apply indexOf_here, text_prefix_append. }
  rewrite H1. simpl fmap. rewrite Nat.add_0_r, text_take_append. reflexivity.
Qed.

(** A Python block is read back as it was written: the code between
    [```python] and the closing fence is returned unchanged, when it is
    not blank and neither it nor what stands before the block holds a
    backquote. *)
Theorem python_block_read_back (pre code post : string) :
  Text.has_char "`" pre = false ->
  Text.has_char "`" code = false ->
  Text.trim code <> "" ->
  _extractCodeFromMessage
    (pre +:+ fence +:+ "python" +:+ newline +:+ code +:+ fence +:+ post)
  = Some code.
Proof.
  intros Hpre Hcode Hblank. unfold _extractCodeFromMessage.
  assert (Hne : String.eqb
            (pre +:+ fence +:+ "python" +:+ newline +:+ code +:+ fence +:+ post) ""
          = false) by (destruct pre; reflexivity).
  rewrite Hne. unfold patterns, firstCode.
  change (pre +:+ fence +:+ "python" +:+ newline +:+ code +:+ fence +:+ post)
    with (pre +:+ String "`" ("``python" +:+ newline) +:+ code +:+ fence +:+ post).
  change (fence +:+ "python" +:+ newline) with (String "`" ("``python" +:+ newline)).
  rewrite (fencedBlock_found _ pre code post Hpre Hcode).
  assert (Hc : code <> "") by (intros ->; apply Hblank; reflexivity).
  apply String.eqb_neq in Hc. rewrite Hc.
  destruct (Text.trim code) as [|c t]; [congruence|]. reflexivity.
Qed.



End ExtractFacts.

(** ** The planning and implementation phases of the orchestrator *)

Section MasterPhaseFacts.
Import MasterAgent MasterPhases.
Context `{Runtime}.

Local Arguments BaseAgent.new : simpl never.
Local Arguments clone_id : simpl never.
Local Arguments parsePrompt : simpl never.
Local Arguments researchPrompt : simpl never.
Local Arguments planPrompt : simpl never.
Local Arguments implementPrompt : simpl never.
Local Arguments draftPrompt : simpl never.
Local Arguments _formatPlanDocument : simpl never.

Lemma getClones_snoc_running m c :
  status c = "running" ->
  List.filter (fun c => String.eqb (status c) "running") (clones m ++ [c]) =
  List.filter (fun c => String.eqb (status c) "running") (clones m) ++ [c].
Proof.
  intros Hc. rewrite List.filter_app. simpl. rewrite Hc. reflexivity.
Qed.

Lemma getClones_filter m :
  getClones m = List.filter (fun c => String.eqb (status c) "running") (clones m).
Proof.
  unfold getClones. induction (clones m) as [|c l IH]; [reflexivity|].
  cbn [List.filter]. rewrite filter_cons.
  destruct (String.eqb (status c) "running") eqn:Hc.
  - rewrite decide_True by reflexivity. rewrite IH. reflexivity.
  - rewrite decide_False by discriminate. exact IH.
Qed.

Lemma savePlanDocument_fields env doc m :
  phase (savePlanDocument env doc m) = phase m /\
  clones (savePlanDocument env doc m) = clones m /\
  self (savePlanDocument env doc m) = self m.
Proof.
  unfold savePlanDocument. destruct (artifactStore m); [|repeat split].
  destruct (ArtifactStore.saveArtifact _ _ _ _). repeat split.
Qed.

(** The planning phase of the orchestrator, when the analysis and the
    first two requests succeed and the researcher can be constructed.
    Whether the last request returns or throws, the phase is planning
    and the researcher clone is in the registry, still running, which
    nothing in the phase changes. When the last request returns, the
    plan handed back is the text of its reply, the orchestrator's own
    conversation has grown by the two requests and their replies, and
    the store, when there is one, holds a record of type plan named
    planning-phase-result.md. When it throws, the error is thrown on,
    the conversation keeps the three messages recorded so far, and
    nothing is saved. *)
Theorem planning_phase_outcome (env : PlanningEnv) (problemStatement : string)
        (m : Master) (rag : RagAnalysis)
        (parseResult researchResult : BaseAgent.Response)
        (researcher : BaseAgent.Agent) :
  p_rag env = Js.Return rag ->
  p_parseReply env = Js.Return parseResult ->
  p_researchReply env = Js.Return researchResult ->
  BaseAgent.new cfg "researcher" = Js.Return researcher ->
  let out := executePlanningPhase env problemStatement m in
  let entry := mkClone (clone_id "researcher" (p_now env)) (nextAddr m)
                 "researcher" "Find relevant papers and approaches" "running" in
  let asked :=
    [BaseAgent.mkMessage "user" (parsePrompt problemStatement (summary rag));
     BaseAgent.mkMessage "assistant" (BaseAgent.message parseResult);
     BaseAgent.mkMessage "user"
       (planPrompt problemStatement (summary rag)
          (BaseAgent.message researchResult))] in
  phase out.2 = "planning" /\
  clones out.2 = clones m ++ [entry] /\
  getClones out.2 = getClones m ++ [entry] /\
  match p_planReply env with
  | Js.Return planResult =>
      out.1 = Js.Return
                (Js.VObj [("ragAnalysis", Js.VStr (summary rag));
                          ("parse", Js.VStr (BaseAgent.message parseResult));
                          ("research", Js.VStr (BaseAgent.message researchResult));
                          ("plan", Js.VStr (BaseAgent.message planResult))]) /\
      BaseAgent.conversationHistory (self out.2) =
        BaseAgent.conversationHistory (self m) ++ asked ++
        [BaseAgent.mkMessage "assistant" (BaseAgent.message planResult)] /\
      match artifactStore m with
      | Some _ =>
          exists st' a,
            artifactStore out.2 = Some st' /\
            a ∈ ArtifactStore.artifacts st' /\
            ArtifactStore.name a = "planning-phase-result.md" /\
            ArtifactStore.type a = "plan"
      | None => artifactStore out.2 = None
      end
  | Js.Throw e =>
      out.1 = Js.Throw e /\
      BaseAgent.conversationHistory (self out.2) =
        BaseAgent.conversationHistory (self m) ++ asked /\
      artifactStore out.2 = artifactStore m
  end.
Proof.
  intros Hrag Hparse Hresearch Hnew out entry asked.
  assert (Hstart : exists m3 r,
    out = (let '(c, m4) := self_sendMessage
                 (planPrompt problemStatement (summary rag)
                    (BaseAgent.message researchResult)) (p_planReply env) m3 in
           match c with
           | Js.Return planResult =>
               (Js.Return
                  (Js.VObj [("ragAnalysis", Js.VStr (summary rag));
                            ("parse", Js.VStr (BaseAgent.message parseResult));
                            ("research", Js.VStr (BaseAgent.message researchResult));
                            ("plan", Js.VStr (BaseAgent.message planResult))]),
                savePlanDocument env
                  (_formatPlanDocument
                     (mkPlanData (summary rag) (BaseAgent.message parseResult)
                        (BaseAgent.message researchResult)
                        (BaseAgent.message planResult) (p_timestamp env))) m4)
           | Js.Throw e => (Js.Throw e, m4)
           end) /\
    phase m3 = "planning" /\ clones m3 = clones m ++ [entry] /\
    artifactStore m3 = artifactStore m /\
    self m3 = r /\
    BaseAgent.conversationHistory r =
      BaseAgent.conversationHistory (self m) ++
      [BaseAgent.mkMessage "user" (parsePrompt problemStatement (summary rag));
       BaseAgent.mkMessage "assistant" (BaseAgent.message parseResult)]).
  { subst out. unfold executePlanningPhase. rewrite Hrag.
    unfold self_sendMessage at 1. rewrite Hparse.
    cbn [BaseAgent.sendMessage BaseAgent.sendMessage_resume
         BaseAgent.sendMessage_call].
    rewrite (spawnClone_ok _ _ _ _ researcher Hnew).
    erewrite clone_sendMessage_spec by (cbn [heap]; apply lookup_insert_eq).
    rewrite Hresearch.
    cbn [BaseAgent.sendMessage BaseAgent.sendMessage_resume
         BaseAgent.sendMessage_call fst snd BaseAgent.message].
    eexists _, _. split; [reflexivity|].
    split; [reflexivity|]. split; [reflexivity|]. split; [reflexivity|].
    split; [reflexivity|].
    cbn [self set_heap set_self set_phase BaseAgent.push BaseAgent.sendMessage_call
         BaseAgent.conversationHistory].
    rewrite <- app_assoc. reflexivity. }
  destruct Hstart as (m3 & r & Hout & Hphase & Hclones & Hstore & Hself & Hhist).
  clearbody out. subst out. unfold self_sendMessage. rewrite Hself.
  destruct (p_planReply env) as [planResult|e];
    cbn [BaseAgent.sendMessage BaseAgent.sendMessage_resume
         BaseAgent.sendMessage_call fst snd BaseAgent.message].
  - match goal with |- context [savePlanDocument env ?doc ?m4] =>
      destruct (savePlanDocument_fields env doc m4) as (Hp & Hc & Hs);
      rewrite Hp, Hc, Hs
    end.
    cbn [set_self phase clones self].
    split; [exact Hphase|]. split; [exact Hclones|].
    split.
    { rewrite !getClones_filter, Hc. cbn [set_self clones]. rewrite Hclones.
      apply getClones_snoc_running. reflexivity. }
    split; [reflexivity|]. split.
    { cbn [BaseAgent.push BaseAgent.sendMessage_call BaseAgent.conversationHistory].
      unfold asked. rewrite Hhist, <- !app_assoc. reflexivity. }
    unfold savePlanDocument. cbn [set_self artifactStore]. rewrite Hstore.
    destruct (artifactStore m) as [st|]; [|cbn [artifactStore]; exact Hstore].
    match goal with |- context [ArtifactStore.saveArtifact ?pj ?e ?arg st] =>
      pose proof (saveArtifact_result pj e arg st) as Hsave;
      destruct (ArtifactStore.saveArtifact pj e arg st) as [a st']
    end.
    cbv zeta in Hsave. cbn [fst snd] in Hsave.
    destruct Hsave as (Hin & Hname & Htype & _).
    exists st', a. cbn [set_artifactStore artifactStore]. auto.
  - cbn [fst snd set_self phase clones self artifactStore].
    split; [exact Hphase|]. split; [exact Hclones|].
    split.
    { rewrite !getClones_filter. cbn [set_self clones]. rewrite Hclones.
      apply getClones_snoc_running. reflexivity. }
    split; [reflexivity|]. split; [|exact Hstore].
    cbn [BaseAgent.push BaseAgent.sendMessage_call BaseAgent.conversationHistory].
    unfold asked. rewrite Hhist, <- !app_assoc. reflexivity.
Qed.

(** The implementation phase spawns both clones before it asks
    anything. When both can be constructed, the phase is execution and
    the registry has gained a modeler and a writer, both running,
    whatever the provider answers. When the modeler's request throws,
    the error is thrown on and the writer has never been addressed; when
    it returns, the writer is asked for the paper with the modeler's
    reply spliced in, and the phase hands back the two replies or throws
    the writer's error. *)
Theorem implementation_phase_outcome (now1 now2 : Z)
        (modelReply paperReply : Js.completion BaseAgent.Response)
        (approvedPlan : string) (m : Master) (modeler writer : BaseAgent.Agent) :
  BaseAgent.new cfg "modeler" = Js.Return modeler ->
  BaseAgent.new cfg "writer" = Js.Return writer ->
  let out := executeImplementationPhase now1 now2 modelReply paperReply
               approvedPlan m in
  let a0 := nextAddr m in
  phase out.2 = "execution" /\
  clones out.2 =
    clones m ++
    [mkClone (clone_id "modeler" now1) a0 "modeler"
             "Implement mathematical model" "running";
     mkClone (clone_id "writer" now2) (S a0) "writer"
             "Write paper sections" "running"] /\
  match modelReply with
  | Js.Throw e =>
      out.1 = Js.Throw e /\ heap out.2 !! S a0 = Some writer
  | Js.Return modelResult =>
      heap out.2 !! S a0 =
        Some (BaseAgent.sendMessage
                (draftPrompt (BaseAgent.message modelResult)) paperReply writer).2 /\
      match paperReply with
      | Js.Return paperResult =>
          out.1 = Js.Return
                    (Js.VObj [("model", Js.VStr (BaseAgent.message modelResult));
                              ("paper", Js.VStr (BaseAgent.message paperResult))])
      | Js.Throw e => out.1 = Js.Throw e
      end
  end.
Proof.
  intros Hmodeler Hwriter out a0. subst out a0.
  unfold executeImplementationPhase.
  rewrite (spawnClone_ok _ _ _ _ modeler Hmodeler).
  rewrite (spawnClone_ok _ _ _ _ writer Hwriter).
  cbn [set_phase phase clones heap nextAddr self workspacePath files artifactStore].
  erewrite clone_sendMessage_spec
    by (cbn [heap]; rewrite lookup_insert_ne by lia; apply lookup_insert_eq).
  cbn [set_heap phase clones heap nextAddr self workspacePath files artifactStore].
  destruct modelReply as [modelResult|e];
    cbn [BaseAgent.sendMessage BaseAgent.sendMessage_resume
         BaseAgent.sendMessage_call fst snd BaseAgent.message].
  - erewrite clone_sendMessage_spec
      by (cbn [heap set_heap nextAddr]; rewrite lookup_insert_ne by lia;
          apply lookup_insert_eq).
    cbn [set_heap phase clones heap nextAddr self workspacePath files artifactStore].
    destruct paperReply as [paperResult|e];
      cbn [BaseAgent.sendMessage BaseAgent.sendMessage_resume
           BaseAgent.sendMessage_call fst snd BaseAgent.message
           phase clones heap];
      (split; [reflexivity|]); (split; [rewrite <- app_assoc; reflexivity|]);
      (split; [apply lookup_insert_eq | reflexivity]).
  - split; [reflexivity|]. split; [rewrite <- app_assoc; reflexivity|].
    split; [reflexivity|]. cbn [heap set_heap].
    rewrite lookup_insert_ne by lia. apply lookup_insert_eq.
Qed.

End MasterPhaseFacts.

(** ** The running clones after a fan-out *)

Section RunningClones.
Import MasterAgent MasterPhases.
Context `{Runtime}.

Local Arguments BaseAgent.new : simpl never.
Local Arguments clone_id : simpl never.

Lemma filter_none {A} (P : A -> Prop) `{forall x, Decision (P x)} (l : list A) :
  Forall (fun x => ~ P x) l -> filter P l = [].
Proof.
  induction 1 as [|x l Hx _ IH]; [reflexivity|].
  rewrite filter_cons_False by exact Hx. exact IH.
Qed.

Lemma executeParallel_registry clock reply order tasks m :
  registry_wf m ->
  (forall t, t ∈ tasks -> Js.returned (BaseAgent.new cfg (t_mode t)) = true) ->
  order ≡ₚ seq 0 (length tasks) ->
  clones (executeParallel clock reply order tasks m).2 =
    clones m ++
    imap (entry_of clock (nextAddr m)
            (fun i => if Js.returned (reply i) then "completed" else "running"))
         tasks.
Proof.
  intros Hwf Hok Hperm. unfold executeParallel.
  pose proof (dispatch_spec clock tasks 0%nat m Hok) as Hd.
  destruct (dispatch clock 0 tasks m) as [ps m1]. simpl in Hd.
  destruct Hd as (Hps & Hcl & _ & Hheap).
  assert (Hnd : NoDup order) by (rewrite Hperm; apply NoDup_seq).
  assert (Hin : forall i, i ∈ order <-> (i < length tasks)%nat).
  { intros i. rewrite Hperm, elem_of_seq. lia. }
  assert (Hinv0 : fanout_inv clock reply tasks (clones m) (nextAddr m) []
                    (mkFanout ps (first_rejection ps) m1)).
  { constructor; simpl.
    - rewrite Hps. apply imap_ext. intros i t _. reflexivity.
    - rewrite Hcl. f_equal.
    - exact Hheap.
    - rewrite Hps. apply (first_rejection_pending (fun j => nextAddr m + j)%nat). }
  pose proof (settle_all clock reply tasks (clones m) (nextAddr m) Hwf
                order [] _ Hinv0 Hnd (fun i Hi => proj1 (Hin i) Hi)) as Hinv.
  simpl in Hinv. destruct Hinv as [_ Hcl' _ _]. simpl.
  rewrite Hcl'. f_equal. apply imap_ext. intros i t Hi. unfold entry_of.
  f_equal. unfold status_after.
  rewrite bool_decide_eq_true_2; [reflexivity|].
  apply Hin. eapply lookup_lt_Some. exact Hi.
Qed.

(** [getClones()] after a fan-out, once every call has settled: the
    clones that were running before are still listed, a task's clone is
    listed exactly when its call threw, and nothing else is; so a
    fan-out whose calls all return leaves the list as it was. *)
Theorem running_clones_after_fan_out (clock : nat -> Z)
        (reply : nat -> Js.completion BaseAgent.Response)
        (order : list nat) (tasks : list Task) (m : Master) :
  registry_wf m ->
  (forall t, t ∈ tasks -> Js.returned (BaseAgent.new cfg (t_mode t)) = true) ->
  order ≡ₚ seq 0 (length tasks) ->
  let after := (executeParallel clock reply order tasks m).2 in
  (forall c, c ∈ getClones after <->
     c ∈ getClones m \/
     exists i t, tasks !! i = Some t /\ Js.returned (reply i) = false /\
                 c = entry_of clock (nextAddr m) (fun _ => "running") i t) /\
  ((forall i, (i < length tasks)%nat -> Js.returned (reply i) = true) ->
   getClones after = getClones m).
Proof.
  intros Hwf Hok Hperm after. subst after.
  pose proof (executeParallel_registry clock reply order tasks m Hwf Hok Hperm) as Hcl.
  unfold getClones. rewrite Hcl. split.
  - intros c. rewrite filter_app, elem_of_app, !list_elem_of_filter.
    split.
    + intros [Hold | [Hrun Hnew]]; [left; exact Hold|]. right.
      apply list_elem_of_lookup_1 in Hnew as [i Hi].
      rewrite list_lookup_imap in Hi.
      destruct (tasks !! i) as [t|] eqn:Ht; [|discriminate].
      simpl in Hi. injection Hi as <-. exists i, t. split; [exact Ht|].
      unfold entry_of in *. simpl in Hrun.
      destruct (Js.returned (reply i)); [discriminate|].
      split; reflexivity.
    + intros [Hold | (i & t & Ht & Hr & ->)]; [left; exact Hold|]. right.
      split; [reflexivity|].
      eapply list_elem_of_lookup_2 with (i := i).
      rewrite list_lookup_imap, Ht. simpl. unfold entry_of. rewrite Hr. reflexivity.
  - intros Hall. rewrite filter_app.
    assert (Hnone : filter (fun c => String.eqb (status c) "running" = true)
              (imap (entry_of clock (nextAddr m)
                       (fun i => if Js.returned (reply i)
                                 then "completed" else "running")) tasks) = []).
    { apply filter_none, Forall_forall. intros c Hc.
      apply list_elem_of_lookup_1 in Hc as [i Hi].
      rewrite list_lookup_imap in Hi.
      destruct (tasks !! i) as [t|] eqn:Ht; [|discriminate].
      simpl in Hi. injection Hi as <-. simpl.
      rewrite Hall by (eapply lookup_lt_Some; exact Ht). discriminate. }
    rewrite Hnone, app_nil_r. reflexivity.
Qed.

End RunningClones.

Lemma extracted_code_is_a_block_witness :
  Text.trim ("print(1)" +:+ MasterAgent.newline) <> "" /\
  Text.includes MasterAgent.fence ("print(1)" +:+ MasterAgent.newline) = false /\
  exists opening pre post,
    opening ∈ MasterPhases.patterns /\
    PhaseSamples.reply_with_code =
      pre +:+ opening +:+ ("print(1)" +:+ MasterAgent.newline) +:+
      MasterAgent.fence +:+ post.
Proof.
  apply (extracted_code_is_a_block PhaseSamples.reply_with_code).
  vm_compute. reflexivity.
Defined.

Lemma python_block_read_back_witness :
  MasterPhases._extractCodeFromMessage PhaseSamples.reply_with_code
  = Some ("print(1)" +:+ MasterAgent.newline).
Proof.
  apply (python_block_read_back ("Here is the model:" +:+ MasterAgent.newline)
           ("print(1)" +:+ MasterAgent.newline)
           (MasterAgent.newline +:+ "Run it.")).
  - reflexivity.
  - reflexivity.
  - vm_compute. discriminate.
Defined.


Lemma planning_phase_outcome_witness :
  let out := MasterPhases.executePlanningPhase (H := Claims.sample_runtime)
               PhaseSamples.planning_env "Route the fleet"
               PhaseSamples.stored_master in
  MasterAgent.phase out.2 = "planning" /\
  MasterAgent.status <$> MasterAgent.getClones out.2 = ["running"] /\
  out.1 = Js.Return
            (Js.VObj [("ragAnalysis", Js.VStr "Optimization problem");
                      ("parse", Js.VStr "parsed");
                      ("research", Js.VStr "three papers");
                      ("plan", Js.VStr "the plan")]) /\
  length (BaseAgent.conversationHistory (MasterAgent.self out.2)) = 4%nat /\
  exists st' a,
    MasterAgent.artifactStore out.2 = Some st' /\
    a ∈ ArtifactStore.artifacts st' /\
    ArtifactStore.name a = "planning-phase-result.md" /\
    ArtifactStore.type a = "plan".
Proof.
  intros out.
  destruct (planning_phase_outcome (H := Claims.sample_runtime)
              PhaseSamples.planning_env "Route the fleet"
              PhaseSamples.stored_master
              (MasterPhases.mkRagAnalysis "Optimization problem"
                 ["Linear Programming"; "Dynamic Programming"])
              (Claims.sample_response "parsed")
              (Claims.sample_response "three papers")
              (BaseAgent.mkAgent "researcher"
                 (BaseAgent.provider Claims.sample_self) [])
              eq_refl eq_refl eq_refl)
    as (Hphase & _ & Hrunning & Hout & Hhist & Hstore).
  - vm_compute. reflexivity.
  - fold out in Hphase, Hrunning, Hout, Hhist, Hstore.
    split; [exact Hphase|]. split; [rewrite Hrunning; reflexivity|].
    split; [exact Hout|]. split; [rewrite Hhist; reflexivity|]. exact Hstore.
Defined.

Lemma implementation_phase_outcome_witness :
  let out := MasterPhases.executeImplementationPhase (H := Claims.sample_runtime)
               1700000000000 1700000000001
               (Js.Return (Claims.sample_response "the model"))
               (Js.Throw (Js.Error "API request failed: 500"))
               "the plan" Claims.fresh_master in
  MasterAgent.phase out.2 = "execution" /\
  MasterAgent.status <$> MasterAgent.clones out.2 = ["running"; "running"] /\
  out.1 = Js.Throw (Js.Error "API request failed: 500").
Proof.
  intros out.
  destruct (implementation_phase_outcome (H := Claims.sample_runtime)
              1700000000000 1700000000001
              (Js.Return (Claims.sample_response "the model"))
              (Js.Throw (Js.Error "API request failed: 500"))
              "the plan" Claims.fresh_master
              (BaseAgent.mkAgent "modeler"
                 (BaseAgent.provider Claims.sample_self) [])
              (BaseAgent.mkAgent "writer"
                 (BaseAgent.provider Claims.sample_self) []))
    as (Hphase & Hclones & _ & Hout).
  - vm_compute. reflexivity.
  - vm_compute. reflexivity.
  - fold out in Hphase, Hclones, Hout.
    split; [exact Hphase|]. split; [rewrite Hclones; reflexivity|]. exact Hout.
Defined.

Lemma running_clones_after_fan_out_witness :
  let after := (MasterAgent.executeParallel (H := Claims.sample_runtime)
                  Claims.clock_ms Claims.second_fails [2; 0; 1]%nat
                  Claims.three_tasks Claims.fresh_master).2 in
  MasterAgent.entry_of Claims.clock_ms 0 (fun _ => "running") 1
    (MasterAgent.mkTask "modeler" "model" "write the model")
  ∈ MasterAgent.getClones after.
Proof.
  intros after.
  destruct (running_clones_after_fan_out (H := Claims.sample_runtime)
              Claims.clock_ms Claims.second_fails [2; 0; 1]%nat
              Claims.three_tasks Claims.fresh_master) as [Hiff _].
  - intros c Hc. inversion Hc.
  - intros t Ht. vm_compute in Ht.
    repeat (apply elem_of_cons in Ht as [->|Ht]; [reflexivity|]).
    inversion Ht.
  - apply (bool_decide_unpack _). vm_compute. reflexivity.
  - apply Hiff. right.
    exists 1%nat, (MasterAgent.mkTask "modeler" "model" "write the model").
    split; [reflexivity|]. split; reflexivity.
Defined.

(** ** The problem analyzer *)

Section ProblemAnalyzerFacts.
Import ProblemAnalyzer.

Lemma insert_perm x l : insert x l ≡ₚ x :: l.
Proof.
  induction l as [|y l IH]; [reflexivity|]. simpl.
  destruct (y.2 <=? x.2)%nat; [reflexivity|].
  rewrite IH. apply Permutation_swap.
Qed.

Lemma sortByScore_perm l : sortByScore l ≡ₚ l.
Proof.
  induction l as [|x l IH]; [reflexivity|]. simpl.
  rewrite insert_perm, IH. reflexivity.
Qed.

Lemma insert_sorted x l :
  StronglySorted (fun a b => (b.2 <= a.2)%nat) l ->
  StronglySorted (fun a b => (b.2 <= a.2)%nat) (insert x l).
Proof.
  induction 1 as [|y l Hs IH Hy]; simpl.
  - constructor; constructor.
  - destruct (y.2 <=? x.2)%nat eqn:Hle.
    + apply Nat.leb_le in Hle. constructor; [constructor; assumption|].
      constructor; [exact Hle|].
      eapply Forall_impl; [exact Hy|]. simpl. intros z Hz. lia.
    + apply Nat.leb_gt in Hle. constructor; [exact IH|].
      rewrite insert_perm. constructor; [lia | exact Hy].
Qed.

Lemma sortByScore_sorted l :
  StronglySorted (fun a b => (b.2 <= a.2)%nat) (sortByScore l).
Proof.
  induction l as [|x l IH]; simpl; [constructor|]. apply insert_sorted, IH.
Qed.

Lemma sorted_lookup_le (l : list (string * nat)) i j a b :
  StronglySorted (fun a b => (b.2 <= a.2)%nat) l ->
  l !! i = Some a -> l !! j = Some b -> (i <= j)%nat -> (b.2 <= a.2)%nat.
Proof.
  intros Hs. revert i j. induction Hs as [|y l Hs IH Hy]; intros i j Hi Hj Hij.
  - discriminate.
  - destruct i as [|i], j as [|j]; simpl in *.
    + injection Hi as <-. injection Hj as <-. lia.
    + injection Hi as <-. rewrite Forall_forall in Hy. apply Hy.
      eapply list_elem_of_lookup_2. exact Hj.
    + lia.
    + apply (IH i j); [assumption..|lia].
Qed.

(** The entries [scores] holds: the types of the map that score,
    in the order of the map. *)
Lemma scores_spec text :
  scores text =
  omap (fun p => if (0 <? score p.2 text)%nat
                 then Some (p.1, score p.2 text) else None) keywordMap.
Proof.
  unfold scores, keywordMap. cbn [foldl omap list_omap fst snd].
  repeat match goal with
         | |- context [score ?l text] => generalize (score l text); intro
         end.
  repeat match goal with
         | |- context [(0 <? ?n)%nat] => destruct (0 <? n)%nat
         end; reflexivity.
Qed.

Lemma lookup_keywordMap t kw :
  (t, kw) ∈ keywordMap -> lookup t keywordMap = Some kw.
Proof.
  unfold keywordMap. intros Hin.
  repeat (apply elem_of_cons in Hin as [Hin|Hin]; [injection Hin as -> ->; reflexivity|]).
  inversion Hin.
Qed.

Lemma lookup_elem k (o : list (string * list string)) v :
  lookup k o = Some v -> (k, v) ∈ o.
Proof.
  induction o as [|[k' v'] o IH]; simpl; [discriminate|].
  destruct (String.eqb k' k) eqn:Hk.
  - apply String.eqb_eq in Hk as ->. intros [= ->]. left.
  - intros Hl. right. exact (IH Hl).
Qed.

Lemma scores_elem text t n :
  (t, n) ∈ scores text <-> n = scoreOf text t /\ (0 < n)%nat.
Proof.
  rewrite scores_spec, list_elem_of_omap. split.
  - intros ([t' kw] & Hin & Hsome). simpl in Hsome.
    destruct (0 <? score kw text)%nat eqn:Hpos; [|discriminate].
    injection Hsome as -> <-. apply Nat.ltb_lt in Hpos.
    unfold scoreOf. rewrite (lookup_keywordMap _ _ Hin). auto.
  - intros [-> Hpos]. unfold scoreOf in *.
    destruct (lookup t keywordMap) as [kw|] eqn:Hl; [|lia].
    exists (t, kw). split; [exact (lookup_elem _ _ _ Hl)|]. simpl.
    apply Nat.ltb_lt in Hpos. rewrite Hpos. reflexivity.
Qed.

Lemma scores_keys_NoDup text : NoDup (fst <$> scores text).
Proof.
  rewrite scores_spec.
  eapply sublist_NoDup with (l2 := fst <$> keywordMap).
  - unfold keywordMap. simpl. apply (bool_decide_unpack _). vm_compute. reflexivity.
  - generalize keywordMap. intros km.
    induction km as [|[t kw] km IH]; simpl; [constructor|].
    destruct (0 <? score kw text)%nat; simpl; [constructor | constructor]; exact IH.
Qed.

Lemma types_lookup text i t :
  identifyModelTypes text !! i = Some t ->
  sortByScore (scores text) !! i = Some (t, scoreOf text t) /\
  (0 < scoreOf text t)%nat /\ (i < 3)%nat.
Proof.
  unfold identifyModelTypes. rewrite list_lookup_fmap.
  destruct (take 3 (sortByScore (scores text)) !! i) as [[t' n]|] eqn:Hi;
    [|discriminate].
  simpl. intros [= ->].
  assert (Hlt : (i < 3)%nat).
  { apply lookup_lt_Some in Hi. rewrite length_take in Hi. lia. }
  rewrite lookup_take_lt in Hi by exact Hlt.
  assert (Hin : (t, n) ∈ scores text).
  { rewrite <- sortByScore_perm. eapply list_elem_of_lookup_2. exact Hi. }
  apply scores_elem in Hin as [-> Hpos]. auto.
Qed.

Lemma scoring_type_listed text u :
  (0 < scoreOf text u)%nat ->
  exists k, sortByScore (scores text) !! k = Some (u, scoreOf text u) /\
            ((k < 3)%nat -> u ∈ identifyModelTypes text).
Proof.
  intros Hpos.
  assert (Hin : (u, scoreOf text u) ∈ sortByScore (scores text)).
  { rewrite sortByScore_perm. apply scores_elem. auto. }
  apply list_elem_of_lookup_1 in Hin as [k Hk]. exists k. split; [exact Hk|].
  intros Hlt. unfold identifyModelTypes.
  apply list_elem_of_fmap. exists (u, scoreOf text u). split; [reflexivity|].
  apply elem_of_take. exists k. auto.
Qed.

Lemma model_types_are_best_three_aux text :
  (forall t, t ∈ identifyModelTypes text -> (0 < scoreOf text t)%nat) /\
  NoDup (identifyModelTypes text).
Proof.
  split.
  - intros t Ht. apply list_elem_of_lookup_1 in Ht as [i Hi].
    apply types_lookup in Hi. tauto.
  - unfold identifyModelTypes.
    eapply sublist_NoDup with (l2 := fst <$> sortByScore (scores text)).
    + rewrite sortByScore_perm. apply scores_keys_NoDup.
    + apply fmap_sublist, sublist_take.
Qed.

(** [identifyModelTypes] hands back the best three: at most three
    types, each once, each with a keyword in the text, from the highest
    score down; a type left out scores no more than any type returned,
    and with fewer than three returned no scoring type is left out. *)
Theorem model_types_are_the_best_three (text : string) :
  let types := identifyModelTypes text in
  (length types <= 3)%nat /\
  NoDup types /\
  (forall t, t ∈ types -> (0 < scoreOf text t)%nat) /\
  (forall i j t u, types !! i = Some t -> types !! j = Some u -> (i <= j)%nat ->
                   (scoreOf text u <= scoreOf text t)%nat) /\
  (forall t u, t ∈ types -> u ∉ types ->
               (scoreOf text u <= scoreOf text t)%nat) /\
  ((length types < 3)%nat ->
   forall u, (0 < scoreOf text u)%nat -> u ∈ types).
Proof.
  intros types. subst types. repeat split.
  - unfold identifyModelTypes. rewrite length_fmap, length_take. lia.
  - unfold identifyModelTypes.
    eapply sublist_NoDup with (l2 := fst <$> sortByScore (scores text)).
    + rewrite sortByScore_perm. apply scores_keys_NoDup.
    + apply fmap_sublist, sublist_take.
  - intros t Ht. apply list_elem_of_lookup_1 in Ht as [i Hi].
    apply types_lookup in Hi. tauto.
  - intros i j t u Hi Hj Hij.
    apply types_lookup in Hi as (Hi & _). apply types_lookup in Hj as (Hj & _).
    exact (sorted_lookup_le _ i j _ _ (sortByScore_sorted _) Hi Hj Hij).
  - intros t u Ht Hu.
    destruct (Nat.eq_dec (scoreOf text u) 0%nat) as [->|Hpos]; [lia|].
    apply list_elem_of_lookup_1 in Ht as [i Hi].
    apply types_lookup in Hi as (Hi & _ & Hlt).
    destruct (scoring_type_listed text u) as (k & Hk & Hlisted); [lia|].
    assert (Hge : (3 <= k)%nat).
    { destruct (le_lt_dec 3 k) as [Hge|Hlt']; [exact Hge|].
      exfalso. apply Hu, Hlisted, Hlt'. }
    apply (sorted_lookup_le _ i k _ _ (sortByScore_sorted _) Hi Hk). lia.
  - intros Hlen u Hpos.
    destruct (scoring_type_listed text u Hpos) as (k & Hk & Hlisted).
    apply Hlisted. apply lookup_lt_Some in Hk.
    unfold identifyModelTypes in Hlen. rewrite length_fmap, length_take in Hlen. lia.
Qed.

(** *** Sets *)

Lemma has_elem x s : JsSet.has x s = true <-> x ∈ s.
Proof.
  unfold JsSet.has. rewrite existsb_exists. split.
  - intros (y & Hin & Heq). apply String.eqb_eq in Heq as ->.
    apply list_elem_of_In. exact Hin.
  - intros Hin. exists x. split; [apply list_elem_of_In; exact Hin|].
    apply String.eqb_refl.
Qed.

Lemma add_elem y x s : y ∈ JsSet.add x s <-> y ∈ s \/ y = x.
Proof.
  unfold JsSet.add. destruct (JsSet.has x s) eqn:Hh.
  - apply has_elem in Hh. split; [auto|]. intros [H | ->]; assumption.
  - rewrite elem_of_app, list_elem_of_singleton. reflexivity.
Qed.

Lemma add_NoDup x s : NoDup s -> NoDup (JsSet.add x s).
Proof.
  intros Hnd. unfold JsSet.add. destruct (JsSet.has x s) eqn:Hh; [exact Hnd|].
  apply NoDup_app. split; [exact Hnd|]. split; [|apply NoDup_singleton].
  intros y Hy Hx. apply list_elem_of_singleton in Hx as ->.
  apply has_elem in Hy. congruence.
Qed.

Lemma add_ext x s : exists ext, JsSet.add x s = s ++ ext.
Proof.
  unfold JsSet.add. destruct (JsSet.has x s).
  - exists []. symmetry. apply app_nil_r.
  - exists [x]. reflexivity.
Qed.

Lemma addAll_ext xs s : exists ext, JsSet.addAll xs s = s ++ ext.
Proof.
  unfold JsSet.addAll. revert s. induction xs as [|x xs IH]; intros s; simpl.
  - exists []. symmetry. apply app_nil_r.
  - destruct (add_ext x s) as [e1 ->]. destruct (IH (s ++ e1)) as [e2 ->].
    exists (e1 ++ e2). symmetry. apply app_assoc.
Qed.

Lemma addAll_NoDup xs s : NoDup s -> NoDup (JsSet.addAll xs s).
Proof.
  unfold JsSet.addAll. revert s. induction xs as [|x xs IH]; intros s Hnd; simpl.
  - exact Hnd.
  - apply IH, add_NoDup, Hnd.
Qed.

(** *** Lower case *)

Lemma lower_ascii_not_M c : Ascii.eqb (Providers.lower_ascii c) "M" = false.
Proof.
  destruct c as [[] [] [] [] [] [] [] []]; vm_compute; reflexivity.
Qed.

Lemma toLowerCase_no_M s :
  Text.has_char "M" (Providers.toLowerCase s) = false.
Proof.
  induction s as [|c s IH]; [reflexivity|]. simpl.
  rewrite lower_ascii_not_M. exact IH.
Qed.

Lemma includes_first_char c lit s :
  Text.includes (String c lit) s = true -> Text.has_char c s = true.
Proof.
  unfold Text.includes. induction s as [|x s IH]; simpl.
  - discriminate.
  - destruct (ascii_dec c x) as [->|Hne].
    + rewrite Ascii.eqb_refl. reflexivity.
    + destruct (Text.indexOf (String c lit) s); simpl.
      * intros _. rewrite (IH eq_refl). apply orb_true_r.
      * discriminate.
Qed.

Lemma monte_carlo_not_in_lower s :
  Text.includes "Monte Carlo" (Providers.toLowerCase s) = false.
Proof.
  destruct (Text.includes "Monte Carlo" (Providers.toLowerCase s)) eqn:Hi;
    [|reflexivity].
  apply includes_first_char in Hi. rewrite toLowerCase_no_M in Hi. discriminate.
Qed.

(** *** Keywords *)

Lemma words_fold text category words acc y :
  y ∈ foldl (fun keywords word =>
               if Text.includes word text then JsSet.add category keywords
               else keywords) acc words ->
  y ∈ acc \/
  (y = category /\ exists w, w ∈ words /\ Text.includes w text = true).
Proof.
  revert acc. induction words as [|w words IH]; intros acc; simpl; [auto|].
  intros Hy. apply IH in Hy as [Hy | (-> & w' & Hw' & Hinc)].
  - destruct (Text.includes w text) eqn:Hinc; [|auto].
    apply add_elem in Hy as [Hy | ->]; [auto|].
    right. split; [reflexivity|]. exists w. split; [left | exact Hinc].
  - right. split; [reflexivity|]. exists w'. split; [right; exact Hw' | exact Hinc].
Qed.

Lemma words_fold_NoDup text category words acc :
  NoDup acc ->
  NoDup (foldl (fun keywords word =>
                  if Text.includes word text then JsSet.add category keywords
                  else keywords) acc words).
Proof.
  revert acc. induction words as [|w words IH]; intros acc Hnd; simpl; [exact Hnd|].
  apply IH. destruct (Text.includes w text); [apply add_NoDup|]; exact Hnd.
Qed.

Lemma categories_fold text km acc y :
  y ∈ foldl (fun keywords '(category, words) =>
               foldl (fun keywords word =>
                        if Text.includes word text
                        then JsSet.add category keywords else keywords)
                     keywords words) acc km ->
  y ∈ acc \/
  exists words w, (y, words) ∈ km /\ w ∈ words /\ Text.includes w text = true.
Proof.
  revert acc. induction km as [|[category words] km IH]; intros acc; simpl; [auto|].
  intros Hy. apply IH in Hy as [Hy | (ws & w & Hin & Hw & Hinc)].
  - apply words_fold in Hy as [Hy | (-> & w & Hw & Hinc)]; [auto|].
    right. exists words, w. split; [left | auto].
  - right. exists ws, w. split; [right; exact Hin | auto].
Qed.

Lemma categories_fold_NoDup text km acc :
  NoDup acc ->
  NoDup (foldl (fun keywords '(category, words) =>
                  foldl (fun keywords word =>
                           if Text.includes word text
                           then JsSet.add category keywords else keywords)
                        keywords words) acc km).
Proof.
  revert acc. induction km as [|[category words] km IH]; intros acc Hnd; simpl;
    [exact Hnd|].
  apply IH, words_fold_NoDup, Hnd.
Qed.

Lemma domain_fold text ds acc y :
  y ∈ foldl (fun keywords keyword =>
               if Text.includes keyword text then JsSet.add keyword keywords
               else keywords) acc ds ->
  y ∈ acc \/ (y ∈ ds /\ Text.includes y text = true).
Proof.
  revert acc. induction ds as [|d ds IH]; intros acc; simpl; [auto|].
  intros Hy. apply IH in Hy as [Hy | [Hin Hinc]].
  - destruct (Text.includes d text) eqn:Hinc; [|auto].
    apply add_elem in Hy as [Hy | ->]; [auto|]. right. split; [left | exact Hinc].
  - right. split; [right; exact Hin | exact Hinc].
Qed.

Lemma domain_fold_NoDup text ds acc :
  NoDup acc ->
  NoDup (foldl (fun keywords keyword =>
                  if Text.includes keyword text then JsSet.add keyword keywords
                  else keywords) acc ds).
Proof.
  revert acc. induction ds as [|d ds IH]; intros acc Hnd; simpl; [exact Hnd|].
  apply IH. destruct (Text.includes d text); [apply add_NoDup|]; exact Hnd.
Qed.

Lemma extractKeywords_elem text y :
  y ∈ extractKeywords text ->
  (y ∈ domainKeywords /\ Text.includes y text = true) \/
  exists words w,
    (y, words) ∈ keywordMap /\ w ∈ words /\ Text.includes w text = true.
Proof.
  unfold extractKeywords. intros Hy.
  apply categories_fold in Hy as [Hy | Hy]; [|auto].
  apply domain_fold in Hy as [Hy | Hy]; [inversion Hy | auto].
Qed.

Lemma extractKeywords_NoDup text : NoDup (extractKeywords text).
Proof.
  unfold extractKeywords. apply categories_fold_NoDup, domain_fold_NoDup.
  constructor.
Qed.

Lemma score_positive text words :
  (0 < score words text)%nat ->
  exists w, w ∈ words /\ Text.includes w text = true.
Proof.
  unfold score.
  assert (Hgen : forall n,
    (n < foldl (fun score keyword =>
                  if Text.includes keyword text then S score else score)
               n words)%nat ->
    exists w, w ∈ words /\ Text.includes w text = true).
  { induction words as [|w words IH]; intros n; simpl; [lia|].
    destruct (Text.includes w text) eqn:Hinc.
    - intros _. exists w. split; [left | exact Hinc].
    - intros Hlt. destruct (IH n Hlt) as (w' & Hw' & Hinc').
      exists w'. split; [right; exact Hw' | exact Hinc']. }
  apply Hgen.
Qed.

(** The keyword [Monte Carlo] never counts: [analyzeProblem] searches
    the text in lower case, where a capital cannot occur. A problem
    that names Monte Carlo and none of the other five simulation words
    is therefore given neither the model type nor the keyword
    [simulation]. *)
Theorem monte_carlo_never_counts {Solution Archetype : Type}
        (findSimilarSolutions : list string -> list string -> list Solution)
        (suggestArchetypes : list string -> list Archetype)
        (problemText : string) (a : Analysis Solution Archetype) :
  analyzeProblem Solution Archetype findSimilarSolutions suggestArchetypes
    problemText = Js.Return a ->
  (forall w, w ∈ ["simulate"; "model behavior"; "scenario"; "what-if"; "agent"] ->
             Text.includes w (Providers.toLowerCase problemText) = false) ->
  ("simulation" ∉ modelTypes _ _ a) /\ ("simulation" ∉ keywords _ _ a).
Proof.
  intros Ha Hwords.
  assert (Hnone : forall w,
    w ∈ ["simulate"; "model behavior"; "scenario"; "what-if"; "Monte Carlo"; "agent"] ->
    Text.includes w (Providers.toLowerCase problemText) = false).
  { intros w Hw.
    repeat (apply elem_of_cons in Hw as [->|Hw];
            [first [apply monte_carlo_not_in_lower
                   | apply Hwords; apply (bool_decide_unpack _); vm_compute; reflexivity]|]).
    inversion Hw. }
  unfold analyzeProblem in Ha.
  destruct (suggestTechniques _ _) as [techs|e]; [|discriminate].
  injection Ha as <-. cbn [modelTypes keywords]. split.
  - intros Hin.
    destruct (model_types_are_best_three_aux (Providers.toLowerCase problemText))
      as [Hpos _].
    specialize (Hpos _ Hin). unfold scoreOf in Hpos.
    cbn [lookup keywordMap String.eqb Ascii.eqb Bool.eqb] in Hpos.
    apply score_positive in Hpos as (w & Hw & Hinc).
    rewrite (Hnone w Hw) in Hinc. discriminate.
  - intros Hin. apply extractKeywords_elem in Hin as [[Hd _] | (ws & w & Hk & Hw & Hinc)].
    + apply (bool_decide_pack _) in Hd. vm_compute in Hd. exact Hd.
    + unfold keywordMap in Hk.
      repeat (apply elem_of_cons in Hk as [Hk|Hk];
              [first [discriminate Hk
                     | injection Hk as ->; rewrite (Hnone w Hw) in Hinc;
                       discriminate]|]).
      inversion Hk.
Qed.

(** *** Techniques *)

Lemma scoring_is_key text t :
  (0 < scoreOf text t)%nat -> t ∈ fst <$> keywordMap.
Proof.
  unfold scoreOf. destruct (lookup t keywordMap) as [kw|] eqn:Hl; [|lia].
  intros _. apply lookup_elem in Hl.
  apply list_elem_of_fmap. exists (t, kw). auto.
Qed.

Lemma contextTechniques_ext text s :
  exists ext, contextTechniques text s = s ++ ext.
Proof.
  unfold contextTechniques.
  repeat match goal with
         | |- context [if ?b then _ else _] =>
             lazymatch b with
             | JsSet.has _ _ => fail
             | _ => destruct b
             end
         end;
    repeat match goal with
           | |- context [JsSet.add ?x ?l] =>
               let e := fresh "e" in
               let He := fresh "He" in
               destruct (add_ext x l) as [e He]; rewrite He; clear He
           end;
    rewrite <- ?app_assoc; eexists; first [reflexivity | symmetry; apply app_nil_r].
Qed.

Lemma contextTechniques_NoDup text s :
  NoDup s -> NoDup (contextTechniques text s).
Proof.
  intros Hnd. unfold contextTechniques.
  repeat match goal with
         | |- context [if ?b then _ else _] =>
             lazymatch b with
             | JsSet.has _ _ => fail
             | _ => destruct b
             end
         end; repeat apply add_NoDup; exact Hnd.
Qed.

Lemma typeTechniques_keys rest s :
  Forall (fun t => t ∈ fst <$> keywordMap) rest ->
  NoDup s ->
  exists ext, typeTechniques rest s = Js.Return (s ++ ext) /\ NoDup (s ++ ext).
Proof.
  intros Hkeys. revert s. induction Hkeys as [|t rest Ht _ IH]; intros s Hnd.
  - exists []. rewrite app_nil_r. split; [reflexivity | exact Hnd].
  - assert (Hsome : exists techs, lookup t techniqueMap = Some techs).
    { unfold keywordMap in Ht. cbn [fmap list_fmap fst] in Ht.
      repeat (apply elem_of_cons in Ht as [->|Ht]; [eexists; reflexivity|]).
      inversion Ht. }
    destruct Hsome as [techs Hl]. cbn [typeTechniques]. rewrite Hl.
    destruct (addAll_ext techs s) as [e1 He1].
    destruct (IH (JsSet.addAll techs s) (addAll_NoDup techs s Hnd))
      as (e2 & Hr & Hnd2).
    rewrite Hr, He1. rewrite He1 in Hnd2.
    exists (e1 ++ e2). rewrite app_assoc. auto.
Qed.

Lemma types_are_keys text :
  Forall (fun t => t ∈ fst <$> keywordMap) (identifyModelTypes text).
Proof.
  apply Forall_forall. intros t Ht. apply (scoring_is_key text).
  apply (model_types_are_best_three_aux text). exact Ht.
Qed.

Lemma typeTechniques_two t0 t1 rest techs0 techs1 :
  lookup t0 techniqueMap = Some techs0 ->
  lookup t1 techniqueMap = Some techs1 ->
  typeTechniques (t0 :: t1 :: rest) [] =
  typeTechniques rest (JsSet.addAll techs1 (JsSet.addAll techs0 [])).
Proof. intros H0 H1. cbn [typeTechniques]. rewrite H0, H1. reflexivity. Qed.

(** With two or more model types found, the techniques are the four of
    the first type and the first of the second, whatever the text says:
    the additions for time series, spatial data and uncertainty come
    after the cut at five. *)
Theorem two_types_fix_the_techniques (text : string) (t0 t1 : string)
        (rest : list string) :
  identifyModelTypes text = t0 :: t1 :: rest ->
  exists techs0 first techs1,
    lookup t0 techniqueMap = Some techs0 /\
    lookup t1 techniqueMap = Some (first :: techs1) /\
    forall text',
      suggestTechniques text' (t0 :: t1 :: rest) = Js.Return (techs0 ++ [first]).
Proof.
  intros Htypes.
  pose proof (types_are_keys text) as Hkeys.
  pose proof (proj2 (model_types_are_best_three_aux text)) as Hnd.
  rewrite Htypes in Hkeys, Hnd.
  apply Forall_cons in Hkeys as [Hk0 Hkeys].
  apply Forall_cons in Hkeys as [Hk1 Hrest].
  assert (Hne : t0 <> t1).
  { intros ->. apply NoDup_cons in Hnd as [Hnot _]. apply Hnot. left. }
  unfold keywordMap in Hk0, Hk1. cbn [fmap list_fmap fst] in Hk0, Hk1.
  repeat (apply elem_of_cons in Hk0 as [->|Hk0]; [|]); [..|inversion Hk0];
    (repeat (apply elem_of_cons in Hk1 as [->|Hk1]; [|]); [..|inversion Hk1]);
    try congruence;
    (eexists _, _, _; split; [reflexivity|]; split; [reflexivity|];
     intros text'; unfold suggestTechniques;
     erewrite typeTechniques_two by reflexivity;
     match goal with
     | |- context [typeTechniques rest ?s] =>
         let s' := eval vm_compute in s in
         change s with s';
         destruct (typeTechniques_keys rest s' Hrest) as (ext & Hr & _);
           [apply (bool_decide_unpack _); vm_compute; reflexivity|];
         rewrite Hr
     end;
     match goal with
     | |- context [contextTechniques text' ?l] =>
         destruct (contextTechniques_ext text' l) as [ext' Hc]; rewrite Hc
     end;
     rewrite <- app_assoc, take_app_le by (simpl; lia); reflexivity).
Qed.

(** *** The analysis *)

Lemma identifyDeliverables_nonempty text : identifyDeliverables text <> [].
Proof.
  unfold identifyDeliverables.
  repeat match goal with
         | |- context [pushIf ?b _ _] =>
             lazymatch b with
             | true => fail
             | false => fail
             | _ => destruct b
             end
         end; simpl; discriminate.
Qed.

Lemma identifyDataNeeds_nonempty text : identifyDataNeeds text <> [].
Proof.
  unfold identifyDataNeeds.
  repeat match goal with
         | |- context [pushIf ?b _ _] =>
             lazymatch b with
             | true => fail
             | false => fail
             | _ => destruct b
             end
         end; simpl; discriminate.
Qed.

Lemma assessComplexity_values text types :
  assessComplexity text types ∈ ["low"; "medium"; "high"].
Proof.
  unfold assessComplexity.
  destruct types as [|first [|second types]];
    repeat match goal with
           | |- context [if ?b then _ else _] => destruct b
           end;
    apply (bool_decide_unpack _); vm_compute; reflexivity.
Qed.

(** With a database and a template library that answer,
    [analyzeProblem] returns ([suggestTechniques] never throws on the
    types [identifyModelTypes] finds), and what it hands back is
    bounded: at most three model types, five techniques and five
    historical solutions, no keyword, model type or technique twice, at
    least one deliverable and one data need, and a complexity that is
    low, medium or high. *)
Theorem analysis_is_bounded {Solution Archetype : Type}
        (findSimilarSolutions : list string -> list string -> list Solution)
        (suggestArchetypes : list string -> list Archetype)
        (problemText : string) :
  exists a,
    analyzeProblem Solution Archetype findSimilarSolutions suggestArchetypes
      problemText = Js.Return a /\
    (length (modelTypes _ _ a) <= 3)%nat /\
    (length (techniques _ _ a) <= 5)%nat /\
    (length (historicalSolutions _ _ a) <= 5)%nat /\
    NoDup (keywords _ _ a) /\ NoDup (modelTypes _ _ a) /\
    NoDup (techniques _ _ a) /\
    deliverables _ _ a <> [] /\ dataNeeds _ _ a <> [] /\
    complexity _ _ a ∈ ["low"; "medium"; "high"].
Proof.
  unfold analyzeProblem, suggestTechniques.
  destruct (typeTechniques_keys
              (identifyModelTypes (Providers.toLowerCase problemText)) []
              (types_are_keys _) (NoDup_nil_2)) as (ext & Hr & Hnd).
  rewrite Hr. eexists. split; [reflexivity|].
  cbn [modelTypes techniques historicalSolutions keywords deliverables dataNeeds
       complexity].
  split; [unfold identifyModelTypes; rewrite length_fmap, list.length_take; lia|].
  split; [rewrite list.length_take; lia|].
  split; [rewrite list.length_take; lia|].
  split; [apply extractKeywords_NoDup|].
  split; [apply model_types_are_best_three_aux|].
  split.
  { eapply sublist_NoDup; [|apply sublist_take].
    apply contextTechniques_NoDup, Hnd. }
  split; [apply identifyDeliverables_nonempty|].
  split; [apply identifyDataNeeds_nonempty|].
  apply assessComplexity_values.
Qed.

End ProblemAnalyzerFacts.

Lemma monte_carlo_never_counts_witness :
  exists a,
    ProblemAnalyzer.analyzeProblem unit unit (fun _ _ => []) (fun _ => [])
      "Estimate the risk with a Monte Carlo study" = Js.Return a /\
    ("simulation" ∉ ProblemAnalyzer.modelTypes _ _ a) /\
    ("simulation" ∉ ProblemAnalyzer.keywords _ _ a).
Proof.
  eexists. split; [vm_compute; reflexivity|].
  eapply (monte_carlo_never_counts (fun _ _ => []) (fun _ => [])
            "Estimate the risk with a Monte Carlo study").
  - vm_compute. reflexivity.
  - intros w Hw.
    repeat (apply elem_of_cons in Hw as [->|Hw]; [vm_compute; reflexivity|]).
    inversion Hw.
Defined.

Lemma two_types_fix_the_techniques_witness :
  exists techs0 first techs1,
    ProblemAnalyzer.lookup "network" ProblemAnalyzer.techniqueMap = Some techs0 /\
    ProblemAnalyzer.lookup "optimization" ProblemAnalyzer.techniqueMap
      = Some (first :: techs1) /\
    forall text',
      ProblemAnalyzer.suggestTechniques text'
        ["network"; "optimization"; "statistical"]
      = Js.Return (techs0 ++ [first]).
Proof.
  apply (two_types_fix_the_techniques
           "minimize the shortest route and predict the flow").
  vm_compute. reflexivity.
Defined.
